(** * Cygwin FIFO handler (winsup/cygwin/fhandler_fifo.cc)

    A shallow embedding of the reader-side connection engine of
    [fhandler_fifo]: the client handler table, the listener thread
    ([thread_func]), the ownership record kept in shared memory, and the
    [open] / [raw_read] / [raw_write] / [close] paths.

    The C++ methods are written in a small state monad over a [world]
    that holds the endpoint object, the shared memory segment, [errno],
    the calls made to the platform so far ([trace]) and the answers the
    platform is going to give ([script]). *)

From stdpp Require Import base numbers list.

Local Open Scope Z_scope.

(** ** Platform constants *)

(** NTSTATUS is a signed 32-bit LONG; the values are those of ntstatus.h
    (and of Cygwin's ntdll.h for the two thread statuses). *)
Definition NTSTATUS := Z.
Definition nt (code : Z) : NTSTATUS := if code <? 2 ^ 31 then code else code - 2 ^ 32.

Definition STATUS_SUCCESS : NTSTATUS := nt 0x00000000.
Definition STATUS_PENDING : NTSTATUS := nt 0x00000103.
Definition STATUS_BUFFER_OVERFLOW : NTSTATUS := nt 0x80000005.
Definition STATUS_OBJECT_NAME_COLLISION : NTSTATUS := nt 0xC0000035.
Definition STATUS_THREAD_IS_TERMINATING : NTSTATUS := nt 0xC000004B.
Definition STATUS_INSTANCE_NOT_AVAILABLE : NTSTATUS := nt 0xC00000AB.
Definition STATUS_PIPE_NOT_AVAILABLE : NTSTATUS := nt 0xC00000AC.
Definition STATUS_PIPE_BUSY : NTSTATUS := nt 0xC00000AE.
Definition STATUS_PIPE_CLOSING : NTSTATUS := nt 0xC00000B1.
Definition STATUS_PIPE_CONNECTED : NTSTATUS := nt 0xC00000B2.
Definition STATUS_PIPE_EMPTY : NTSTATUS := nt 0xC00000D9.
Definition STATUS_PIPE_BROKEN : NTSTATUS := nt 0xC000014B.
Definition STATUS_THREAD_SIGNALED : NTSTATUS := nt 0xE0000001.
Definition STATUS_THREAD_CANCELED : NTSTATUS := nt 0xE0000002.

(** <<#define NT_SUCCESS(Status) (((NTSTATUS)(Status)) >= 0)>> *)
Definition NT_SUCCESS (status : NTSTATUS) : bool := 0 <=? status.

(** <<STATUS_PIPE_IS_CLOSED>>: only to be used for writers. *)
Definition STATUS_PIPE_IS_CLOSED (status : NTSTATUS) : bool :=
  let _s := status in
  (_s =? STATUS_PIPE_CLOSING) || (_s =? STATUS_PIPE_BROKEN) || (_s =? STATUS_PIPE_EMPTY).

Definition STATUS_PIPE_NO_INSTANCE_AVAILABLE (status : NTSTATUS) : bool :=
  let _s := status in
  (_s =? STATUS_INSTANCE_NOT_AVAILABLE) || (_s =? STATUS_PIPE_NOT_AVAILABLE)
  || (_s =? STATUS_PIPE_BUSY).

(** errno values of newlib's sys/errno.h. *)
Definition EINTR : Z := 4.
Definition ENXIO : Z := 6.
Definition EBADF : Z := 9.
Definition EAGAIN : Z := 11.
Definition EINVAL : Z := 22.
Definition EMFILE : Z := 24.
Definition EPIPE : Z := 32.
Definition ENOTSUP : Z := 134.

Definition SIGPIPE : Z := 13.

(** Open flags of newlib's sys/_default_fcntl.h. *)
Definition O_RDONLY : Z := 0.
Definition O_WRONLY : Z := 1.
Definition O_RDWR : Z := 2.
Definition O_ACCMODE : Z := 3.
Definition O_NONBLOCK : Z := 0x4000.
Definition O_CLOEXEC : Z := 0x40000.
Definition O_PATH : Z := 0x2000000.

(** Wait results (winbase.h, cygwait.h). *)
Definition WAIT_OBJECT_0 : Z := 0.
Definition WAIT_SIGNALED : Z := WAIT_OBJECT_0 + 1.
Definition WAIT_CANCELED : Z := WAIT_OBJECT_0 + 2.
Definition WAIT_TIMEOUT : Z := 258.
Definition INFINITE : Z := 0xFFFFFFFF.

(** Named pipe modes and states (ntdll.h). *)
Definition FILE_PIPE_QUEUE_OPERATION : Z := 0.
Definition FILE_PIPE_COMPLETE_OPERATION : Z := 1.
Definition FILE_PIPE_CONNECTED_STATE : Z := 3.
Definition FILE_PIPE_INPUT_AVAILABLE_STATE : Z := 5.
Definition FILE_OPEN : Z := 1.
Definition FILE_CREATE : Z := 2.

(** Machine integers: [size_t] and [ULONG_PTR] are 64 bits wide, [ULONG]
    32 bits, [ssize_t] is the signed 64-bit type. *)
Definition to_size_t (z : Z) : Z := z mod 2 ^ 64.
Definition to_ULONG (z : Z) : Z := z mod 2 ^ 32.
Definition to_ssize_t (z : Z) : Z :=
  let u := z mod 2 ^ 64 in if u <? 2 ^ 63 then u else u - 2 ^ 64.
Definition SSIZE_MAX : Z := 2 ^ 63 - 1.

(** ** Data model *)

(** A HANDLE or a pointer is an address; 0 is NULL. *)
Definition HANDLE := Z.
Definition NULL : HANDLE := 0.

(** Identity of a reader endpoint: the process id and the address of the
    [fhandler_fifo] object. *)
Record fifo_reader_id_t := { winpid : Z; fh : Z }.

(** <<static NO_COPY fifo_reader_id_t null_fr_id = { .winpid = 0, .fh = NULL }>> *)
Definition null_fr_id : fifo_reader_id_t := {| winpid := 0; fh := NULL |}.

(** Modelled from the spec: the comparison and the boolean conversion of
    [fifo_reader_id_t] are declared in fhandler.h; an identity is used
    "purely for equality testing", and an owner is "either empty, or the
    self-identity of exactly one FifoEndpoint". *)
Definition fr_id_eqb (l r : fifo_reader_id_t) : bool :=
  (winpid l =? winpid r) && (fh l =? fh r).
Definition fr_id_nonempty (id : fifo_reader_id_t) : bool :=
  negb (winpid id =? 0) || negb (fh id =? NULL).

(** Modelled from the spec: the connection states of a client handler are
    declared in fhandler.h; the spec names them listening, connected and
    invalid, and a new entry is a listening one. *)
Inductive fifo_client_connect_state := fc_listening | fc_connected | fc_invalid.

Record fifo_client_handler := { h : HANDLE; state : fifo_client_connect_state }.

Definition is_fc_connected (fc : fifo_client_handler) : bool :=
  match state fc with fc_connected => true | _ => false end.
Definition is_fc_invalid (fc : fifo_client_handler) : bool :=
  match state fc with fc_invalid => true | _ => false end.

(** The default constructor of [fifo_client_handler]. *)
Definition new_fifo_client_handler : fifo_client_handler :=
  {| h := NULL; state := fc_listening |}.

(** Modelled from the spec: [fifo_shmem_t] is declared in fhandler.h.  The
    shared segment holds the owner record and the count of open reader
    endpoints of this FIFO. *)
Record fifo_shmem_t := { _owner : fifo_reader_id_t; _nreaders : Z }.

(** The endpoint object.  [fc_handler] is the array
    <<fc_handler[MAX_CLIENTS]>>, of which the first [nhandlers] slots are
    in use; [openflags], [io_handle] and [nohandle_] are the members of
    [fhandler_base] this file reads and writes; [this] is the address of
    the object. *)
Record fhandler_fifo := {
  this : Z;
  openflags : Z;
  io_handle : HANDLE;
  nohandle_ : bool;
  read_ready : HANDLE;
  write_ready : HANDLE;
  listening_evt : HANDLE;
  cancel_evt : HANDLE;
  sync_thr : HANDLE;
  nhandlers : nat;
  fc_handler : list fifo_client_handler;
  nconnected : Z;
  reader : bool;
  writer : bool;
  duplexer : bool;
  max_atomic_write : Z;
  shmem_handle : HANDLE;
  shmem : Z;
  me : fifo_reader_id_t
}.

(** The part of the endpoint guarded by [fifo_client_lock]. *)
Record client_table := {
  t_nhandlers : nat;
  t_fc_handler : list fifo_client_handler;
  t_nconnected : Z
}.

(** ** Calls to the platform, and its answers *)

Inductive lock_id := owner_lock_id | reader_lock_id | fifo_client_lock_id.

Inductive event :=
| Ev_CreateEvent (manual_reset : bool) (name : option Z)
| Ev_NtCreateEvent
| Ev_SetEvent (hdl : HANDLE)
| Ev_ResetEvent (hdl : HANDLE)
| Ev_NtClose (hdl : HANDLE)
| Ev_GetLastError
| Ev_GetCurrentProcessId
| Ev_NtSetInformationFile (ph : HANDLE) (CompletionMode : Z)
| Ev_npfs_handle
| Ev_NtCreateNamedPipeFile (disposition : Z) (CompletionMode : Z)
| Ev_NtOpenFile
| Ev_NtFsControlFile_LISTEN (ph evt : HANDLE)
| Ev_NtQueryInformationFile (ph : HANDLE)
| Ev_WaitForMultipleObjects (h0 h1 : HANDLE)
| Ev_WaitForSingleObject (hdl : HANDLE)
| Ev_cygwait (hdl : HANDLE) (timeout : Z)
| Ev_NtWriteFile (hdl evt : HANDLE) (ptr : Z) (len : Z)
| Ev_NtReadFile (hdl : HANDLE) (ptr : Z) (len : Z)
| Ev_isclosed
| Ev_call_signal_handler
| Ev_Sleep (ms : Z)
| Ev_raise (sig : Z)
| Ev_lock (l : lock_id)
| Ev_unlock (l : lock_id)
| Ev_NtCreateSection
| Ev_NtOpenSection
| Ev_NtMapViewOfSection
| Ev_NtUnmapViewOfSection (addr : Z)
| Ev_new_cygthread (sync : HANDLE)
| Ev_auto_release
| Ev_open_fs (flags : Z)
| Ev_fhandler_base_close.

(** What the platform answers.  Taking a lock answers with what the other
    threads and processes did to the guarded data since this thread last
    released it ([None]: nothing). *)
Inductive answer :=
| A_handle (hdl : HANDLE)
| A_bool (b : bool)
| A_dword (d : Z)
| A_int (r : Z)
| A_nt (status : NTSTATUS) (out : HANDLE)
| A_io (status : NTSTATUS) (io_Status : NTSTATUS) (io_Information : Z)
| A_pipe_info (status : NTSTATUS) (ReadDataAvailable : Z) (NamedPipeState : Z)
| A_owner_locked (seen : option fifo_reader_id_t)
| A_reader_locked (seen : option Z)
| A_client_locked (seen : option client_table).

Record world := {
  self : fhandler_fifo;
  shared : fifo_shmem_t;
  errno : Z;
  script : list answer;
  trace : list event
}.

(** Member updates (C++ assignments to one member). *)
Definition set_openflags (v : Z) (f : fhandler_fifo) : fhandler_fifo :=
  Build_fhandler_fifo (this f) v (io_handle f) (nohandle_ f) (read_ready f)
    (write_ready f) (listening_evt f) (cancel_evt f) (sync_thr f) (nhandlers f)
    (fc_handler f) (nconnected f) (reader f) (writer f) (duplexer f)
    (max_atomic_write f) (shmem_handle f) (shmem f) (me f).
Definition set_io_handle (v : HANDLE) (f : fhandler_fifo) : fhandler_fifo :=
  Build_fhandler_fifo (this f) (openflags f) v (nohandle_ f) (read_ready f)
    (write_ready f) (listening_evt f) (cancel_evt f) (sync_thr f) (nhandlers f)
    (fc_handler f) (nconnected f) (reader f) (writer f) (duplexer f)
    (max_atomic_write f) (shmem_handle f) (shmem f) (me f).
Definition set_nohandle (v : bool) (f : fhandler_fifo) : fhandler_fifo :=
  Build_fhandler_fifo (this f) (openflags f) (io_handle f) v (read_ready f)
    (write_ready f) (listening_evt f) (cancel_evt f) (sync_thr f) (nhandlers f)
    (fc_handler f) (nconnected f) (reader f) (writer f) (duplexer f)
    (max_atomic_write f) (shmem_handle f) (shmem f) (me f).
Definition set_read_ready (v : HANDLE) (f : fhandler_fifo) : fhandler_fifo :=
  Build_fhandler_fifo (this f) (openflags f) (io_handle f) (nohandle_ f) v
    (write_ready f) (listening_evt f) (cancel_evt f) (sync_thr f) (nhandlers f)
    (fc_handler f) (nconnected f) (reader f) (writer f) (duplexer f)
    (max_atomic_write f) (shmem_handle f) (shmem f) (me f).
Definition set_write_ready (v : HANDLE) (f : fhandler_fifo) : fhandler_fifo :=
  Build_fhandler_fifo (this f) (openflags f) (io_handle f) (nohandle_ f)
    (read_ready f) v (listening_evt f) (cancel_evt f) (sync_thr f) (nhandlers f)
    (fc_handler f) (nconnected f) (reader f) (writer f) (duplexer f)
    (max_atomic_write f) (shmem_handle f) (shmem f) (me f).
Definition set_listening_evt (v : HANDLE) (f : fhandler_fifo) : fhandler_fifo :=
  Build_fhandler_fifo (this f) (openflags f) (io_handle f) (nohandle_ f)
    (read_ready f) (write_ready f) v (cancel_evt f) (sync_thr f) (nhandlers f)
    (fc_handler f) (nconnected f) (reader f) (writer f) (duplexer f)
    (max_atomic_write f) (shmem_handle f) (shmem f) (me f).
Definition set_cancel_evt (v : HANDLE) (f : fhandler_fifo) : fhandler_fifo :=
  Build_fhandler_fifo (this f) (openflags f) (io_handle f) (nohandle_ f)
    (read_ready f) (write_ready f) (listening_evt f) v (sync_thr f) (nhandlers f)
    (fc_handler f) (nconnected f) (reader f) (writer f) (duplexer f)
    (max_atomic_write f) (shmem_handle f) (shmem f) (me f).
Definition set_sync_thr (v : HANDLE) (f : fhandler_fifo) : fhandler_fifo :=
  Build_fhandler_fifo (this f) (openflags f) (io_handle f) (nohandle_ f)
    (read_ready f) (write_ready f) (listening_evt f) (cancel_evt f) v (nhandlers f)
    (fc_handler f) (nconnected f) (reader f) (writer f) (duplexer f)
    (max_atomic_write f) (shmem_handle f) (shmem f) (me f).
Definition set_nhandlers (v : nat) (f : fhandler_fifo) : fhandler_fifo :=
  Build_fhandler_fifo (this f) (openflags f) (io_handle f) (nohandle_ f)
    (read_ready f) (write_ready f) (listening_evt f) (cancel_evt f) (sync_thr f) v
    (fc_handler f) (nconnected f) (reader f) (writer f) (duplexer f)
    (max_atomic_write f) (shmem_handle f) (shmem f) (me f).
Definition set_fc_handler (v : list fifo_client_handler) (f : fhandler_fifo) : fhandler_fifo :=
  Build_fhandler_fifo (this f) (openflags f) (io_handle f) (nohandle_ f)
    (read_ready f) (write_ready f) (listening_evt f) (cancel_evt f) (sync_thr f)
    (nhandlers f) v (nconnected f) (reader f) (writer f) (duplexer f)
    (max_atomic_write f) (shmem_handle f) (shmem f) (me f).
Definition set_nconnected (v : Z) (f : fhandler_fifo) : fhandler_fifo :=
  Build_fhandler_fifo (this f) (openflags f) (io_handle f) (nohandle_ f)
    (read_ready f) (write_ready f) (listening_evt f) (cancel_evt f) (sync_thr f)
    (nhandlers f) (fc_handler f) v (reader f) (writer f) (duplexer f)
    (max_atomic_write f) (shmem_handle f) (shmem f) (me f).
Definition set_reader (v : bool) (f : fhandler_fifo) : fhandler_fifo :=
  Build_fhandler_fifo (this f) (openflags f) (io_handle f) (nohandle_ f)
    (read_ready f) (write_ready f) (listening_evt f) (cancel_evt f) (sync_thr f)
    (nhandlers f) (fc_handler f) (nconnected f) v (writer f) (duplexer f)
    (max_atomic_write f) (shmem_handle f) (shmem f) (me f).
Definition set_writer (v : bool) (f : fhandler_fifo) : fhandler_fifo :=
  Build_fhandler_fifo (this f) (openflags f) (io_handle f) (nohandle_ f)
    (read_ready f) (write_ready f) (listening_evt f) (cancel_evt f) (sync_thr f)
    (nhandlers f) (fc_handler f) (nconnected f) (reader f) v (duplexer f)
    (max_atomic_write f) (shmem_handle f) (shmem f) (me f).
Definition set_duplexer (v : bool) (f : fhandler_fifo) : fhandler_fifo :=
  Build_fhandler_fifo (this f) (openflags f) (io_handle f) (nohandle_ f)
    (read_ready f) (write_ready f) (listening_evt f) (cancel_evt f) (sync_thr f)
    (nhandlers f) (fc_handler f) (nconnected f) (reader f) (writer f) v
    (max_atomic_write f) (shmem_handle f) (shmem f) (me f).
Definition set_shmem_handle (v : HANDLE) (f : fhandler_fifo) : fhandler_fifo :=
  Build_fhandler_fifo (this f) (openflags f) (io_handle f) (nohandle_ f)
    (read_ready f) (write_ready f) (listening_evt f) (cancel_evt f) (sync_thr f)
    (nhandlers f) (fc_handler f) (nconnected f) (reader f) (writer f) (duplexer f)
    (max_atomic_write f) v (shmem f) (me f).
Definition set_shmem (v : Z) (f : fhandler_fifo) : fhandler_fifo :=
  Build_fhandler_fifo (this f) (openflags f) (io_handle f) (nohandle_ f)
    (read_ready f) (write_ready f) (listening_evt f) (cancel_evt f) (sync_thr f)
    (nhandlers f) (fc_handler f) (nconnected f) (reader f) (writer f) (duplexer f)
    (max_atomic_write f) (shmem_handle f) v (me f).
Definition set_me (v : fifo_reader_id_t) (f : fhandler_fifo) : fhandler_fifo :=
  Build_fhandler_fifo (this f) (openflags f) (io_handle f) (nohandle_ f)
    (read_ready f) (write_ready f) (listening_evt f) (cancel_evt f) (sync_thr f)
    (nhandlers f) (fc_handler f) (nconnected f) (reader f) (writer f) (duplexer f)
    (max_atomic_write f) (shmem_handle f) (shmem f) v.

Definition table_of (f : fhandler_fifo) : client_table :=
  {| t_nhandlers := nhandlers f; t_fc_handler := fc_handler f; t_nconnected := nconnected f |}.
Definition set_table (t : client_table) (f : fhandler_fifo) : fhandler_fifo :=
  set_nhandlers (t_nhandlers t)
    (set_fc_handler (t_fc_handler t) (set_nconnected (t_nconnected t) f)).

Definition with_self (f : fhandler_fifo) (w : world) : world :=
  {| self := f; shared := shared w; errno := errno w; script := script w; trace := trace w |}.
Definition with_shared (s : fifo_shmem_t) (w : world) : world :=
  {| self := self w; shared := s; errno := errno w; script := script w; trace := trace w |}.
Definition with_errno (e : Z) (w : world) : world :=
  {| self := self w; shared := shared w; errno := e; script := script w; trace := trace w |}.
Definition with_script (s : list answer) (w : world) : world :=
  {| self := self w; shared := shared w; errno := errno w; script := s; trace := trace w |}.
Definition with_trace (t : list event) (w : world) : world :=
  {| self := self w; shared := shared w; errno := errno w; script := script w; trace := t |}.

(** ** The monad *)

(** A call either returns ([Done]), or never returns to its caller because
    the calling thread is cancelled ([Exit], <<pthread::static_cancel_self>>),
    or the script does not describe this execution ([Stuck]: it ran out,
    or answers a different call). *)
Inductive outcome (A : Type) :=
| Done (a : A) (w : world)
| Exit (w : world)
| Stuck.
Arguments Done {A} a w.
Arguments Exit {A} w.
Arguments Stuck {A}.

Definition M (A : Type) : Type := world -> outcome A.

Definition ret {A} (a : A) : M A := fun w => Done a w.
Definition bind {A B} (m : M A) (k : A -> M B) : M B :=
  fun w => match m w with
           | Done a w' => k a w'
           | Exit w' => Exit w'
           | Stuck => Stuck
           end.

#[global] Instance M_ret : MRet M := @ret.
#[global] Instance M_bind : MBind M := fun A B k m => bind m k.

Definition stuck {A} : M A := fun _ => Stuck.
Definition thread_exit {A} : M A := fun w => Exit w.

Definition get_self : M fhandler_fifo := fun w => Done (self w) w.
Definition upd_self (g : fhandler_fifo -> fhandler_fifo) : M unit :=
  fun w => Done tt (with_self (g (self w)) w).
Definition get_shared : M fifo_shmem_t := fun w => Done (shared w) w.
Definition put_shared (s : fifo_shmem_t) : M unit := fun w => Done tt (with_shared s w).
Definition set_errno (e : Z) : M unit := fun w => Done tt (with_errno e w).
Definition remaining : M nat := fun w => Done (length (script w)) w.

(** The world once the call [e] has been made. *)
Definition logged (e : event) (w : world) : world := with_trace (trace w ++ [e]) w.

(** A call whose result the code does not look at. *)
Definition tell (e : event) : M unit := fun w => Done tt (logged e w).
(** A call whose result the code uses: the next answer of the script. *)
Definition ask (e : event) : M answer :=
  fun w => match script w with
           | [] => Stuck
           | a :: rest => Done a (with_script rest (logged e w))
           end.

Definition ask_handle (e : event) : M HANDLE :=
  a ← ask e; match a with A_handle hdl => ret hdl | _ => stuck end.
Definition ask_bool (e : event) : M bool :=
  a ← ask e; match a with A_bool b => ret b | _ => stuck end.
Definition ask_dword (e : event) : M Z :=
  a ← ask e; match a with A_dword d => ret d | _ => stuck end.
Definition ask_int (e : event) : M Z :=
  a ← ask e; match a with A_int r => ret r | _ => stuck end.
Definition ask_nt (e : event) : M (NTSTATUS * HANDLE) :=
  a ← ask e; match a with A_nt s out => ret (s, out) | _ => stuck end.
Definition ask_io (e : event) : M (NTSTATUS * NTSTATUS * Z) :=
  a ← ask e; match a with A_io s ios inf => ret (s, ios, inf) | _ => stuck end.
Definition ask_pipe_info (e : event) : M (NTSTATUS * Z * Z) :=
  a ← ask e; match a with A_pipe_info s avail st => ret (s, avail, st) | _ => stuck end.

Section Fifo.

(** Declared in headers that are not part of this file: the capacity of
    the client handler table (fhandler.h) and the two maps from platform
    error codes to [errno] values (errno.cc). *)
Variable MAX_CLIENTS : nat.
Variable geterrno_from_nt_status : NTSTATUS -> Z.
Variable geterrno_from_win_error : Z -> Z.

(** ** Locks and the shared segment *)

Definition owner_lock : M unit :=
  a ← ask (Ev_lock owner_lock_id);
  match a with
  | A_owner_locked None => mret tt
  | A_owner_locked (Some o) =>
      s ← get_shared; put_shared {| _owner := o; _nreaders := _nreaders s |}
  | _ => stuck
  end.
Definition owner_unlock : M unit := tell (Ev_unlock owner_lock_id).

Definition reader_lock : M unit :=
  a ← ask (Ev_lock reader_lock_id);
  match a with
  | A_reader_locked None => mret tt
  | A_reader_locked (Some n) =>
      s ← get_shared; put_shared {| _owner := _owner s; _nreaders := n |}
  | _ => stuck
  end.
Definition reader_unlock : M unit := tell (Ev_unlock reader_lock_id).

Definition fifo_client_lock : M unit :=
  a ← ask (Ev_lock fifo_client_lock_id);
  match a with
  | A_client_locked None => mret tt
  | A_client_locked (Some t) => upd_self (set_table t)
  | _ => stuck
  end.
Definition fifo_client_unlock : M unit := tell (Ev_unlock fifo_client_lock_id).

Definition get_owner : M fifo_reader_id_t := s ← get_shared; mret (_owner s).
Definition set_owner (fr_id : fifo_reader_id_t) : M unit :=
  s ← get_shared; put_shared {| _owner := fr_id; _nreaders := _nreaders s |}.
Definition get_nreaders : M Z := s ← get_shared; mret (_nreaders s).
Definition inc_nreaders : M Z :=
  s ← get_shared;
  put_shared {| _owner := _owner s; _nreaders := _nreaders s + 1 |};;
  mret (_nreaders s + 1).
Definition dec_nreaders : M Z :=
  s ← get_shared;
  put_shared {| _owner := _owner s; _nreaders := _nreaders s - 1 |};;
  mret (_nreaders s - 1).

(** ** Small helpers *)

Definition __seterrno : M unit :=
  code ← ask_dword Ev_GetLastError; set_errno (geterrno_from_win_error code).
Definition __seterrno_from_nt_status (status : NTSTATUS) : M unit :=
  set_errno (geterrno_from_nt_status status).

Definition has_flag (flags bit : Z) : bool := negb (Z.land flags bit =? 0).
Definition get_flags : M Z := f ← get_self; mret (openflags f).
Definition is_nonblocking : M bool := f ← get_self; mret (has_flag (openflags f) O_NONBLOCK).
Definition isclosed : M bool := ask_bool Ev_isclosed.
Definition get_handle : M HANDLE := f ← get_self; mret (io_handle f).

(** NtWriteFile and NtReadFile answer with the returned status and with
    the IO_STATUS_BLOCK as the code reads it afterwards.  The platform
    never reports more bytes than were asked for: a script that does so
    describes no execution. *)
Definition transfer_within (len : Z) (m : M (NTSTATUS * NTSTATUS * Z))
  : M (NTSTATUS * NTSTATUS * Z) :=
  '(status, io_Status, io_Information) ← m;
  if (0 <=? io_Information) && (io_Information <=? len)
  then mret (status, io_Status, io_Information)
  else stuck.
Definition NtWriteFile (hdl evt : HANDLE) (ptr len : Z) : M (NTSTATUS * NTSTATUS * Z) :=
  transfer_within len (ask_io (Ev_NtWriteFile hdl evt ptr len)).
Definition NtReadFile (hdl : HANDLE) (ptr len : Z) : M (NTSTATUS * NTSTATUS * Z) :=
  transfer_within len (ask_io (Ev_NtReadFile hdl ptr len)).

(** <<pthread::static_cancel_self ()>> never returns. *)
Definition static_cancel_self {A} : M A := thread_exit.

Definition arm (hdl : HANDLE) : M bool := ask_bool (Ev_SetEvent hdl).

Definition create_event : M HANDLE :=
  '(status, evt) ← ask_nt Ev_NtCreateEvent;
  (if negb (NT_SUCCESS status) then __seterrno_from_nt_status status else mret tt);;
  mret evt.

Definition set_pipe_non_blocking (ph : HANDLE) (nonblocking : bool) : M unit :=
  tell (Ev_NtSetInformationFile ph
          (if nonblocking then FILE_PIPE_COMPLETE_OPERATION else FILE_PIPE_QUEUE_OPERATION)).

(** The directory handle of the named pipe file system, cached after the
    first call. *)
Definition npfs_handle : M (NTSTATUS * HANDLE) := ask_nt Ev_npfs_handle.

(** Each pipe instance is created in blocking mode. *)
Definition create_pipe_instance (first : bool) : M HANDLE :=
  '(status, npfsh) ← npfs_handle;
  if negb (NT_SUCCESS status) then
    __seterrno_from_nt_status status;; mret NULL
  else
    let nonblocking := FILE_PIPE_QUEUE_OPERATION in
    '(status, ph) ← ask_nt (Ev_NtCreateNamedPipeFile
                              (if first then FILE_CREATE else FILE_OPEN) nonblocking);
    (if negb (NT_SUCCESS status) then __seterrno_from_nt_status status else mret tt);;
    mret ph.

(** Connect to a pipe instance; [ph] is the reference parameter. *)
Definition open_pipe (ph : HANDLE) : M (NTSTATUS * HANDLE) :=
  '(status, npfsh) ← npfs_handle;
  if negb (NT_SUCCESS status) then mret (status, ph)
  else ask_nt Ev_NtOpenFile.

(** ** Client handler table *)

(** <<fc_handler[i]>>; the array is never indexed out of its bounds by a
    run that starts with [nhandlers] at most its length. *)
Definition fc_at (f : fhandler_fifo) (i : nat) : fifo_client_handler :=
  default new_fifo_client_handler (fc_handler f !! i).
Definition get_fc_handle (f : fhandler_fifo) (i : nat) : HANDLE := h (fc_at f i).
Definition set_fc_state (i : nat) (st : fifo_client_connect_state) (f : fhandler_fifo)
  : fhandler_fifo :=
  set_fc_handler (<[i := {| h := h (fc_at f i); state := st |}]> (fc_handler f)) f.

(** <<memmove (a + dst, a + src, n * sizeof (a[0]))>> *)
Definition array_memmove {A} (a : list A) (dst src n : nat) : list A :=
  take dst a ++ take n (drop src a) ++ drop (dst + n) a.

Definition fifo_client_handler_close (fc : fifo_client_handler) : M unit :=
  tell (Ev_NtClose (h fc)).

Definition pipe_state (fc : fifo_client_handler) : M Z :=
  '(status, ReadDataAvailable, NamedPipeState) ← ask_pipe_info (Ev_NtQueryInformationFile (h fc));
  if negb (NT_SUCCESS status) then
    __seterrno_from_nt_status status;; mret (-1)
  else if 0 <? ReadDataAvailable then mret FILE_PIPE_INPUT_AVAILABLE_STATE
  else mret NamedPipeState.

Definition add_client_handler : M Z :=
  f ← get_self;
  let fc := new_fifo_client_handler in
  let first := (nhandlers f =? 0)%nat in
  if (nhandlers f =? MAX_CLIENTS)%nat then
    set_errno EMFILE;; mret (-1)
  else
    ph ← create_pipe_instance first;
    if ph =? NULL then mret (-1)
    else
      let fc := {| h := ph; state := state fc |} in
      upd_self (fun f => set_nhandlers (S (nhandlers f))
                           (set_fc_handler (<[nhandlers f := fc]> (fc_handler f)) f));;
      mret 0.

Definition delete_client_handler (i : nat) : M unit :=
  f ← get_self;
  fifo_client_handler_close (fc_at f i);;
  let n := Nat.pred (nhandlers f) in
  upd_self (set_nhandlers n);;
  if (i <? n)%nat then
    upd_self (fun f => set_fc_handler (array_memmove (fc_handler f) i (i + 1) (n - i)) f)
  else mret tt.

Definition record_connection (i : nat) : M unit :=
  f ← get_self;
  tell (Ev_SetEvent (write_ready f));;
  upd_self (set_fc_state i fc_connected);;
  upd_self (fun f => set_nconnected (nconnected f + 1) f);;
  set_pipe_non_blocking (get_fc_handle f i) true.

(** ** Listener thread *)

(** <<while (i < nhandlers) if (fc_handler[i].state == fc_invalid)
    delete_client_handler (i); else i++;>>  Every round either removes a
    handler or advances [i], so [nhandlers - i] rounds are left. *)
Fixpoint delete_invalid_clients (rounds : nat) (i : nat) : M unit :=
  match rounds with
  | O => mret tt
  | S rounds' =>
      f ← get_self;
      if is_fc_invalid (fc_at f i) then
        delete_client_handler i;; delete_invalid_clients rounds' i
      else delete_invalid_clients rounds' (S i)
  end.

Inductive loop_ctl := loop_continue | loop_canceled.

(** The label <<canceled>> of [thread_func]. *)
Definition thread_canceled (conn_evt : HANDLE) : M Z :=
  (if negb (conn_evt =? NULL) then tell (Ev_NtClose conn_evt) else mret tt);;
  tell Ev_auto_release;;
  mret 0.

(** What follows the listen on the new client handler [fc], the slot [i]. *)
Definition thread_listen (conn_evt : HANDLE) (i : nat) : M loop_ctl :=
  f ← get_self;
  tell (Ev_SetEvent (listening_evt f));;
  '(status, io_Status, _) ← ask_io (Ev_NtFsControlFile_LISTEN (get_fc_handle f i) conn_evt);
  waited ←
    (if status =? STATUS_PENDING then
       w ← ask_dword (Ev_WaitForMultipleObjects conn_evt (cancel_evt f));
       if w =? WAIT_OBJECT_0 then mret (Some io_Status)
       else if w =? WAIT_OBJECT_0 + 1 then mret (Some STATUS_THREAD_IS_TERMINATING)
       else mret None
     else mret (Some status));
  match waited with
  | None =>
      f ← get_self;
      delete_client_handler (nhandlers f - 1);;
      mret loop_continue
  | Some status =>
      fifo_client_lock;;
      cancel ←
        (if (status =? STATUS_SUCCESS) || (status =? STATUS_PIPE_CONNECTED) then
           record_connection i;;
           tell (Ev_ResetEvent conn_evt);;
           mret false
         else if status =? STATUS_THREAD_IS_TERMINATING then
           (* Force NtFsControlFile to complete. *)
           '(status, ph) ← open_pipe NULL;
           (if NT_SUCCESS status
               && (NT_SUCCESS io_Status || (io_Status =? STATUS_PIPE_CONNECTED)) then
              f ← get_self; delete_client_handler (nhandlers f - 1)
            else
              f ← get_self;
              ps ← pipe_state (fc_at f i);
              if (ps =? FILE_PIPE_CONNECTED_STATE) || (ps =? FILE_PIPE_INPUT_AVAILABLE_STATE)
              then record_connection i
              else f ← get_self; delete_client_handler (nhandlers f - 1));;
           (if negb (ph =? NULL) then tell (Ev_NtClose ph) else mret tt);;
           mret true
         else
           f ← get_self;
           delete_client_handler (nhandlers f - 1);;
           mret false);
      fifo_client_unlock;;
      f ← get_self;
      tell (Ev_ResetEvent (listening_evt f));;
      if cancel : bool then mret loop_canceled else mret loop_continue
  end.

(** One round of the <<while (1)>> of [thread_func]. *)
Definition thread_round (conn_evt : HANDLE) : M loop_ctl :=
  f ← get_self;
  owner_lock;;
  cur_owner ← get_owner;
  if negb (fr_id_nonempty cur_owner) then
    (* Has the owner been set yet? *)
    set_owner (me f);;
    owner_unlock;;
    mret loop_continue
  else if negb (fr_id_eqb cur_owner (me f)) then
    owner_unlock;;
    tell (Ev_WaitForSingleObject (cancel_evt f));;
    mret loop_canceled
  else
    (* I'm the owner.  Listen for client connections. *)
    owner_unlock;;
    fifo_client_lock;;
    f ← get_self;
    delete_invalid_clients (nhandlers f) 0;;
    r ← add_client_handler;
    if r <? 0 then
      fifo_client_unlock;;
      mret loop_canceled
    else
      f ← get_self;
      let i := (nhandlers f - 1)%nat in
      fifo_client_unlock;;
      thread_listen conn_evt i.

Fixpoint thread_loop (fuel : nat) (conn_evt : HANDLE) : M Z :=
  match fuel with
  | O => stuck
  | S fuel' =>
      c ← thread_round conn_evt;
      match c with
      | loop_continue => thread_loop fuel' conn_evt
      | loop_canceled => thread_canceled conn_evt
      end
  end.

(** Every round takes the owner lock, so a script of [n] answers covers
    at most [n] rounds. *)
Definition thread_func : M Z :=
  conn_evt ← create_event;
  if conn_evt =? NULL then thread_canceled conn_evt
  else n ← remaining; thread_loop (S n) conn_evt.

(** ** Read engine *)

(** One round of <<repeat:>> in [hit_eof]; [again] is the <<goto repeat>>. *)
Definition hit_eof_round (retry : bool) (again : M bool) : M bool :=
  fifo_client_lock;;
  f ← get_self;
  let eof := nconnected f =? 0 in
  fifo_client_unlock;;
  if eof && retry then
    (* retry = false; give the fifo_reader thread time to catch up. *)
    tell (Ev_Sleep 1);;
    again
  else mret eof.

(** The second round runs with <<retry == false>> and cannot jump back. *)
Definition hit_eof : M bool :=
  hit_eof_round true (hit_eof_round false stuck).

Inductive poll_result := poll_none | poll_data (nbytes : Z) | poll_errout.

(** <<for (int i = 0; i < nhandlers; i++) if (fc_handler[i].state ==
    fc_connected) ...>>, with [left] = [nhandlers - i] rounds to go.  The
    table lock is held on entry, and released on the two early exits. *)
Fixpoint poll_clients (left : nat) (i : nat) (in_ptr len : Z) : M poll_result :=
  match left with
  | O => mret poll_none
  | S left' =>
      f ← get_self;
      if is_fc_connected (fc_at f i) then
        '(status, _, io_Information) ←
          NtReadFile (get_fc_handle f i) in_ptr (to_ULONG len);
        if (status =? STATUS_SUCCESS) || (status =? STATUS_BUFFER_OVERFLOW) then
          let nbytes := io_Information in
          if 0 <? nbytes then
            fifo_client_unlock;;
            mret (poll_data nbytes)
          else poll_clients left' (S i) in_ptr len
        else if status =? STATUS_PIPE_EMPTY then
          poll_clients left' (S i) in_ptr len
        else if status =? STATUS_PIPE_BROKEN then
          (* Client has disconnected. *)
          upd_self (set_fc_state i fc_invalid);;
          upd_self (fun f => set_nconnected (nconnected f - 1) f);;
          poll_clients left' (S i) in_ptr len
        else
          __seterrno_from_nt_status status;;
          upd_self (set_fc_state i fc_invalid);;
          upd_self (fun f => set_nconnected (nconnected f - 1) f);;
          fifo_client_unlock;;
          mret poll_errout
      else poll_clients left' (S i) in_ptr len
  end.

(** The label <<errout>> of [raw_read]: <<len = (size_t) -1>>. *)
Definition raw_read_errout : M Z := mret (to_size_t (-1)).

(** The <<while (1)>> of [raw_read]; the result is the value left in the
    reference parameter [len]. *)
Fixpoint raw_read_loop (fuel : nat) (in_ptr len : Z) : M Z :=
  match fuel with
  | O => stuck
  | S fuel' =>
      eof ← hit_eof;
      if eof : bool then mret 0
      else
        (* Poll the connected clients for input. *)
        fifo_client_lock;;
        f ← get_self;
        r ← poll_clients (nhandlers f) 0 in_ptr len;
        match r with
        | poll_data nbytes => mret nbytes
        | poll_errout => raw_read_errout
        | poll_none =>
            fifo_client_unlock;;
            nb ← is_nonblocking;
            if nb : bool then
              set_errno EAGAIN;; raw_read_errout
            else
              (* Allow interruption. *)
              waitret ← ask_dword (Ev_cygwait NULL 0);
              if waitret =? WAIT_CANCELED then static_cancel_self
              else
                handled ←
                  (if waitret =? WAIT_SIGNALED then
                     b ← ask_bool Ev_call_signal_handler; mret (Some b)
                   else mret None);
                match handled with
                | Some true => raw_read_loop fuel' in_ptr len
                | Some false => set_errno EINTR;; raw_read_errout
                | None =>
                    (* We might have been closed by a signal handler or
                       another thread. *)
                    closed ← isclosed;
                    if closed : bool then set_errno EBADF;; raw_read_errout
                    else
                      (* Don't hog the CPU. *)
                      tell (Ev_Sleep 1);;
                      raw_read_loop fuel' in_ptr len
                end
        end
  end.

(** Every round of the loop takes the table lock. *)
Definition raw_read (in_ptr len : Z) : M Z :=
  if len =? 0 then mret len
  else
    f ← get_self;
    owner_lock;;
    o ← get_owner;
    if negb (fr_id_eqb o (me f)) then
      owner_unlock;;
      set_errno ENOTSUP;;
      raw_read_errout
    else
      owner_unlock;;
      n ← remaining;
      raw_read_loop (S n) in_ptr len.

(** ** Write engine *)

(** The local variables of [raw_write] that the loop reads and writes. *)
Record write_locals := {
  wl_ptr : Z;
  wl_len : Z;
  wl_nbytes : Z;
  wl_ret : Z;
  wl_status : NTSTATUS
}.

(** The length of the next chunk: <<left = len - nbytes; if (left > chunk)
    len1 = chunk; else len1 = (ULONG) left;>> *)
Definition write_len1 (chunk : Z) (L : write_locals) : Z :=
  let left := to_size_t (wl_len L - wl_nbytes L) in
  if chunk <? left then chunk else to_ULONG left.

(** The body of <<while (nbytes < len)>>. *)
Definition raw_write_chunk (evt : HANDLE) (chunk : Z) (L : write_locals) : M write_locals :=
  let len1 := write_len1 chunk L in
  hdl ← get_handle;
  '(status, io_Status, io_Information) ← NtWriteFile hdl evt (wl_ptr L) len1;
  '(waitret, status) ←
    (if negb (evt =? NULL) && (status =? STATUS_PENDING) then
       waitret ← ask_dword (Ev_cygwait evt INFINITE);
       mret (waitret, if waitret =? WAIT_OBJECT_0 then io_Status else status)
     else mret (WAIT_OBJECT_0, status));
  '(nbytes_now, ptr, nbytes, status) ←
    (if waitret =? WAIT_CANCELED then
       mret (0, wl_ptr L, wl_nbytes L, STATUS_THREAD_CANCELED)
     else if waitret =? WAIT_SIGNALED then
       mret (0, wl_ptr L, wl_nbytes L, STATUS_THREAD_SIGNALED)
     else
       closed ← isclosed;
       if closed : bool then
         (* A signal handler might have closed the fd. *)
         (if waitret =? WAIT_OBJECT_0 then set_errno EBADF else __seterrno);;
         mret (0, wl_ptr L, wl_nbytes L, status)
       else if NT_SUCCESS status then
         let nbytes_now := io_Information in
         (if nbytes_now =? 0 then set_errno EAGAIN else mret tt);;
         mret (nbytes_now, wl_ptr L + chunk, to_size_t (wl_nbytes L + nbytes_now), status)
       else if STATUS_PIPE_IS_CLOSED status then
         set_errno EPIPE;;
         tell (Ev_raise SIGPIPE);;
         mret (0, wl_ptr L, wl_nbytes L, status)
       else
         __seterrno_from_nt_status status;;
         mret (0, wl_ptr L, wl_nbytes L, status));
  let len := if nbytes_now =? 0 then 0 (* Terminate loop. *) else wl_len L in
  let ret := if 0 <? nbytes then to_ssize_t nbytes else wl_ret L in
  mret {| wl_ptr := ptr; wl_len := len; wl_nbytes := nbytes; wl_ret := ret;
          wl_status := status |}.

Fixpoint raw_write_loop (fuel : nat) (evt : HANDLE) (chunk : Z) (L : write_locals)
  : M write_locals :=
  if wl_nbytes L <? wl_len L then
    match fuel with
    | O => stuck
    | S fuel' => L' ← raw_write_chunk evt chunk L; raw_write_loop fuel' evt chunk L'
    end
  else mret L.

(** What [raw_write] does with its locals once the loop is left. *)
Definition raw_write_return (evt : HANDLE) (L : write_locals) : M Z :=
  (if negb (evt =? NULL) then tell (Ev_NtClose evt) else mret tt);;
  if (wl_status L =? STATUS_THREAD_SIGNALED) && (wl_ret L <? 0) then
    set_errno EINTR;; mret (wl_ret L)
  else if wl_status L =? STATUS_THREAD_CANCELED then static_cancel_self
  else mret (wl_ret L).

(** The chunk size and the length to write, from the requested length. *)
Definition raw_write_chunking (f : fhandler_fifo) (nonblocking : bool) (len : Z) : Z * Z :=
  if len <=? max_atomic_write f then (to_ULONG len, len)
  else if nonblocking then (to_ULONG (max_atomic_write f), max_atomic_write f)
  else (to_ULONG (max_atomic_write f), len).

Definition raw_write_start (ptr len : Z) : write_locals :=
  {| wl_ptr := ptr; wl_len := len; wl_nbytes := 0; wl_ret := -1;
     wl_status := STATUS_SUCCESS |}.

(** [raw_write] up to the end of its loop: [None] when the wait event
    could not be created, else the event and the locals the loop leaves.
    Every round of the loop calls NtWriteFile. *)
Definition raw_write_transfer (ptr len : Z) : M (option (HANDLE * write_locals)) :=
  f ← get_self;
  nb ← is_nonblocking;
  let '(chunk, len) := raw_write_chunking f nb len in
  (* Create a wait event if the FIFO is in blocking mode. *)
  evt ← (if negb nb then ask_handle (Ev_CreateEvent false None) else mret NULL);
  if negb nb && (evt =? NULL) then
    __seterrno;; mret None
  else
    n ← remaining;
    L ← raw_write_loop (S n) evt chunk (raw_write_start ptr len);
    mret (Some (evt, L)).

Definition raw_write (ptr len : Z) : M Z :=
  if len =? 0 then mret 0
  else
    t ← raw_write_transfer ptr len;
    match t with
    | None => mret (-1)
    | Some (evt, L) => raw_write_return evt L
    end.

(** ** Endpoint lifecycle *)

(** The first character of the event names <<r-event.%08x.%016X>> and
    <<w-event.%08x.%016X>>. *)
Definition r_event : Z := 114.
Definition w_event : Z := 119.

Definition create_shmem : M Z :=
  '(status, sect) ← ask_nt Ev_NtCreateSection;
  '(status, sect) ←
    (if status =? STATUS_OBJECT_NAME_COLLISION then ask_nt Ev_NtOpenSection
     else mret (status, sect));
  if negb (NT_SUCCESS status) then
    __seterrno_from_nt_status status;; mret (-1)
  else
    '(status, addr) ← ask_nt Ev_NtMapViewOfSection;
    if negb (NT_SUCCESS status) then
      tell (Ev_NtClose sect);;
      __seterrno_from_nt_status status;;
      mret (-1)
    else
      upd_self (set_shmem_handle sect);;
      upd_self (set_shmem addr);;
      mret 0.

Definition wait (hdl : HANDLE) : M bool :=
  f ← get_self;
  (* Set the wait to zero for non-blocking I/O-related events. *)
  let wait := if ((hdl =? read_ready f) || (hdl =? write_ready f))
                 && has_flag (openflags f) O_NONBLOCK then 0 else INFINITE in
  r ← ask_dword (Ev_cygwait hdl wait);
  if r =? WAIT_OBJECT_0 then mret true
  else if r =? WAIT_SIGNALED then set_errno EINTR;; mret false
  else if r =? WAIT_CANCELED then static_cancel_self (* never returns *)
  else if r =? WAIT_TIMEOUT then
    if hdl =? write_ready f then mret true
    else set_errno ENXIO;; mret false
  else __seterrno;; mret false.

Definition cancel_reader_thread : M unit :=
  f ← get_self;
  (if negb (cancel_evt f =? NULL) then tell (Ev_SetEvent (cancel_evt f)) else mret tt);;
  if negb (sync_thr f =? NULL) then
    tell (Ev_WaitForSingleObject (sync_thr f));;
    tell (Ev_NtClose (sync_thr f))
  else mret tt.

(** The error labels of [open], last first; each falls through to the next. *)
Definition open_err : M Z :=
  hdl ← get_handle;
  (if negb (hdl =? NULL) then tell (Ev_NtClose hdl) else mret tt);;
  mret 0.
Definition open_err_close_read_ready : M Z :=
  f ← get_self; tell (Ev_NtClose (read_ready f));; open_err.
Definition open_err_close_write_ready : M Z :=
  f ← get_self; tell (Ev_NtClose (write_ready f));; open_err_close_read_ready.
Definition open_err_close_shmem : M Z :=
  f ← get_self;
  tell (Ev_NtUnmapViewOfSection (shmem f));;
  tell (Ev_NtClose (shmem_handle f));;
  open_err_close_write_ready.
Definition open_err_close_listening_evt : M Z :=
  f ← get_self; tell (Ev_NtClose (listening_evt f));; open_err_close_shmem.
Definition open_err_close_cancel_evt : M Z :=
  f ← get_self; tell (Ev_NtClose (cancel_evt f));; open_err_close_listening_evt.
Definition open_err_cancel_frt : M Z :=
  cancel_reader_thread;;
  reader_lock;;
  n ← get_nreaders;
  f ← get_self;
  (if n =? 0 then tell (Ev_ResetEvent (read_ready f)) else mret tt);;
  reader_unlock;;
  tell (Ev_NtClose (sync_thr f));;
  open_err_close_cancel_evt.

(** <<if (reader) { ... }>> of [open]. *)
Definition open_reader (flags : Z) : M Z :=
  f ← get_self;
  armed ← arm (read_ready f);
  if negb armed then __seterrno;; open_err_close_write_ready
  else
    r ← create_shmem;
    if r <? 0 then open_err_close_write_ready
    else
      evt ← create_event;
      upd_self (set_listening_evt evt);;
      if evt =? NULL then open_err_close_shmem
      else
        evt ← create_event;
        upd_self (set_cancel_evt evt);;
        if evt =? NULL then open_err_close_listening_evt
        else
          evt ← create_event;
          upd_self (set_sync_thr evt);;
          if evt =? NULL then open_err_close_cancel_evt
          else
            pid ← ask_dword Ev_GetCurrentProcessId;
            upd_self (fun f => set_me {| winpid := pid; fh := this f |} f);;
            tell (Ev_new_cygthread evt);;
            reader_lock;;
            n ← get_nreaders;
            if 0 <? n then
              set_errno ENOTSUP;;
              reader_unlock;;
              open_err_cancel_frt
            else
              reader_unlock;;
              f ← get_self;
              ok ←
                (if duplexer f then
                   (* If we're a duplexer, we need a handle for writing. *)
                   tell (Ev_WaitForSingleObject (listening_evt f));;
                   '(status, ph) ← open_pipe NULL;
                   if NT_SUCCESS status then
                     upd_self (set_io_handle ph);;
                     set_pipe_non_blocking ph (has_flag flags O_NONBLOCK);;
                     mret true
                   else
                     __seterrno_from_nt_status status;; mret false
                 else
                   (* Not a duplexer; wait for a writer to connect. *)
                   wait (write_ready f));
              if negb ok then open_err_cancel_frt
              else
                reader_lock;;
                inc_nreaders;;
                reader_unlock;;
                mret 1.

(** <<if (writer) { while (1) ... }>> of [open]. *)
Fixpoint open_writer (fuel : nat) (flags : Z) : M Z :=
  match fuel with
  | O => stuck
  | S fuel' =>
      f ← get_self;
      ok ← wait (read_ready f);
      if negb ok then open_err_close_write_ready
      else
        tell (Ev_WaitForSingleObject (listening_evt f));;
        '(status, ph) ← open_pipe (io_handle f);
        upd_self (set_io_handle ph);;
        if NT_SUCCESS status then
          set_pipe_non_blocking ph (has_flag flags O_NONBLOCK);;
          armed ← arm (write_ready f);
          if negb armed then __seterrno;; open_err_close_write_ready
          else mret 1
        else if STATUS_PIPE_NO_INSTANCE_AVAILABLE status then
          tell (Ev_Sleep 1);;
          open_writer fuel' flags
        else
          __seterrno_from_nt_status status;;
          open_err_close_write_ready
  end.

Definition open (flags : Z) : M Z :=
  if has_flag flags O_PATH then ask_int (Ev_open_fs flags)
  else
    (* Determine what we're doing with this fhandler: reading, writing, both *)
    let acc := Z.land flags O_ACCMODE in
    known ←
      (if acc =? O_RDONLY then upd_self (set_reader true);; mret true
       else if acc =? O_WRONLY then upd_self (set_writer true);; mret true
       else if acc =? O_RDWR then
         upd_self (set_reader true);; upd_self (set_duplexer true);; mret true
       else set_errno EINVAL;; mret false);
    if negb known then open_err
    else
      upd_self (set_openflags flags);;
      f ← get_self;
      (if reader f && negb (duplexer f) then upd_self (set_nohandle true) else mret tt);;
      (* Create control events for this named pipe *)
      evt ← ask_handle (Ev_CreateEvent true (Some r_event));
      upd_self (set_read_ready evt);;
      if evt =? NULL then __seterrno;; open_err
      else
        evt ← ask_handle (Ev_CreateEvent true (Some w_event));
        upd_self (set_write_ready evt);;
        if evt =? NULL then __seterrno;; open_err_close_read_ready
        else if reader f then open_reader flags
        else if writer f then n ← remaining; open_writer (S n) flags
        else mret 1.

(** <<for (int i = 0; i < nhandlers; i++) fc_handler[i].close ();>> *)
Fixpoint close_client_handlers (left : nat) (i : nat) : M unit :=
  match left with
  | O => mret tt
  | S left' =>
      f ← get_self;
      fifo_client_handler_close (fc_at f i);;
      close_client_handlers left' (S i)
  end.

Definition close : M Z :=
  f ← get_self;
  (if reader f then
     cancel_reader_thread;;
     (if negb (cancel_evt f =? NULL) then tell (Ev_NtClose (cancel_evt f)) else mret tt);;
     fifo_client_lock;;
     f' ← get_self;
     close_client_handlers (nhandlers f') 0;;
     fifo_client_unlock;;
     reader_lock;;
     (if negb (read_ready f =? NULL) then
        n ← dec_nreaders;
        if n =? 0 then tell (Ev_ResetEvent (read_ready f)) else mret tt
      else mret tt);;
     reader_unlock;;
     owner_lock;;
     o ← get_owner;
     (if fr_id_eqb o (me f) then set_owner null_fr_id else mret tt);;
     owner_unlock;;
     (if negb (shmem f =? 0) then tell (Ev_NtUnmapViewOfSection (shmem f)) else mret tt);;
     (if negb (shmem_handle f =? NULL) then tell (Ev_NtClose (shmem_handle f)) else mret tt)
   else mret tt);;
  (if negb (read_ready f =? NULL) then tell (Ev_NtClose (read_ready f)) else mret tt);;
  (if negb (write_ready f =? NULL) then tell (Ev_NtClose (write_ready f)) else mret tt);;
  ask_int Ev_fhandler_base_close.


(** ** Vocabulary of the statements *)

(** What holds after a call: [Q] of the result and the world when it
    returns, [E] of the world when the thread is cancelled inside it. *)
Definition after {A} (m : M A) (w : world) (Q : A -> world -> Prop) (E : world -> Prop)
  : Prop :=
  match m w with
  | Done a w' => Q a w'
  | Exit w' => E w'
  | Stuck => True
  end.

(** The relation the loop of [raw_write] keeps between its locals: the
    count of bytes written and the length fit [ssize_t], and [ret] is the
    count once it is positive, -1 before. *)
Definition write_inv (L : write_locals) : Prop :=
  0 <= wl_nbytes L <= SSIZE_MAX /\ wl_len L <= SSIZE_MAX
  /\ wl_ret L = (if 0 <? wl_nbytes L then wl_nbytes L else -1).

(** What another endpoint has written into the owner record by the time
    this endpoint next takes the owner lock, if any has; [owner_seen] is
    the record the endpoint finds then. *)
Fixpoint next_owner_answer (s : list answer) : option fifo_reader_id_t :=
  match s with
  | [] => None
  | A_owner_locked seen :: _ => seen
  | _ :: s' => next_owner_answer s'
  end.
Definition owner_seen (w : world) : fifo_reader_id_t :=
  default (_owner (shared w)) (next_owner_answer (script w)).

(** The owner record is [o], and [s] is what the others write next. *)
Definition undisturbed (o : fifo_reader_id_t) (s : option fifo_reader_id_t) (w : world)
  : Prop :=
  _owner (shared w) = o /\ next_owner_answer (script w) = s.

(** A call that leaves the owner record alone: it neither writes the
    record nor takes the owner lock. *)
Definition keeps_owner {A} (m : M A) : Prop :=
  forall o s w, undisturbed o s w ->
    after m w (fun _ w' => undisturbed o s w') (undisturbed o s).

(** What the endpoint [me] may do to the owner record: nothing, write
    its own identity into an empty record, or clear a record that holds
    its identity. *)
Definition owner_step (me o o' : fifo_reader_id_t) : Prop :=
  o' = o
  \/ (fr_id_nonempty o = false /\ o' = me)
  \/ (fr_id_eqb o me = true /\ o' = null_fr_id).

(** The call returns, and [Q] holds of its result and of the world then. *)
Definition returns {A} (m : M A) (w : world) (Q : A -> world -> Prop) : Prop :=
  match m w with
  | Done a w' => Q a w'
  | _ => False
  end.

(** ** Scenarios *)

(** Two reader identities, and the endpoints of the scenarios: a reader
    with its events, shared memory view and listener thread, a writer with
    its pipe handle, and an endpoint as the constructor leaves it. *)
Definition reader_a : fifo_reader_id_t := {| winpid := 100; fh := 1 |}.
Definition reader_b : fifo_reader_id_t := {| winpid := 200; fh := 2 |}.

Definition sample_reader : fhandler_fifo :=
  {| this := 1; openflags := O_RDONLY; io_handle := NULL; nohandle_ := true;
     read_ready := 11; write_ready := 12; listening_evt := 13; cancel_evt := 14;
     sync_thr := 15; nhandlers := 0; fc_handler := []; nconnected := 0;
     reader := true; writer := false; duplexer := false; max_atomic_write := 65536;
     shmem_handle := 16; shmem := 17; me := reader_a |}.

Definition sample_writer : fhandler_fifo :=
  {| this := 3; openflags := O_WRONLY; io_handle := 5; nohandle_ := false;
     read_ready := 11; write_ready := 12; listening_evt := NULL; cancel_evt := NULL;
     sync_thr := NULL; nhandlers := 0; fc_handler := []; nconnected := 0;
     reader := false; writer := true; duplexer := false; max_atomic_write := 65536;
     shmem_handle := NULL; shmem := NULL; me := null_fr_id |}.

Definition fresh_endpoint : fhandler_fifo :=
  {| this := 2; openflags := 0; io_handle := NULL; nohandle_ := false;
     read_ready := NULL; write_ready := NULL; listening_evt := NULL; cancel_evt := NULL;
     sync_thr := NULL; nhandlers := 0; fc_handler := []; nconnected := 0;
     reader := false; writer := false; duplexer := false; max_atomic_write := 65536;
     shmem_handle := NULL; shmem := NULL; me := null_fr_id |}.

(** The reader with two connected writers, a full table when MAX_CLIENTS is 2. *)
Definition two_writers : list fifo_client_handler :=
  [ {| h := 21; state := fc_connected |}; {| h := 22; state := fc_connected |} ].
Definition full_reader : fhandler_fifo :=
  set_nconnected 2 (set_fc_handler two_writers (set_nhandlers 2 sample_reader)).

(** The reader with one pipe instance that listens for a writer. *)
Definition listening_reader : fhandler_fifo :=
  set_fc_handler [ {| h := 21; state := fc_listening |} ] (set_nhandlers 1 sample_reader).

(** A world at the start of a call: the endpoint, the shared segment and
    what the platform will answer. *)
Definition world_of (f : fhandler_fifo) (owner : fifo_reader_id_t) (nreaders : Z)
    (answers : list answer) : world :=
  {| self := f; shared := {| _owner := owner; _nreaders := nreaders |};
     errno := 0; script := answers; trace := [] |}.

(** A translation of statuses and error codes to errno values for the
    scenarios: everything is an I/O error. *)
Definition EIO : Z := 5.
Definition errno_io (code : Z) : Z := EIO.

(** ** The table of client handlers as a list *)

(** The entries of the table that are in use, and how many of them are
    connected. *)
Definition handlers (f : fhandler_fifo) : list fifo_client_handler :=
  take (nhandlers f) (fc_handler f).
Definition count_connected (l : list fifo_client_handler) : Z :=
  Z.of_nat (length (List.filter is_fc_connected l)).

(** [nconnected] counts the connected entries. *)
Definition table_counted (f : fhandler_fifo) : Prop :=
  nconnected f = count_connected (handlers f).

(** The entries in use lie in the array. *)
Definition table_in_bounds (f : fhandler_fifo) : Prop :=
  (nhandlers f <= length (fc_handler f))%nat.

(** A table that the other thread of the endpoint leaves behind when it
    releases the table lock is in bounds and counted as well. *)
Definition table_ok (f : fhandler_fifo) : Prop := table_in_bounds f /\ table_counted f.
Definition answer_table_ok (a : answer) : Prop :=
  match a with
  | A_client_locked (Some t) =>
      (t_nhandlers t <= length (t_fc_handler t))%nat
      /\ t_nconnected t = count_connected (take (t_nhandlers t) (t_fc_handler t))
  | _ => True
  end.
Definition tables_ok (w : world) : Prop :=
  table_ok (self w) /\ Forall answer_table_ok (script w).

(** A call that keeps the table in bounds and counted. *)
Definition keeps_tables {A} (m : M A) : Prop :=
  forall w, tables_ok w -> after m w (fun _ w' => tables_ok w') tables_ok.

(** ** Polling the clients *)

(** An answer to NtReadFile that brings no data: the pipe is empty, or
    the read succeeds with zero bytes. *)
Definition no_data_answer (a : answer) : bool :=
  match a with
  | A_io st _ inf =>
      (inf =? 0)
      && ((st =? STATUS_PIPE_EMPTY) || (st =? STATUS_SUCCESS)
          || (st =? STATUS_BUFFER_OVERFLOW))
  | _ => false
  end.

(** The connected entries among the [k] entries from [i] on, which a read
    polls in this order, and the calls that poll them. *)
Definition connected_from (f : fhandler_fifo) (i k : nat) : list fifo_client_handler :=
  List.filter is_fc_connected (take k (drop i (handlers f))).
Definition polls (in_ptr len : Z) (l : list fifo_client_handler) : list event :=
  map (fun fc => Ev_NtReadFile (h fc) in_ptr (to_ULONG len)) l.

(** The world when the calls [evs] have been made and [rest] is left of
    the script. *)
Definition moved_on (w : world) (rest : list answer) (evs : list event) : world :=
  {| self := self w; shared := shared w; errno := errno w; script := rest;
     trace := trace w ++ evs |}.

(** The endpoint when the client in the entry [j] has been found gone. *)
Definition client_gone (j : nat) (f : fhandler_fifo) : fhandler_fifo :=
  set_nconnected (nconnected f - 1) (set_fc_state j fc_invalid f).

(** ** Writing in chunks *)

(** What the loop of [raw_write] keeps of a write of at most [len0]
    bytes: the count of bytes written is within the request, and [ret] is
    the count once it is positive. *)
Definition write_within (len0 : Z) (L : write_locals) : Prop :=
  0 <= wl_nbytes L
  /\ (wl_nbytes L = 0 \/ wl_nbytes L <= len0)
  /\ (wl_len L = len0 \/ wl_len L = 0)
  /\ wl_ret L = (if 0 <? wl_nbytes L then wl_nbytes L else -1).

(** The calls of [k] chunks of [chunk] bytes from [ptr] on, and the
    answers when each of them is transferred in full at once. *)
Fixpoint full_chunk_calls (hdl evt ptr chunk : Z) (k : nat) : list event :=
  match k with
  | O => []
  | S k' =>
      Ev_NtWriteFile hdl evt ptr chunk :: Ev_isclosed
      :: full_chunk_calls hdl evt (ptr + chunk) chunk k'
  end.
Fixpoint full_chunk_answers (chunk : Z) (k : nat) : list answer :=
  match k with
  | O => []
  | S k' => A_io STATUS_SUCCESS STATUS_SUCCESS chunk :: A_bool false
            :: full_chunk_answers chunk k'
  end.

(** The locals of the write loop when [k] chunks of [chunk] bytes have
    been written in full. *)
Definition after_full_chunks (chunk : Z) (k : nat) (L : write_locals) : write_locals :=
  match k with
  | O => L
  | S _ =>
      {| wl_ptr := wl_ptr L + Z.of_nat k * chunk;
         wl_len := wl_len L;
         wl_nbytes := wl_nbytes L + Z.of_nat k * chunk;
         wl_ret := wl_nbytes L + Z.of_nat k * chunk;
         wl_status := STATUS_SUCCESS |}
  end.


(** One attempt of a writer to connect to a pipe instance: the wait for a
    reader with time-out [t], the wait for the listener, and the two
    calls of [open_pipe]. *)
Definition open_attempt (rr le t : Z) : list event :=
  [Ev_cygwait rr t; Ev_WaitForSingleObject le; Ev_npfs_handle; Ev_NtOpenFile].
(** [k] attempts that find every pipe instance busy, each followed by a
    sleep of one millisecond. *)
Fixpoint busy_attempts (rr le t : Z) (k : nat) : list event :=
  match k with
  | O => []
  | S k' => open_attempt rr le t ++ Ev_Sleep 1 :: busy_attempts rr le t k'
  end.
(** The answers to such attempts: [busy] lists what NtOpenFile returned. *)
Fixpoint busy_answers (npfsh : HANDLE) (busy : list (NTSTATUS * HANDLE)) : list answer :=
  match busy with
  | [] => []
  | (st, ph) :: busy' =>
      A_dword WAIT_OBJECT_0 :: A_nt STATUS_SUCCESS npfsh :: A_nt st ph
      :: busy_answers npfsh busy'
  end.

(** ** Further scenarios *)

(** A reader whose table has room for four pipe instances and holds
    three: two connected writers and, between them, one that has gone. *)
Definition busy_table : list fifo_client_handler :=
  [ {| h := 21; state := fc_connected |}; {| h := 22; state := fc_invalid |};
    {| h := 23; state := fc_connected |}; new_fifo_client_handler ].
Definition busy_reader : fhandler_fifo :=
  set_nconnected 2 (set_fc_handler busy_table (set_nhandlers 3 sample_reader)).

(** The reader with one connected writer. *)
Definition one_writer_reader : fhandler_fifo :=
  set_nconnected 1
    (set_fc_handler [ {| h := 21; state := fc_connected |} ] (set_nhandlers 1 sample_reader)).

(** An endpoint in non-blocking mode. *)
Definition nonblocking (f : fhandler_fifo) : fhandler_fifo :=
  set_openflags (Z.lor (openflags f) O_NONBLOCK) f.

(** A writer on a pipe that takes ten bytes at a time. *)
Definition narrow_writer : fhandler_fifo :=
  {| this := 3; openflags := O_WRONLY; io_handle := 5; nohandle_ := false;
     read_ready := 11; write_ready := 12; listening_evt := NULL; cancel_evt := NULL;
     sync_thr := NULL; nhandlers := 0; fc_handler := []; nconnected := 0;
     reader := false; writer := true; duplexer := false; max_atomic_write := 10;
     shmem_handle := NULL; shmem := NULL; me := null_fr_id |}.

(** ** How the chunks of a write end *)






(** ** A second reader *)

(** The endpoint of process 200 as its [open] for reading has set it up
    when it starts the listener thread: the events, the view of the shared
    segment and its identity [reader_b] are in place. *)
Definition second_reader : fhandler_fifo :=
  {| this := 2; openflags := 0; io_handle := NULL; nohandle_ := true;
     read_ready := 11; write_ready := 12; listening_evt := 13; cancel_evt := 14;
     sync_thr := 15; nhandlers := 0; fc_handler := []; nconnected := 0;
     reader := true; writer := false; duplexer := false; max_atomic_write := 65536;
     shmem_handle := 16; shmem := 17; me := reader_b |}.
(** * Proofs *)

Ltac unfold_monad :=
  unfold mbind, M_bind, bind, mret, M_ret, ret, stuck, thread_exit, static_cancel_self,
    get_self, upd_self, get_shared, put_shared, set_errno, remaining, tell, ask, logged.

(** Worlds are taken apart once, so that every step leaves a flat record. *)
Ltac open_world w :=
  let f := fresh "f" in let sh := fresh "sh" in let e := fresh "e" in
  let sc := fresh "sc" in let tr := fresh "tr" in
  destruct w as [f sh e sc tr]; simpl in *; subst.

Ltac flat :=
  cbv beta iota delta [with_self with_shared with_errno with_script with_trace logged
                       self shared errno script trace].

Ltac done_with :=
  eexists; split; [reflexivity|]; simpl; rewrite <- ?app_assoc; auto.

Lemma table_of_set_table t f : table_of (set_table t f) = t.
Proof. destruct t; reflexivity. Qed.

(** ** Read engine *)

(** C10.  A read of length zero returns at once with length zero: the
    world is left as it was, so [errno] is untouched (no failure, also for
    an endpoint that is not the owner), no lock is taken and no answer is
    used (the owner record and the client handler table are not looked
    at), and nothing is sampled for end-of-file. *)
Theorem raw_read_zero_length in_ptr w : raw_read in_ptr 0 w = Done 0 w.
Proof.
  unfold raw_read. rewrite Z.eqb_refl.
  reflexivity.
Qed.

(** C3, for a read of non-zero length.  Such a read on an endpoint that
    is not the owner fails with ENOTSUP: [len] is set to <<(size_t) -1>>,
    and between taking and releasing the owner lock nothing else is done,
    so no client handler is read. *)
Theorem raw_read_not_owner in_ptr len w seen rest :
  len <> 0 ->
  script w = A_owner_locked seen :: rest ->
  fr_id_eqb (default (_owner (shared w)) seen) (me (self w)) = false ->
  exists w', raw_read in_ptr len w = Done (to_size_t (-1)) w'
    /\ errno w' = ENOTSUP
    /\ trace w' = trace w ++ [Ev_lock owner_lock_id; Ev_unlock owner_lock_id]
    /\ self w' = self w
    /\ script w' = rest.
Proof.
  intros Hlen Hs Ho. open_world w.
  unfold raw_read. rewrite (proj2 (Z.eqb_neq _ _) Hlen).
  unfold owner_lock, get_owner, owner_unlock, raw_read_errout. unfold_monad.
  destruct seen as [o|]; simpl in *; rewrite Ho; simpl; done_with.
Qed.

(** [hit_eof] when the first sample of [nconnected] is zero: one delay,
    one more sample, and the answer is whether that one is zero as well. *)
Lemma hit_eof_first_sample_zero w t1 t2 rest :
  script w = A_client_locked t1 :: A_client_locked t2 :: rest ->
  t_nconnected (default (table_of (self w)) t1) = 0 ->
  exists w', hit_eof w =
      Done (t_nconnected (default (default (table_of (self w)) t1) t2) =? 0) w'
    /\ trace w' = trace w ++ [Ev_lock fifo_client_lock_id; Ev_unlock fifo_client_lock_id;
                              Ev_Sleep 1;
                              Ev_lock fifo_client_lock_id; Ev_unlock fifo_client_lock_id]
    /\ script w' = rest
    /\ table_of (self w') = default (default (table_of (self w)) t1) t2
    /\ errno w' = errno w /\ shared w' = shared w.
Proof.
  intros Hs H1. open_world w.
  unfold hit_eof, hit_eof_round, fifo_client_lock, fifo_client_unlock. unfold_monad.
  destruct t1 as [t1|], t2 as [t2|]; simpl in *; flat; simpl;
    rewrite ?H1; simpl; rewrite ?H1, ?andb_false_r; done_with;
    repeat split; auto using table_of_set_table.
Qed.

(** [hit_eof] when the first sample is not zero: no delay, no second sample. *)
Lemma hit_eof_first_sample_nonzero w t1 rest :
  script w = A_client_locked t1 :: rest ->
  t_nconnected (default (table_of (self w)) t1) <> 0 ->
  exists w', hit_eof w = Done false w'
    /\ trace w' = trace w ++ [Ev_lock fifo_client_lock_id; Ev_unlock fifo_client_lock_id]
    /\ script w' = rest.
Proof.
  intros Hs H1. open_world w.
  unfold hit_eof, hit_eof_round, fifo_client_lock, fifo_client_unlock. unfold_monad.
  destruct t1 as [t1|]; simpl in *; flat; simpl;
    rewrite (proj2 (Z.eqb_neq _ _) H1); simpl; done_with.
Qed.

(** C2.  In any round of the read loop, and so in the first round of a
    read by the owner: when the count of connected writers sampled under
    the table lock is zero, it is sampled once more after one delay, and
    when it is zero again the read returns 0 bytes and leaves [errno]
    alone. *)
Theorem raw_read_eof_when_no_writer in_ptr len w t1 t2 rest :
  let table1 := default (table_of (self w)) t1 in
  let table2 := default table1 t2 in
  t_nconnected table1 = 0 ->
  t_nconnected table2 = 0 ->
  (forall fuel,
      script w = A_client_locked t1 :: A_client_locked t2 :: rest ->
      exists w', raw_read_loop (S fuel) in_ptr len w = Done 0 w'
        /\ errno w' = errno w
        /\ trace w' = trace w ++
             [Ev_lock fifo_client_lock_id; Ev_unlock fifo_client_lock_id;
              Ev_Sleep 1;
              Ev_lock fifo_client_lock_id; Ev_unlock fifo_client_lock_id]
        /\ script w' = rest)
  /\ (forall seen,
        len <> 0 ->
        script w = A_owner_locked seen :: A_client_locked t1 :: A_client_locked t2 :: rest ->
        fr_id_eqb (default (_owner (shared w)) seen) (me (self w)) = true ->
        exists w', raw_read in_ptr len w = Done 0 w'
          /\ errno w' = errno w
          /\ trace w' = trace w ++
               [Ev_lock owner_lock_id; Ev_unlock owner_lock_id;
                Ev_lock fifo_client_lock_id; Ev_unlock fifo_client_lock_id;
                Ev_Sleep 1;
                Ev_lock fifo_client_lock_id; Ev_unlock fifo_client_lock_id]
          /\ script w' = rest).
Proof.
  intros table1 table2 H1 H2.
  assert (Hloop : forall fuel w1, self w1 = self w ->
            script w1 = A_client_locked t1 :: A_client_locked t2 :: rest ->
            exists w', raw_read_loop (S fuel) in_ptr len w1 = Done 0 w'
              /\ errno w' = errno w1
              /\ trace w' = trace w1 ++
                   [Ev_lock fifo_client_lock_id; Ev_unlock fifo_client_lock_id;
                    Ev_Sleep 1;
                    Ev_lock fifo_client_lock_id; Ev_unlock fifo_client_lock_id]
              /\ script w' = rest).
  { intros fuel w1 Hf Hsc.
    destruct (hit_eof_first_sample_zero w1 t1 t2 rest) as (w' & He & Ht & Hr & _ & Hn & _).
    - exact Hsc.
    - rewrite Hf. exact H1.
    - cbn [raw_read_loop]. unfold mbind, M_bind, bind. rewrite He, Hf.
      fold table1 table2. rewrite H2. simpl.
      exists w'. auto. }
  split.
  - intros fuel Hs. apply Hloop; auto.
  - intros seen Hlen Hs Ho.
    unfold raw_read. rewrite (proj2 (Z.eqb_neq _ _) Hlen).
    unfold owner_lock, get_owner, owner_unlock, remaining.
    unfold mbind, M_bind, bind, get_self, get_shared, put_shared, tell, ask, logged, mret,
      M_ret, ret.
    rewrite Hs.
    destruct seen as [o|]; cbn -[raw_read_loop] in Ho |- *; rewrite Ho; cbn -[raw_read_loop];
      match goal with |- context [raw_read_loop (S ?n) _ _ ?w1] =>
        destruct (Hloop n w1) as (w' & He & Herr & Ht & Hr); [reflexivity| reflexivity |]
      end;
      exists w'; rewrite He; simpl in Herr, Ht; rewrite Ht, <- !app_assoc; auto.
Qed.

(** ** Client handler table and listener thread *)

Lemma add_client_handler_full w :
  nhandlers (self w) = MAX_CLIENTS ->
  add_client_handler w = Done (-1) (with_errno EMFILE w).
Proof.
  intros H. unfold add_client_handler. unfold_monad.
  rewrite H, Nat.eqb_refl. reflexivity.
Qed.

Lemma delete_invalid_clients_none rounds : forall i w,
  (forall j, (i <= j < i + rounds)%nat -> is_fc_invalid (fc_at (self w) j) = false) ->
  delete_invalid_clients rounds i w = Done tt w.
Proof.
  induction rounds as [|rounds IH]; intros i w H; [reflexivity|].
  cbn [delete_invalid_clients]. unfold mbind, M_bind, bind, get_self.
  rewrite H by lia. apply IH. intros j Hj. apply H. lia.
Qed.

(** C7, with the mode the code asks for.  Recording a connection arms
    [write_ready], marks the handler connected, counts it, and asks the
    platform to put the pipe instance into non-blocking mode
    (FILE_PIPE_COMPLETE_OPERATION), whatever the open flags of the
    endpoint are. *)
Theorem record_connection_nonblocking i w :
  exists w', record_connection i w = Done tt w'
    /\ trace w' = trace w ++
         [Ev_SetEvent (write_ready (self w));
          Ev_NtSetInformationFile (get_fc_handle (self w) i) FILE_PIPE_COMPLETE_OPERATION]
    /\ nconnected (self w') = nconnected (self w) + 1
    /\ fc_handler (self w') =
         <[i := {| h := get_fc_handle (self w) i; state := fc_connected |}]>
           (fc_handler (self w))
    /\ openflags (self w') = openflags (self w).
Proof.
  open_world w. unfold record_connection, set_pipe_non_blocking. unfold_monad.
  simpl. done_with.
Qed.

(** C6.  With [MAX_CLIENTS] handlers in the table, [add_client_handler]
    returns -1 with EMFILE and changes nothing else: no call is made (no
    pipe instance is created) and the table is as before.  The listener
    thread that owns the FIFO and finds the table full, with no invalid
    handler to drop, leaves its loop and returns. *)
Theorem add_client_handler_at_capacity conn_evt fuel w seen t rest :
  let cur_owner := default (_owner (shared w)) seen in
  let table := default (table_of (self w)) t in
  script w = A_owner_locked seen :: A_client_locked t :: rest ->
  fr_id_nonempty cur_owner = true ->
  fr_id_eqb cur_owner (me (self w)) = true ->
  t_nhandlers table = MAX_CLIENTS ->
  (forall j, (j < MAX_CLIENTS)%nat ->
     is_fc_invalid (default new_fifo_client_handler (t_fc_handler table !! j)) = false) ->
  (forall w1, nhandlers (self w1) = MAX_CLIENTS ->
     add_client_handler w1 = Done (-1) (with_errno EMFILE w1))
  /\ exists w', thread_loop (S fuel) conn_evt w = Done 0 w'
       /\ errno w' = EMFILE
       /\ table_of (self w') = table
       /\ script w' = rest
       /\ trace w' = trace w ++
            [Ev_lock owner_lock_id; Ev_unlock owner_lock_id;
             Ev_lock fifo_client_lock_id; Ev_unlock fifo_client_lock_id]
            ++ (if conn_evt =? NULL then [] else [Ev_NtClose conn_evt])
            ++ [Ev_auto_release].
Proof.
  intros cur_owner table Hs Hne Ho Hn Hvalid.
  split; [exact add_client_handler_full|].
  subst cur_owner table. open_world w.
  cbn [thread_loop]. unfold thread_round, owner_lock, owner_unlock, get_owner,
    fifo_client_lock, fifo_client_unlock, thread_canceled.
  unfold_monad.
  destruct seen as [o|], t as [t|]; simpl in *; rewrite Hne, Ho; simpl;
    (rewrite delete_invalid_clients_none;
      [rewrite add_client_handler_full by (simpl; assumption)
      | simpl; intros j Hj; rewrite Hn in Hj; apply Hvalid; lia]);
    simpl; destruct (conn_evt =? NULL); simpl; done_with;
    repeat split; auto using table_of_set_table.
Qed.

(** ** Reasoning about calls *)

Section After.
Context {A : Type} (Q : A -> world -> Prop) (E : world -> Prop).

Lemma after_ret (a : A) w : Q a w -> after (mret a) w Q E.
Proof. exact id. Qed.

Lemma after_bind {B} (m : M B) (k : B -> M A) w :
  after m w (fun b w' => after (k b) w' Q E) E -> after (m ≫= k) w Q E.
Proof.
  unfold after, mbind, M_bind, bind. destruct (m w); auto.
Qed.

Lemma after_stuck w : after (stuck : M A) w Q E.
Proof. exact I. Qed.

Lemma after_exit w : E w -> after (static_cancel_self : M A) w Q E.
Proof. exact id. Qed.

Lemma after_mono (Q' : A -> world -> Prop) (E' : world -> Prop) (m : M A) w :
  after m w Q' E' -> (forall a w', Q' a w' -> Q a w') -> (forall w', E' w' -> E w') ->
  after m w Q E.
Proof. unfold after. destruct (m w); auto. Qed.

End After.

Lemma after_get_self Q E w : Q (self w) w -> after get_self w Q E.
Proof. exact id. Qed.
Lemma after_upd_self g Q E w : Q tt (with_self (g (self w)) w) -> after (upd_self g) w Q E.
Proof. exact id. Qed.
Lemma after_get_shared Q E w : Q (shared w) w -> after get_shared w Q E.
Proof. exact id. Qed.
Lemma after_put_shared s Q E w : Q tt (with_shared s w) -> after (put_shared s) w Q E.
Proof. exact id. Qed.
Lemma after_set_errno e Q E w : Q tt (with_errno e w) -> after (set_errno e) w Q E.
Proof. exact id. Qed.
Lemma after_remaining Q E w : Q (length (script w)) w -> after remaining w Q E.
Proof. exact id. Qed.
Lemma after_tell e Q E w : Q tt (logged e w) -> after (tell e) w Q E.
Proof. exact id. Qed.
Lemma after_ask e Q E w :
  (forall a rest, script w = a :: rest -> Q a (with_script rest (logged e w))) ->
  after (ask e) w Q E.
Proof. unfold after, ask. destruct (script w); auto. Qed.

Lemma after_ask_handle e Q E w :
  (forall hdl rest, script w = A_handle hdl :: rest -> Q hdl (with_script rest (logged e w))) ->
  after (ask_handle e) w Q E.
Proof.
  intros H. apply after_bind, after_ask. intros [] rest Hs; try exact I. apply (H _ _ Hs).
Qed.
Lemma after_ask_bool e Q E w :
  (forall b rest, script w = A_bool b :: rest -> Q b (with_script rest (logged e w))) ->
  after (ask_bool e) w Q E.
Proof.
  intros H. apply after_bind, after_ask. intros [] rest Hs; try exact I. apply (H _ _ Hs).
Qed.
Lemma after_ask_dword e Q E w :
  (forall d rest, script w = A_dword d :: rest -> Q d (with_script rest (logged e w))) ->
  after (ask_dword e) w Q E.
Proof.
  intros H. apply after_bind, after_ask. intros [] rest Hs; try exact I. apply (H _ _ Hs).
Qed.
Lemma after_ask_int e Q E w :
  (forall r rest, script w = A_int r :: rest -> Q r (with_script rest (logged e w))) ->
  after (ask_int e) w Q E.
Proof.
  intros H. apply after_bind, after_ask. intros [] rest Hs; try exact I. apply (H _ _ Hs).
Qed.
Lemma after_ask_nt e Q E w :
  (forall s out rest, script w = A_nt s out :: rest ->
     Q (s, out) (with_script rest (logged e w))) ->
  after (ask_nt e) w Q E.
Proof.
  intros H. apply after_bind, after_ask. intros [] rest Hs; try exact I. apply (H _ _ _ Hs).
Qed.
Lemma after_ask_io e Q E w :
  (forall s ios inf rest, script w = A_io s ios inf :: rest ->
     Q (s, ios, inf) (with_script rest (logged e w))) ->
  after (ask_io e) w Q E.
Proof.
  intros H. apply after_bind, after_ask. intros [] rest Hs; try exact I. apply (H _ _ _ _ Hs).
Qed.
Lemma after_ask_pipe_info e Q E w :
  (forall s avail st rest, script w = A_pipe_info s avail st :: rest ->
     Q (s, avail, st) (with_script rest (logged e w))) ->
  after (ask_pipe_info e) w Q E.
Proof.
  intros H. apply after_bind, after_ask. intros [] rest Hs; try exact I. apply (H _ _ _ _ Hs).
Qed.

Lemma after_transfer_within len m Q E w :
  after m w (fun r w' => 0 <= r.2 <= len -> Q r w') E ->
  after (transfer_within len m) w Q E.
Proof.
  intros H. apply after_bind. eapply after_mono; [exact H| |auto].
  intros [[s ios] inf] w' HQ. simpl in *.
  destruct (Z.leb_spec 0 inf), (Z.leb_spec inf len); simpl; try exact I.
  apply HQ. lia.
Qed.

(** One step of the structural proof of an [after] goal. *)
Ltac after_step :=
  lazymatch goal with
  | |- after (mret _) _ _ _ => apply after_ret
  | |- after (_ ≫= _) _ _ _ => apply after_bind
  | |- after stuck _ _ _ => apply after_stuck
  | |- after static_cancel_self _ _ _ => apply after_exit
  | |- after get_self _ _ _ => apply after_get_self
  | |- after (upd_self _) _ _ _ => apply after_upd_self
  | |- after get_shared _ _ _ => apply after_get_shared
  | |- after (put_shared _) _ _ _ => apply after_put_shared
  | |- after (set_errno _) _ _ _ => apply after_set_errno
  | |- after remaining _ _ _ => apply after_remaining
  | |- after (tell _) _ _ _ => apply after_tell
  | |- after (ask_handle _) _ _ _ => apply after_ask_handle; intros ? ? ?
  | |- after (ask_bool _) _ _ _ => apply after_ask_bool; intros ? ? ?
  | |- after (ask_dword _) _ _ _ => apply after_ask_dword; intros ? ? ?
  | |- after (ask_int _) _ _ _ => apply after_ask_int; intros ? ? ?
  | |- after (ask_nt _) _ _ _ => apply after_ask_nt; intros ? ? ? ?
  | |- after (ask_io _) _ _ _ => apply after_ask_io; intros ? ? ? ? ?
  | |- after (ask_pipe_info _) _ _ _ => apply after_ask_pipe_info; intros ? ? ? ? ?
  | |- after (transfer_within _ _) _ _ _ => apply after_transfer_within
  | |- after (if ?b then _ else _) _ _ _ => destruct b eqn:?
  | |- after (match ?x with _ => _ end) _ _ _ => destruct x eqn:?
  | |- after (let '(_, _) := ?x in _) _ _ _ => destruct x eqn:?
  | |- _ -> _ => intros ?
  end.

(** Comparisons: from booleans to propositions, and by cases. *)
Ltac zbool :=
  repeat match goal with
  | H : (_ =? _) = true |- _ => apply Z.eqb_eq in H
  | H : (_ =? _) = false |- _ => apply Z.eqb_neq in H
  | H : (_ <? _) = true |- _ => apply Z.ltb_lt in H
  | H : (_ <? _) = false |- _ => apply Z.ltb_ge in H
  | H : (_ <=? _) = true |- _ => apply Z.leb_le in H
  | H : (_ <=? _) = false |- _ => apply Z.leb_gt in H
  end.
Ltac case_cmp :=
  match goal with
  | |- context [?a =? ?b] => destruct (Z.eqb_spec a b)
  | |- context [?a <? ?b] => destruct (Z.ltb_spec a b)
  | |- context [?a <=? ?b] => destruct (Z.leb_spec a b)
  end.

(** Tests on constants are computed. *)
Ltac closed_term t :=
  tryif (match t with context [?x] => is_var x end) then fail else idtac.
Ltac eval_test t :=
  let v := eval vm_compute in t in
  lazymatch v with true => idtac | false => idtac end;
  change t with v.
Ltac eval_tests :=
  repeat match goal with
  | |- context [?a =? ?b] => closed_term a; closed_term b; eval_test (a =? b)
  | |- context [?a <? ?b] => closed_term a; closed_term b; eval_test (a <? b)
  | |- context [?a <=? ?b] => closed_term a; closed_term b; eval_test (a <=? b)
  | |- context [NT_SUCCESS ?a] => closed_term a; eval_test (NT_SUCCESS a)
  | |- context [STATUS_PIPE_IS_CLOSED ?a] =>
      closed_term a; eval_test (STATUS_PIPE_IS_CLOSED a)
  end.

(** Tests the hypotheses decide are rewritten. *)
Ltac use_tests :=
  repeat match goal with
  | H : ?t = true |- context [?t] => rewrite H
  | H : ?t = false |- context [?t] => rewrite H
  end.

(** ** Write engine *)

Lemma to_ssize_t_small z : 0 <= z <= SSIZE_MAX -> to_ssize_t z = z.
Proof.
  unfold to_ssize_t, SSIZE_MAX. intros H.
  rewrite Z.mod_small by lia. destruct (Z.ltb_spec z (2 ^ 63)); lia.
Qed.

Lemma to_size_t_small z : 0 <= z <= SSIZE_MAX -> to_size_t z = z.
Proof. unfold to_size_t, SSIZE_MAX. intros H. apply Z.mod_small. lia. Qed.

Lemma raw_write_chunk_inv evt chunk L w :
  write_inv L -> wl_nbytes L < wl_len L ->
  after (raw_write_chunk evt chunk L) w
    (fun L' _ => write_inv L' /\ (wl_len L' = wl_len L \/ wl_len L' = 0)) (fun _ => True).
Proof.
  intros (Hn & Hl & Hr) Hlt.
  unfold raw_write_chunk, NtWriteFile, isclosed, __seterrno, __seterrno_from_nt_status,
    get_handle.
  assert (Hlen1 : write_len1 chunk L <= wl_len L - wl_nbytes L).
  { unfold write_len1. rewrite (to_size_t_small (wl_len L - wl_nbytes L)) by lia.
    destruct (Z.ltb_spec chunk (wl_len L - wl_nbytes L)); [lia|].
    unfold to_ULONG. apply Z.mod_le; lia. }
  set (len1 := write_len1 chunk L) in *. clearbody len1.
  repeat (after_step; cbn beta iota);
    unfold write_inv; cbn [wl_ptr wl_len wl_nbytes wl_ret wl_status fst snd] in *;
    rewrite ?Hr; zbool;
    rewrite ?to_size_t_small, ?to_ssize_t_small by lia; repeat case_cmp; lia.
Qed.

Lemma raw_write_loop_inv evt chunk fuel : forall L w,
  write_inv L ->
  after (raw_write_loop fuel evt chunk L) w (fun L' _ => write_inv L') (fun _ => True).
Proof.
  induction fuel as [|fuel IH]; intros L w HL; cbn [raw_write_loop];
    destruct (Z.ltb_spec (wl_nbytes L) (wl_len L)); try exact HL; try exact I.
  apply after_bind. eapply after_mono; [apply raw_write_chunk_inv; assumption| |auto].
  intros L' w' [HL' _]. apply IH, HL'.
Qed.


(** Every round of the loop asks the platform for one transfer at least,
    so the loop is never short of the rounds [raw_write] allows it: one
    round more changes nothing. *)
Lemma raw_write_chunk_consumes evt chunk L w :
  after (raw_write_chunk evt chunk L) w
    (fun _ w' => (length (script w') < length (script w))%nat) (fun _ => True).
Proof.
  unfold raw_write_chunk, NtWriteFile, isclosed, __seterrno, __seterrno_from_nt_status,
    get_handle.
  repeat (after_step; cbn beta iota); try exact I;
    cbn [script with_script with_trace with_self with_errno with_shared logged] in *;
    repeat match goal with
    | H : script w = _ |- _ => rewrite H; clear H
    | H : ?r = _ :: _ |- _ => is_var r; subst r
    end;
    cbn [length]; lia.
Qed.

Lemma raw_write_loop_fuel evt chunk : forall fuel L w,
  (length (script w) < fuel)%nat ->
  raw_write_loop (S fuel) evt chunk L w = raw_write_loop fuel evt chunk L w.
Proof.
  induction fuel as [|fuel IH]; intros L w Hfuel; [lia|].
  cbn [raw_write_loop]. destruct (wl_nbytes L <? wl_len L); [|reflexivity].
  unfold mbind, M_bind, bind.
  pose proof (raw_write_chunk_consumes evt chunk L w) as Hc. unfold after in Hc.
  destruct (raw_write_chunk evt chunk L w) as [L' w'| |]; try reflexivity.
  apply IH. lia.
Qed.

(** ** Running a call along one path *)

Lemma returns_done {A} (m : M A) w Q :
  returns m w Q -> exists a w', m w = Done a w' /\ Q a w'.
Proof. unfold returns. destruct (m w); [eauto|tauto|tauto]. Qed.

Lemma returns_ret {A} (a : A) w Q : Q a w -> returns (mret a) w Q.
Proof. exact id. Qed.
Lemma returns_bind {A B} (m : M B) (k : B -> M A) w Q :
  returns m w (fun b w' => returns (k b) w' Q) -> returns (m ≫= k) w Q.
Proof. unfold returns, mbind, M_bind, bind. destruct (m w); auto. Qed.
Lemma returns_get_self Q w : Q (self w) w -> returns get_self w Q.
Proof. exact id. Qed.
Lemma returns_upd_self g Q w : Q tt (with_self (g (self w)) w) -> returns (upd_self g) w Q.
Proof. exact id. Qed.
Lemma returns_get_shared Q w : Q (shared w) w -> returns get_shared w Q.
Proof. exact id. Qed.
Lemma returns_put_shared s Q w : Q tt (with_shared s w) -> returns (put_shared s) w Q.
Proof. exact id. Qed.
Lemma returns_set_errno e Q w : Q tt (with_errno e w) -> returns (set_errno e) w Q.
Proof. exact id. Qed.
Lemma returns_remaining Q w : Q (length (script w)) w -> returns remaining w Q.
Proof. exact id. Qed.
Lemma returns_tell e Q w : Q tt (logged e w) -> returns (tell e) w Q.
Proof. exact id. Qed.
Lemma returns_ask e a rest Q w :
  script w = a :: rest -> Q a (with_script rest (logged e w)) -> returns (ask e) w Q.
Proof. unfold returns, ask. intros ->. exact id. Qed.

Lemma returns_ask_handle e hdl rest Q w :
  script w = A_handle hdl :: rest -> Q hdl (with_script rest (logged e w)) ->
  returns (ask_handle e) w Q.
Proof. intros Hs H. apply returns_bind. eapply returns_ask; [exact Hs|exact H]. Qed.
Lemma returns_ask_bool e b rest Q w :
  script w = A_bool b :: rest -> Q b (with_script rest (logged e w)) ->
  returns (ask_bool e) w Q.
Proof. intros Hs H. apply returns_bind. eapply returns_ask; [exact Hs|exact H]. Qed.
Lemma returns_ask_dword e d rest Q w :
  script w = A_dword d :: rest -> Q d (with_script rest (logged e w)) ->
  returns (ask_dword e) w Q.
Proof. intros Hs H. apply returns_bind. eapply returns_ask; [exact Hs|exact H]. Qed.
Lemma returns_ask_int e r rest Q w :
  script w = A_int r :: rest -> Q r (with_script rest (logged e w)) ->
  returns (ask_int e) w Q.
Proof. intros Hs H. apply returns_bind. eapply returns_ask; [exact Hs|exact H]. Qed.
Lemma returns_ask_nt e s out rest Q w :
  script w = A_nt s out :: rest -> Q (s, out) (with_script rest (logged e w)) ->
  returns (ask_nt e) w Q.
Proof. intros Hs H. apply returns_bind. eapply returns_ask; [exact Hs|exact H]. Qed.
Lemma returns_ask_io e s ios inf rest Q w :
  script w = A_io s ios inf :: rest -> Q (s, ios, inf) (with_script rest (logged e w)) ->
  returns (ask_io e) w Q.
Proof. intros Hs H. apply returns_bind. eapply returns_ask; [exact Hs|exact H]. Qed.
Lemma returns_owner_lock seen rest Q w :
  script w = A_owner_locked seen :: rest ->
  Q tt (with_shared {| _owner := default (_owner (shared w)) seen;
                       _nreaders := _nreaders (shared w) |}
          (with_script rest (logged (Ev_lock owner_lock_id) w))) ->
  returns owner_lock w Q.
Proof.
  intros Hs H. apply returns_bind. eapply returns_ask; [exact Hs|].
  destruct seen; [exact H|]. destruct w as [f [o n] e sc tr]. exact H.
Qed.
Lemma returns_reader_lock seen rest Q w :
  script w = A_reader_locked seen :: rest ->
  Q tt (with_shared {| _owner := _owner (shared w);
                       _nreaders := default (_nreaders (shared w)) seen |}
          (with_script rest (logged (Ev_lock reader_lock_id) w))) ->
  returns reader_lock w Q.
Proof.
  intros Hs H. apply returns_bind. eapply returns_ask; [exact Hs|].
  destruct seen; [exact H|]. destruct w as [f [o n] e sc tr]. exact H.
Qed.
Lemma returns_fifo_client_lock seen rest Q w :
  script w = A_client_locked seen :: rest ->
  Q tt (with_self (set_table (default (table_of (self w)) seen) (self w))
          (with_script rest (logged (Ev_lock fifo_client_lock_id) w))) ->
  returns fifo_client_lock w Q.
Proof.
  intros Hs H. apply returns_bind. eapply returns_ask; [exact Hs|].
  destruct seen; [exact H|]. destruct w as [[] s e sc tr]. exact H.
Qed.

Lemma returns_value {A} (m : M A) w r (P : world -> Prop) :
  returns m w (fun a w' => a = r /\ P w') -> exists w', m w = Done r w' /\ P w'.
Proof. unfold returns. destruct (m w); [intros [-> H]; eauto|tauto|tauto]. Qed.

Ltac head_of t := lazymatch t with ?f _ => head_of f | _ => t end.

(** The script of a world that is given by the calls made so far. *)
Ltac script_eq :=
  first [ eassumption
        | cbn [script with_script with_trace with_self with_errno with_shared logged];
          first [eassumption|reflexivity] ].

(** Decide the test [c] of a conditional: by computation on the state,
    by a hypothesis, or on constants. *)
Ltac decide_test :=
  lazymatch goal with
  | |- returns (if ?c then ?a else ?b) ?w ?Q =>
      let c' := eval cbn -[Z.eqb Z.ltb Z.leb Z.add Z.sub Z.mul Z.modulo Z.pow Z.land] in c in
      change (returns (if c' then a else b) w Q);
      first [ lazymatch c' with true => idtac | false => idtac end
            | progress use_tests
            | progress eval_tests ];
      cbn [negb andb orb]; cbv iota
  end.

Ltac run_step :=
  lazymatch goal with
  | |- returns (mret _) _ _ => apply returns_ret
  | |- returns (_ ≫= _) _ _ => apply returns_bind
  | |- returns get_self _ _ => apply returns_get_self
  | |- returns (upd_self _) _ _ => apply returns_upd_self
  | |- returns get_shared _ _ => apply returns_get_shared
  | |- returns (put_shared _) _ _ => apply returns_put_shared
  | |- returns (set_errno _) _ _ => apply returns_set_errno
  | |- returns remaining _ _ => apply returns_remaining
  | |- returns (tell _) _ _ => apply returns_tell
  | |- returns (ask_handle _) _ _ => eapply returns_ask_handle; [script_eq|]
  | |- returns (ask_bool _) _ _ => eapply returns_ask_bool; [script_eq|]
  | |- returns (ask_dword _) _ _ => eapply returns_ask_dword; [script_eq|]
  | |- returns (ask_int _) _ _ => eapply returns_ask_int; [script_eq|]
  | |- returns (ask_nt _) _ _ => eapply returns_ask_nt; [script_eq|]
  | |- returns (ask_io _) _ _ => eapply returns_ask_io; [script_eq|]
  | |- returns owner_lock _ _ => eapply returns_owner_lock; [script_eq|]
  | |- returns reader_lock _ _ => eapply returns_reader_lock; [script_eq|]
  | |- returns fifo_client_lock _ _ => eapply returns_fifo_client_lock; [script_eq|]
  | |- returns (if _ then _ else _) _ _ => decide_test
  | |- returns (match _ with _ => _ end) _ _ => cbv beta iota
  | |- returns (let '(_, _) := _ in _) _ _ => cbv beta iota
  | |- returns (raw_write_loop (S _) _ _ _) _ _ => cbn [raw_write_loop]
  | |- returns (raw_read_loop (S _) _ _) _ _ => cbn [raw_read_loop]
  | |- returns (thread_loop (S _) _) _ _ => cbn [thread_loop]
  | |- returns (open_writer (S _) _) _ _ => cbn [open_writer]
  | |- returns (poll_clients (S _) _ _ _) _ _ => cbn [poll_clients]
  | |- returns (delete_invalid_clients (S _) _) _ _ => cbn [delete_invalid_clients]
  | |- returns (close_client_handlers (S _) _) _ _ => cbn [close_client_handlers]
  | |- returns ?m _ _ =>
      let hd := head_of m in
      first [ unfold hd | fail 1 "stopped at" m ]
  end; cbv beta.

Ltac run := repeat run_step.

Lemma write_len1_nonneg chunk L : 0 <= chunk -> 0 <= write_len1 chunk L.
Proof.
  intros H. unfold write_len1, to_ULONG.
  destruct (_ <? _); [assumption|]. apply Z.mod_pos_bound. lia.
Qed.

Lemma pipe_is_closed_cases st :
  STATUS_PIPE_IS_CLOSED st = true ->
  st = STATUS_PIPE_CLOSING \/ st = STATUS_PIPE_BROKEN \/ st = STATUS_PIPE_EMPTY.
Proof.
  unfold STATUS_PIPE_IS_CLOSED. cbv zeta. rewrite !orb_true_iff, !Z.eqb_eq. tauto.
Qed.

Lemma raw_write_loop_stop fuel evt chunk L w :
  wl_len L <= wl_nbytes L -> raw_write_loop fuel evt chunk L w = Done L w.
Proof.
  intros H. destruct fuel; cbn [raw_write_loop];
    destruct (Z.ltb_spec (wl_nbytes L) (wl_len L)); try lia; reflexivity.
Qed.

(** C5, for a descriptor that is still open.  In any round of the write
    loop, when the platform reports the pipe closing, broken or empty, at
    once or when the wait for the chunk completes, and the descriptor has
    not been closed in the meantime, the round sets EPIPE and raises
    SIGPIPE, no further chunk is written, and the write returns what it
    had accumulated (-1 when that is nothing). *)
Theorem raw_write_peer_closed evt chunk fuel L w st ios (waited : bool) rest :
  0 <= wl_nbytes L < wl_len L ->
  0 <= chunk ->
  STATUS_PIPE_IS_CLOSED st = true ->
  (waited = true -> evt <> NULL) ->
  script w = (if waited then [A_io STATUS_PENDING st 0; A_dword WAIT_OBJECT_0]
              else [A_io st ios 0]) ++ A_bool false :: rest ->
  exists L' w', raw_write_loop (S fuel) evt chunk L w = Done L' w'
    /\ errno w' = EPIPE
    /\ trace w' = trace w
         ++ [Ev_NtWriteFile (io_handle (self w)) evt (wl_ptr L) (write_len1 chunk L)]
         ++ (if waited then [Ev_cygwait evt INFINITE] else [])
         ++ [Ev_isclosed; Ev_raise SIGPIPE]
    /\ script w' = rest
    /\ wl_nbytes L' = wl_nbytes L
    /\ wl_ret L' = (if 0 <? wl_nbytes L then to_ssize_t (wl_nbytes L) else wl_ret L)
    /\ exists w'', raw_write_return evt L' w' = Done (wl_ret L') w'' /\ errno w'' = EPIPE.
Proof.
  intros Hlt Hchunk Hst Hevt Hs.
  pose proof (write_len1_nonneg chunk L Hchunk) as Hlen1. apply Z.leb_le in Hlen1.
  pose proof (proj2 (Z.ltb_lt _ _) (proj2 Hlt)) as Hlt'.
  assert (Hstop : forall p r s w1 Q,
            Q {| wl_ptr := p; wl_len := 0; wl_nbytes := wl_nbytes L; wl_ret := r;
                 wl_status := s |} w1 ->
            returns (raw_write_loop fuel evt chunk
                       {| wl_ptr := p; wl_len := 0; wl_nbytes := wl_nbytes L; wl_ret := r;
                          wl_status := s |}) w1 Q).
  { intros p r s w1 Q HQ. unfold returns. rewrite raw_write_loop_stop by (cbn; lia).
    exact HQ. }
  apply returns_done.
  destruct waited; cbn [app] in Hs.
  - assert (He : (evt =? NULL) = false) by (apply Z.eqb_neq; auto).
    apply pipe_is_closed_cases in Hst as [-> | [-> | ->]];
      run; apply Hstop; cbn; rewrite <- ?app_assoc; repeat split;
      apply returns_value; run; auto.
  - apply pipe_is_closed_cases in Hst as [-> | [-> | ->]];
      run; rewrite ?andb_false_r; run; apply Hstop; cbn; rewrite <- ?app_assoc;
      repeat split; apply returns_value; destruct (evt =? NULL) eqn:He; run; auto.
Qed.

(** ** The owner record *)

Section Keeps.
Context {A : Type}.

Lemma keeps_ret (a : A) : keeps_owner (mret a).
Proof. intros o s w H. exact H. Qed.

Lemma keeps_bind {B} (m : M B) (k : B -> M A) :
  keeps_owner m -> (forall b, keeps_owner (k b)) -> keeps_owner (m ≫= k).
Proof.
  intros Hm Hk o s w H. apply after_bind.
  eapply after_mono; [apply Hm, H| |auto].
  intros b w' H'. apply Hk, H'.
Qed.

Lemma keeps_stuck : keeps_owner (stuck : M A).
Proof. intros o s w H. exact I. Qed.

Lemma keeps_exit : keeps_owner (static_cancel_self : M A).
Proof. intros o s w H. exact H. Qed.

End Keeps.

Lemma keeps_get_self : keeps_owner get_self.
Proof. intros o s w H. exact H. Qed.
Lemma keeps_upd_self g : keeps_owner (upd_self g).
Proof. intros o s w H. exact H. Qed.
Lemma keeps_get_shared : keeps_owner get_shared.
Proof. intros o s w H. exact H. Qed.
Lemma keeps_set_errno e : keeps_owner (set_errno e).
Proof. intros o s w H. exact H. Qed.
Lemma keeps_remaining : keeps_owner remaining.
Proof. intros o s w H. exact H. Qed.
Lemma keeps_tell e : keeps_owner (tell e).
Proof. intros o s w H. exact H. Qed.
Create HintDb keeps discriminated.
#[local] Hint Resolve keeps_get_self keeps_upd_self keeps_get_shared keeps_set_errno
  keeps_remaining keeps_tell : keeps.

(** The structural proof that a call keeps the owner record. *)
Ltac keeps :=
  repeat lazymatch goal with
  | |- keeps_owner (mret _) => apply keeps_ret
  | |- keeps_owner (_ ≫= _) => apply keeps_bind; [|intros ?]
  | |- keeps_owner stuck => apply keeps_stuck
  | |- keeps_owner static_cancel_self => apply keeps_exit
  | |- keeps_owner (if ?b then _ else _) => destruct b
  | |- keeps_owner (match ?x with _ => _ end) => destruct x
  | |- keeps_owner _ => solve [auto with keeps]
  end.

(** An answer of the kind that is asked for is no answer to the owner lock. *)
Ltac keeps_asked :=
  intros o s w [Ho Hn]; apply after_bind, after_ask; intros a rest Hs;
  rewrite Hs in Hn; destruct a; cbn [next_owner_answer] in Hn;
  repeat (after_step; cbn beta iota); try exact I; (split; [exact Ho|exact Hn]).

Lemma keeps_ask_handle e : keeps_owner (ask_handle e).
Proof. unfold ask_handle. keeps_asked. Qed.
Lemma keeps_ask_bool e : keeps_owner (ask_bool e).
Proof. unfold ask_bool. keeps_asked. Qed.
Lemma keeps_ask_dword e : keeps_owner (ask_dword e).
Proof. unfold ask_dword. keeps_asked. Qed.
Lemma keeps_ask_int e : keeps_owner (ask_int e).
Proof. unfold ask_int. keeps_asked. Qed.
Lemma keeps_ask_nt e : keeps_owner (ask_nt e).
Proof. unfold ask_nt. keeps_asked. Qed.
Lemma keeps_ask_io e : keeps_owner (ask_io e).
Proof. unfold ask_io. keeps_asked. Qed.
Lemma keeps_ask_pipe_info e : keeps_owner (ask_pipe_info e).
Proof. unfold ask_pipe_info. keeps_asked. Qed.
#[local] Hint Resolve keeps_ask_handle keeps_ask_bool keeps_ask_dword keeps_ask_int
  keeps_ask_nt keeps_ask_io keeps_ask_pipe_info : keeps.

(** The reader lock and the table lock show what the others did to the
    count of readers and to the table, not to the owner record. *)
Lemma keeps_reader_lock : keeps_owner reader_lock.
Proof. unfold reader_lock. keeps_asked. Qed.
Lemma keeps_fifo_client_lock : keeps_owner fifo_client_lock.
Proof. unfold fifo_client_lock. keeps_asked. Qed.

Lemma keeps_inc_nreaders : keeps_owner inc_nreaders.
Proof. intros o s w H. exact H. Qed.
Lemma keeps_dec_nreaders : keeps_owner dec_nreaders.
Proof. intros o s w H. exact H. Qed.
Lemma keeps_get_owner : keeps_owner get_owner.
Proof. unfold get_owner. keeps. Qed.
Lemma keeps_get_nreaders : keeps_owner get_nreaders.
Proof. unfold get_nreaders. keeps. Qed.
#[local] Hint Resolve keeps_reader_lock keeps_fifo_client_lock
  keeps_inc_nreaders keeps_dec_nreaders keeps_get_owner keeps_get_nreaders : keeps.

Lemma keeps_owner_unlock : keeps_owner owner_unlock.
Proof. unfold owner_unlock. keeps. Qed.
Lemma keeps_reader_unlock : keeps_owner reader_unlock.
Proof. unfold reader_unlock. keeps. Qed.
Lemma keeps_fifo_client_unlock : keeps_owner fifo_client_unlock.
Proof. unfold fifo_client_unlock. keeps. Qed.
Lemma keeps_seterrno : keeps_owner __seterrno.
Proof. unfold __seterrno. keeps. Qed.
Lemma keeps_seterrno_from_nt_status s : keeps_owner (__seterrno_from_nt_status s).
Proof. unfold __seterrno_from_nt_status. keeps. Qed.
Lemma keeps_is_nonblocking : keeps_owner is_nonblocking.
Proof. unfold is_nonblocking. keeps. Qed.
Lemma keeps_isclosed : keeps_owner isclosed.
Proof. unfold isclosed. keeps. Qed.
Lemma keeps_get_handle : keeps_owner get_handle.
Proof. unfold get_handle. keeps. Qed.
Lemma keeps_arm hdl : keeps_owner (arm hdl).
Proof. unfold arm. keeps. Qed.
#[local] Hint Resolve keeps_owner_unlock keeps_reader_unlock keeps_fifo_client_unlock
  keeps_seterrno keeps_seterrno_from_nt_status keeps_is_nonblocking keeps_isclosed
  keeps_get_handle keeps_arm : keeps.

Lemma keeps_create_event : keeps_owner create_event.
Proof. unfold create_event. keeps. Qed.
Lemma keeps_set_pipe_non_blocking ph nb : keeps_owner (set_pipe_non_blocking ph nb).
Proof. unfold set_pipe_non_blocking. keeps. Qed.
Lemma keeps_npfs_handle : keeps_owner npfs_handle.
Proof. unfold npfs_handle. keeps. Qed.
#[local] Hint Resolve keeps_create_event keeps_set_pipe_non_blocking keeps_npfs_handle
  : keeps.
Lemma keeps_create_pipe_instance first : keeps_owner (create_pipe_instance first).
Proof. unfold create_pipe_instance. keeps. Qed.
Lemma keeps_open_pipe ph : keeps_owner (open_pipe ph).
Proof. unfold open_pipe. keeps. Qed.
Lemma keeps_transfer_within len m : keeps_owner m -> keeps_owner (transfer_within len m).
Proof. intros H. unfold transfer_within. keeps. Qed.
Lemma keeps_fifo_client_handler_close fc : keeps_owner (fifo_client_handler_close fc).
Proof. unfold fifo_client_handler_close. keeps. Qed.
#[local] Hint Resolve keeps_create_pipe_instance keeps_open_pipe
  keeps_fifo_client_handler_close : keeps.
Lemma keeps_NtWriteFile hdl evt ptr len : keeps_owner (NtWriteFile hdl evt ptr len).
Proof. apply keeps_transfer_within. keeps. Qed.
Lemma keeps_NtReadFile hdl ptr len : keeps_owner (NtReadFile hdl ptr len).
Proof. apply keeps_transfer_within. keeps. Qed.
Lemma keeps_pipe_state fc : keeps_owner (pipe_state fc).
Proof. unfold pipe_state. keeps. Qed.
Lemma keeps_add_client_handler : keeps_owner add_client_handler.
Proof. unfold add_client_handler. keeps. Qed.
Lemma keeps_delete_client_handler i : keeps_owner (delete_client_handler i).
Proof. unfold delete_client_handler. keeps. Qed.
Lemma keeps_record_connection i : keeps_owner (record_connection i).
Proof. unfold record_connection. keeps. Qed.
#[local] Hint Resolve keeps_NtWriteFile keeps_NtReadFile keeps_pipe_state
  keeps_add_client_handler keeps_delete_client_handler keeps_record_connection : keeps.

Lemma keeps_delete_invalid_clients rounds : forall i,
  keeps_owner (delete_invalid_clients rounds i).
Proof. induction rounds; intros i; cbn [delete_invalid_clients]; keeps. Qed.
Lemma keeps_thread_canceled conn_evt : keeps_owner (thread_canceled conn_evt).
Proof. unfold thread_canceled. keeps. Qed.
Lemma keeps_thread_listen conn_evt i : keeps_owner (thread_listen conn_evt i).
Proof. unfold thread_listen. keeps. Qed.
#[local] Hint Resolve keeps_delete_invalid_clients keeps_thread_canceled
  keeps_thread_listen : keeps.

Lemma keeps_hit_eof_round retry again :
  keeps_owner again -> keeps_owner (hit_eof_round retry again).
Proof. intros H. unfold hit_eof_round. keeps. Qed.
Lemma keeps_hit_eof : keeps_owner hit_eof.
Proof. unfold hit_eof. do 2 apply keeps_hit_eof_round. keeps. Qed.
Lemma keeps_poll_clients left : forall i in_ptr len,
  keeps_owner (poll_clients left i in_ptr len).
Proof. induction left; intros i in_ptr len; cbn [poll_clients]; keeps. Qed.
Lemma keeps_raw_read_errout : keeps_owner raw_read_errout.
Proof. unfold raw_read_errout. keeps. Qed.
#[local] Hint Resolve keeps_hit_eof keeps_poll_clients keeps_raw_read_errout : keeps.
Lemma keeps_raw_read_loop fuel : forall in_ptr len,
  keeps_owner (raw_read_loop fuel in_ptr len).
Proof. induction fuel; intros in_ptr len; cbn [raw_read_loop]; keeps. Qed.
#[local] Hint Resolve keeps_raw_read_loop : keeps.
Lemma keeps_raw_write_chunk evt chunk L : keeps_owner (raw_write_chunk evt chunk L).
Proof. unfold raw_write_chunk. keeps. Qed.
#[local] Hint Resolve keeps_raw_write_chunk : keeps.
Lemma keeps_raw_write_loop fuel : forall evt chunk L,
  keeps_owner (raw_write_loop fuel evt chunk L).
Proof. induction fuel; intros evt chunk L; cbn [raw_write_loop]; keeps. Qed.
Lemma keeps_raw_write_return evt L : keeps_owner (raw_write_return evt L).
Proof. unfold raw_write_return. keeps. Qed.
#[local] Hint Resolve keeps_raw_write_loop keeps_raw_write_return : keeps.
Lemma keeps_raw_write_transfer ptr len : keeps_owner (raw_write_transfer ptr len).
Proof. unfold raw_write_transfer. keeps. Qed.
#[local] Hint Resolve keeps_raw_write_transfer : keeps.
Lemma keeps_raw_write ptr len : keeps_owner (raw_write ptr len).
Proof. unfold raw_write. keeps. Qed.

Lemma keeps_create_shmem : keeps_owner create_shmem.
Proof. unfold create_shmem. keeps. Qed.
Lemma keeps_wait hdl : keeps_owner (wait hdl).
Proof. unfold wait. keeps. Qed.
Lemma keeps_cancel_reader_thread : keeps_owner cancel_reader_thread.
Proof. unfold cancel_reader_thread. keeps. Qed.
Lemma keeps_open_err : keeps_owner open_err.
Proof. unfold open_err. keeps. Qed.
#[local] Hint Resolve keeps_create_shmem keeps_wait keeps_cancel_reader_thread
  keeps_open_err : keeps.
Lemma keeps_open_err_close_read_ready : keeps_owner open_err_close_read_ready.
Proof. unfold open_err_close_read_ready. keeps. Qed.
#[local] Hint Resolve keeps_open_err_close_read_ready : keeps.
Lemma keeps_open_err_close_write_ready : keeps_owner open_err_close_write_ready.
Proof. unfold open_err_close_write_ready. keeps. Qed.
#[local] Hint Resolve keeps_open_err_close_write_ready : keeps.
Lemma keeps_open_err_close_shmem : keeps_owner open_err_close_shmem.
Proof. unfold open_err_close_shmem. keeps. Qed.
#[local] Hint Resolve keeps_open_err_close_shmem : keeps.
Lemma keeps_open_err_close_listening_evt : keeps_owner open_err_close_listening_evt.
Proof. unfold open_err_close_listening_evt. keeps. Qed.
#[local] Hint Resolve keeps_open_err_close_listening_evt : keeps.
Lemma keeps_open_err_close_cancel_evt : keeps_owner open_err_close_cancel_evt.
Proof. unfold open_err_close_cancel_evt. keeps. Qed.
#[local] Hint Resolve keeps_open_err_close_cancel_evt : keeps.
Lemma keeps_open_err_cancel_frt : keeps_owner open_err_cancel_frt.
Proof. unfold open_err_cancel_frt. keeps. Qed.
#[local] Hint Resolve keeps_open_err_cancel_frt : keeps.
Lemma keeps_open_reader flags : keeps_owner (open_reader flags).
Proof. unfold open_reader. keeps. Qed.
Lemma keeps_open_writer fuel : forall flags, keeps_owner (open_writer fuel flags).
Proof. induction fuel; intros flags; cbn [open_writer]; keeps. Qed.
#[local] Hint Resolve keeps_open_reader keeps_open_writer : keeps.
Lemma keeps_open flags : keeps_owner (open flags).
Proof. unfold open. keeps. Qed.
Lemma keeps_close_client_handlers left : forall i,
  keeps_owner (close_client_handlers left i).
Proof. induction left; intros i; cbn [close_client_handlers]; keeps. Qed.
#[local] Hint Resolve keeps_close_client_handlers : keeps.


Lemma keeps_owner_same {A} (m : M A) w :
  keeps_owner m ->
  after m w (fun _ w' => _owner (shared w') = _owner (shared w))
    (fun w' => _owner (shared w') = _owner (shared w)).
Proof.
  intros H.
  eapply after_mono; [apply (H _ _ w (conj eq_refl eq_refl))| |]; cbn; unfold undisturbed;
    tauto.
Qed.

(** Past a call that keeps the owner record. *)
Lemma after_skip {A B} (m : M A) (k : A -> M B) o s w Q (E : world -> Prop) :
  keeps_owner m -> undisturbed o s w ->
  (forall a w', undisturbed o s w' -> after (k a) w' Q E) ->
  (forall w', undisturbed o s w' -> E w') ->
  after (m ≫= k) w Q E.
Proof.
  intros Hm Hw Hk HE. apply after_bind.
  eapply after_mono; [apply (Hm o s w Hw)| |]; cbn beta; auto.
Qed.

Ltac skip_call :=
  lazymatch goal with
  | H : undisturbed ?o ?s ?w |- after (_ ≫= _) ?w _ _ =>
      apply (after_skip _ _ o s w);
        [solve [keeps]|exact H|clear H; intros ? ? H|intros ? [? _]; left; assumption]
  end.

(** Taking the owner lock shows the record as the others left it. *)
Lemma owner_lock_sees w E :
  after owner_lock w (fun _ w' => _owner (shared w') = owner_seen w) E.
Proof.
  unfold owner_lock. apply after_bind, after_ask. intros a rest Hs.
  unfold owner_seen. rewrite Hs.
  destruct a; cbn [next_owner_answer]; repeat (after_step; cbn beta iota); try exact I;
    reflexivity.
Qed.

(** The empty identity is [null_fr_id], and [fr_id_eqb] decides equality. *)
Lemma fr_id_empty_null o : fr_id_nonempty o = false -> o = null_fr_id.
Proof.
  destruct o as [p a]. unfold fr_id_nonempty, null_fr_id, NULL. cbn.
  rewrite orb_false_iff, !negb_false_iff, !Z.eqb_eq. intros [-> ->]. reflexivity.
Qed.

Lemma fr_id_eqb_eq l r : fr_id_eqb l r = true <-> l = r.
Proof.
  destruct l, r. unfold fr_id_eqb. cbn. rewrite andb_true_iff, !Z.eqb_eq.
  split; [intros [-> ->]; reflexivity|intros [= -> ->]; auto].
Qed.

(** C9.  The owner record is one identity, empty or not.  Whatever the
    other endpoints do to it while the endpoint [me] does not hold the
    owner lock: a round of the listener thread of [me] takes the lock and
    leaves the record as it finds it then, or writes [me] into the record
    it finds empty; [close] leaves the record untouched, or takes the lock
    and leaves the record as it finds it then, or clears the record it
    finds holding [me].  So a record found holding another endpoint's
    identity is left alone.  [open] and [raw_write] do not touch the
    record, and [raw_read] at most takes the lock and looks at it. *)
Theorem owner_record_protocol w :
  let me_ := me (self w) in
  let o := _owner (shared w) in
  let seen := owner_seen w in
  (forall conn_evt,
      after (thread_round conn_evt) w
        (fun _ w' => owner_step me_ seen (_owner (shared w')))
        (fun w' => owner_step me_ seen (_owner (shared w'))))
  /\ after close w
       (fun _ w' => _owner (shared w') = o \/ owner_step me_ seen (_owner (shared w')))
       (fun w' => _owner (shared w') = o \/ owner_step me_ seen (_owner (shared w')))
  /\ (forall o', owner_step me_ seen o' ->
        fr_id_nonempty seen = true -> fr_id_eqb seen me_ = false -> o' = seen)
  /\ (forall flags,
        after (open flags) w (fun _ w' => _owner (shared w') = o)
          (fun w' => _owner (shared w') = o))
  /\ (forall in_ptr len,
        after (raw_read in_ptr len) w
          (fun _ w' => _owner (shared w') = o \/ _owner (shared w') = seen)
          (fun w' => _owner (shared w') = o \/ _owner (shared w') = seen))
  /\ (forall ptr len,
        after (raw_write ptr len) w (fun _ w' => _owner (shared w') = o)
          (fun w' => _owner (shared w') = o)).
Proof.
  intros me_ o seen.
  assert (Hkept : forall A (m : M A) w1 (P : fifo_reader_id_t -> Prop),
            keeps_owner m -> P (_owner (shared w1)) ->
            after m w1 (fun _ w' => P (_owner (shared w'))) (fun w' => P (_owner (shared w')))).
  { intros A m w1 P Hm HP.
    eapply after_mono; [apply (keeps_owner_same m w1 Hm)| |]; cbn beta;
      intros; congruence. }
  split; [|split; [|split; [|split; [|split]]]].
  - intros conn_evt. unfold thread_round.
    apply after_bind, after_get_self. fold me_.
    apply after_bind.
    eapply after_mono; [apply owner_lock_sees| |intros w1 H; exact H].
    cbn beta. intros _ w1 Hseen. fold seen in Hseen.
    unfold get_owner at 1. apply after_bind, after_bind, after_get_shared, after_ret.
    destruct (fr_id_nonempty (_owner (shared w1))) eqn:Hne; cbn [negb].
    + destruct (fr_id_eqb (_owner (shared w1)) me_);
        (apply Hkept; [keeps|left; exact Hseen]).
    + unfold set_owner, owner_unlock. repeat after_step. cbn.
      right; left. rewrite <- Hseen. auto.
  - unfold close. apply after_bind, after_get_self. fold me_.
    apply after_bind.
    apply (after_mono _ _
             (fun _ w' => _owner (shared w') = o \/ owner_step me_ seen (_owner (shared w')))
             (fun w' => _owner (shared w') = o \/ owner_step me_ seen (_owner (shared w'))));
      [|cbn beta; intros _ w' Hw';
        apply (Hkept _ _ _ (fun x => x = o \/ owner_step me_ seen x)); [keeps|exact Hw']|auto].
    destruct (reader (self w)); [|apply after_ret; left; reflexivity].
    assert (Hu : undisturbed o (next_owner_answer (script w)) w) by (split; reflexivity).
    repeat skip_call.
    apply after_bind.
    eapply after_mono; [apply owner_lock_sees| |intros w1 H; exact H].
    cbn beta. intros _ w1 Hseen.
    assert (Hseen' : _owner (shared w1) = seen).
    { rewrite Hseen. unfold seen, owner_seen. destruct Hu as [-> ->]. reflexivity. }
    clear Hseen Hu.
    unfold get_owner at 1. apply after_bind, after_bind, after_get_shared, after_ret.
    apply after_bind.
    apply (after_mono _ _
             (fun _ w' => _owner (shared w') = o \/ owner_step me_ seen (_owner (shared w')))
             (fun w' => _owner (shared w') = o \/ owner_step me_ seen (_owner (shared w'))));
      [|cbn beta; intros _ w2 Hw2;
        apply (Hkept _ _ _ (fun x => x = o \/ owner_step me_ seen x)); [keeps|exact Hw2]|auto].
    lazymatch goal with
    | |- after (if ?c then _ else _) _ _ _ => destruct c eqn:Heq
    end.
    + unfold set_owner. repeat after_step. cbn.
      right; right; right. rewrite <- Hseen'. auto.
    + apply after_ret. right; left. exact Hseen'.
  - intros o' [->|[[Hne _]|[Heq _]]] Hne' Heq'; congruence.
  - intros flags. apply (Hkept _ _ _ (fun x => x = o)); [apply keeps_open|reflexivity].
  - intros in_ptr len. unfold raw_read.
    destruct (len =? 0); [apply after_ret; left; reflexivity|].
    apply after_bind, after_get_self. apply after_bind.
    eapply after_mono; [apply owner_lock_sees| |intros w1 H; exact H].
    cbn beta. intros _ w1 Hseen. fold seen in Hseen.
    apply (Hkept _ _ _ (fun x => x = o \/ x = seen)); [keeps|right; exact Hseen].
  - intros ptr len. apply (Hkept _ _ _ (fun x => x = o)); [apply keeps_raw_write|reflexivity].
Qed.

(** ** Opening a second reader *)

Lemma returns_create_event w s h rest (Q : HANDLE -> world -> Prop) :
  script w = A_nt s h :: rest ->
  (forall e, Q h (with_errno e (with_script rest (logged Ev_NtCreateEvent w)))) ->
  returns create_event w Q.
Proof.
  intros Hs HQ. unfold create_event. run.
  destruct (NT_SUCCESS s); cbn [negb]; unfold __seterrno_from_nt_status; run.
  - lazymatch goal with
    | |- Q h ?W => replace W with (with_errno (errno W) W) by (destruct w; reflexivity)
    end.
    apply HQ.
  - apply HQ.
Qed.

(** The world of a run, with the calls made so far folded into its fields. *)
Ltac tidy :=
  lazymatch goal with
  | |- returns ?m ?w ?Q =>
      let w' := eval cbn [self shared errno script trace with_self with_shared
                          with_errno with_script with_trace logged] in w in
      change (returns m w' Q)
  | _ => idtac
  end.

Ltac run_open :=
  repeat (lazymatch goal with
          | |- returns create_event _ _ => eapply returns_create_event; [script_eq|intros ?]
          | _ => run_step
          end; tidy).

(** X24.  What a failing [open] for reading does itself.  While a reader
    of the FIFO is open (the count of readers in the shared segment is
    positive when the opening endpoint looks at it, and not zero when it
    looks again on its way out), an [open] for reading that has set up
    its own events, shared memory view and listener thread fails with
    ENOTSUP.  It cancels its own listener thread and closes its own
    handles; it does not write the count of readers, it never takes the
    owner lock, and [read_ready] is not reset.  What the listener thread
    does to the owner record between its start and its cancellation is
    not part of the call: see [thread_round]. *)
Theorem open_second_reader flags w rr wr x s2 sect s3 addr s4 le s5 ce s6 st pid seen seen'
    rest :
  let n := default (_nreaders (shared w)) seen in
  let n' := default n seen' in
  has_flag flags O_PATH = false ->
  Z.land flags O_ACCMODE = O_RDONLY \/ Z.land flags O_ACCMODE = O_RDWR ->
  rr <> NULL -> wr <> NULL -> NT_SUCCESS s2 = true -> NT_SUCCESS s3 = true ->
  le <> NULL -> ce <> NULL -> st <> NULL ->
  script w =
    [A_handle rr; A_handle wr; A_bool true;
     A_nt STATUS_OBJECT_NAME_COLLISION x; A_nt s2 sect; A_nt s3 addr;
     A_nt s4 le; A_nt s5 ce; A_nt s6 st; A_dword pid;
     A_reader_locked seen; A_reader_locked seen'] ++ rest ->
  0 < n -> n' <> 0 ->
  exists w', open flags w = Done 0 w'
    /\ errno w' = ENOTSUP
    /\ shared w' = {| _owner := _owner (shared w); _nreaders := n' |}
    /\ script w' = rest
    /\ trace w' = trace w ++
         [Ev_CreateEvent true (Some r_event); Ev_CreateEvent true (Some w_event);
          Ev_SetEvent rr;
          Ev_NtCreateSection; Ev_NtOpenSection; Ev_NtMapViewOfSection;
          Ev_NtCreateEvent; Ev_NtCreateEvent; Ev_NtCreateEvent;
          Ev_GetCurrentProcessId; Ev_new_cygthread st;
          Ev_lock reader_lock_id; Ev_unlock reader_lock_id;
          Ev_SetEvent ce; Ev_WaitForSingleObject st; Ev_NtClose st;
          Ev_lock reader_lock_id; Ev_unlock reader_lock_id;
          Ev_NtClose st; Ev_NtClose ce; Ev_NtClose le;
          Ev_NtUnmapViewOfSection addr; Ev_NtClose sect;
          Ev_NtClose wr; Ev_NtClose rr]
         ++ (if io_handle (self w) =? NULL then [] else [Ev_NtClose (io_handle (self w))]).
Proof.
  intros n n' Hpath Hacc Hrr Hwr Hs2 Hs3 Hle Hce Hst Hs Hn Hn'.
  apply Z.eqb_neq in Hrr, Hwr, Hle, Hce, Hst, Hn'. apply Z.ltb_lt in Hn.
  subst n n'. apply returns_value. unfold open. rewrite Hpath. cbv zeta.
  destruct (duplexer (self w)) eqn:Hdup, (io_handle (self w) =? NULL) eqn:Hio,
    Hacc as [Hacc|Hacc]; rewrite Hacc.
  all: run_open.
  all: cbn -[Z.eqb]; rewrite ?Hio; repeat split; try reflexivity.
  all: rewrite <- ?app_assoc; try reflexivity.
Qed.

(** * Further properties *)

(** ** The table of client handlers *)

Lemma array_memmove_length {A} (a : list A) i n :
  (i < n <= length a)%nat ->
  length (array_memmove a i (i + 1) (Nat.pred n - i)) = length a.
Proof.
  intros H. unfold array_memmove. rewrite !length_app, !length_take, !length_drop. lia.
Qed.

Lemma array_memmove_delete {A} (a : list A) i n :
  (i < n <= length a)%nat ->
  take (Nat.pred n) (array_memmove a i (i + 1) (Nat.pred n - i)) = delete i (take n a).
Proof.
  intros H. unfold array_memmove.
  rewrite delete_take_drop, take_take, Nat.min_l by lia.
  rewrite app_assoc, take_app_length'
    by (rewrite length_app, !length_take, length_drop; lia).
  f_equal. replace (i + 1)%nat with (S i) by lia.
  rewrite take_drop_commute. do 2 f_equal. lia.
Qed.

Lemma take_pred_delete_last {A} (a : list A) n :
  (0 < n <= length a)%nat -> take (Nat.pred n) a = delete (Nat.pred n) (take n a).
Proof.
  intros H. rewrite delete_take_drop, take_take, Nat.min_l by lia.
  rewrite drop_ge by (rewrite length_take; lia). rewrite app_nil_r. reflexivity.
Qed.

Lemma delete_client_handler_at i w :
  (i < nhandlers (self w))%nat ->
  table_in_bounds (self w) ->
  exists w', delete_client_handler i w = Done tt w'
    /\ handlers (self w') = delete i (handlers (self w))
    /\ nhandlers (self w') = Nat.pred (nhandlers (self w))
    /\ length (fc_handler (self w')) = length (fc_handler (self w))
    /\ nconnected (self w') = nconnected (self w)
    /\ trace w' = trace w ++ [Ev_NtClose (h (fc_at (self w) i))]
    /\ script w' = script w /\ shared w' = shared w /\ errno w' = errno w.
Proof.
  intros Hi Hb. unfold table_in_bounds in Hb.
  apply returns_value with (r := tt). unfold delete_client_handler, fifo_client_handler_close.
  run.
  destruct (Nat.ltb_spec i (Nat.pred (nhandlers (self w)))) as [Hlt|Hge]; run;
    unfold handlers; cbn;
    (split; [reflexivity|]); repeat split.
  - apply array_memmove_delete. lia.
  - apply array_memmove_length. lia.
  - replace i with (Nat.pred (nhandlers (self w))) by lia.
    apply take_pred_delete_last. lia.
Qed.

Lemma handlers_lookup f i :
  (i < nhandlers f)%nat -> table_in_bounds f ->
  handlers f !! i = Some (fc_at f i).
Proof.
  intros Hi Hb. unfold handlers, fc_at, table_in_bounds in *.
  rewrite lookup_take_lt by lia.
  destruct (fc_handler f !! i) eqn:E; [reflexivity|].
  apply lookup_ge_None in E. lia.
Qed.

Lemma handlers_length f : table_in_bounds f -> length (handlers f) = nhandlers f.
Proof. unfold handlers, table_in_bounds. rewrite length_take. lia. Qed.

(** X1.  Deleting the entry [i] of the table closes its handle and moves the
    entries after it down by one: the entries in use are the old ones
    without the [i]-th, in their order, so that an entry below [i] stays
    where it was and the entry [k >= i] is the old entry [k + 1].  The
    count of connected entries is not touched. *)
Theorem delete_client_handler_removes i w :
  (i < nhandlers (self w))%nat ->
  table_in_bounds (self w) ->
  exists w', delete_client_handler i w = Done tt w'
    /\ handlers (self w') = delete i (handlers (self w))
    /\ nhandlers (self w') = Nat.pred (nhandlers (self w))
    /\ (forall k, (k < Nat.pred (nhandlers (self w)))%nat ->
          fc_at (self w') k = fc_at (self w) (if (k <? i)%nat then k else S k))
    /\ table_in_bounds (self w')
    /\ nconnected (self w') = nconnected (self w)
    /\ trace w' = trace w ++ [Ev_NtClose (h (fc_at (self w) i))]
    /\ script w' = script w /\ shared w' = shared w /\ errno w' = errno w.
Proof.
  intros Hi Hb.
  destruct (delete_client_handler_at i w Hi Hb)
    as (w' & Hrun & Hh & Hnh & Hlen & Hnc & Htr & Hrest).
  assert (Hb' : table_in_bounds (self w')) by (unfold table_in_bounds in *; lia).
  exists w'. repeat split; try tauto.
  intros k Hk.
  pose proof (handlers_lookup (self w') k ltac:(lia) Hb') as Hk'.
  rewrite Hh in Hk'.
  destruct (Nat.ltb_spec k i) as [Hlt|Hge].
  - rewrite list_lookup_delete_lt in Hk' by lia.
    rewrite (handlers_lookup (self w) k ltac:(lia) Hb) in Hk'. congruence.
  - rewrite list_lookup_delete_ge in Hk' by lia.
    rewrite (handlers_lookup (self w) (S k) ltac:(lia) Hb) in Hk'. congruence.
Qed.

(** The loop of the listener thread that drops the invalid entries, from
    the entry [i] on. *)
Lemma delete_invalid_clients_from rounds : forall i w,
  (i + rounds = nhandlers (self w))%nat ->
  table_in_bounds (self w) ->
  exists w', delete_invalid_clients rounds i w = Done tt w'
    /\ handlers (self w') =
         take i (handlers (self w))
         ++ List.filter (fun fc => negb (is_fc_invalid fc)) (drop i (handlers (self w)))
    /\ table_in_bounds (self w')
    /\ nconnected (self w') = nconnected (self w)
    /\ trace w' = trace w
         ++ map (fun fc => Ev_NtClose (h fc))
              (List.filter is_fc_invalid (drop i (handlers (self w))))
    /\ script w' = script w /\ shared w' = shared w /\ errno w' = errno w.
Proof.
  induction rounds as [|rounds IH]; intros i w Hn Hb.
  - exists w. split; [reflexivity|].
    pose proof (handlers_length _ Hb) as Hlen.
    rewrite drop_ge, take_ge by lia. cbn. rewrite !app_nil_r. auto 10.
  - pose proof (handlers_lookup (self w) i ltac:(lia) Hb) as Hi.
    pose proof (drop_S _ _ _ Hi) as Hdrop.
    cbn [delete_invalid_clients]. unfold mbind at 1, M_bind, bind, get_self.
    destruct (is_fc_invalid (fc_at (self w) i)) eqn:Hinv.
    + destruct (delete_client_handler_at i w ltac:(lia) Hb)
        as (w1 & Hrun & Hh & Hnh & Hlen & Hnc & Htr & Hsc & Hsh & Herr).
      unfold mbind, M_bind, bind. rewrite Hrun.
      assert (Hb1 : table_in_bounds (self w1)).
      { unfold table_in_bounds in *. lia. }
      destruct (IH i w1 ltac:(lia) Hb1)
        as (w' & Hrun' & Hh' & Hb' & Hnc' & Htr' & Hsc' & Hsh' & Herr').
      exists w'. split; [exact Hrun'|].
      rewrite Hh', Htr', Hh, Htr, Hdrop. cbn [List.filter map]. rewrite Hinv. cbn [negb].
      pose proof (handlers_length _ Hb) as Hlen0.
      rewrite delete_take_drop, take_app_length' by (rewrite length_take; lia).
      rewrite drop_app_length' by (rewrite length_take; lia).
      rewrite <- app_assoc. cbn [app]. repeat split; auto; congruence.
    + destruct (IH (S i) w ltac:(lia) Hb)
        as (w' & Hrun' & Hh' & Hb' & Hnc' & Htr' & Hsc' & Hsh' & Herr').
      exists w'. split; [exact Hrun'|].
      rewrite Hh', Htr', Hdrop. cbn [List.filter map]. rewrite Hinv. cbn [negb].
      rewrite (take_S_r _ _ _ Hi), <- app_assoc. cbn [app]. auto 10.
Qed.

(** X2.  When the listener thread has dropped the invalid entries, the entries
    in use are the old ones that were not invalid, in their order; the
    handles of the dropped ones are closed, and nothing else is done. *)
Theorem delete_invalid_clients_filters w :
  table_in_bounds (self w) ->
  exists w', delete_invalid_clients (nhandlers (self w)) 0 w = Done tt w'
    /\ handlers (self w') =
         List.filter (fun fc => negb (is_fc_invalid fc)) (handlers (self w))
    /\ Forall (fun fc => is_fc_invalid fc = false) (handlers (self w'))
    /\ table_in_bounds (self w')
    /\ nconnected (self w') = nconnected (self w)
    /\ trace w' = trace w
         ++ map (fun fc => Ev_NtClose (h fc)) (List.filter is_fc_invalid (handlers (self w)))
    /\ script w' = script w /\ shared w' = shared w /\ errno w' = errno w.
Proof.
  intros Hb.
  destruct (delete_invalid_clients_from (nhandlers (self w)) 0 w ltac:(lia) Hb)
    as (w' & Hrun & Hh & Hb' & Hnc & Htr & Hrest).
  rewrite take_0, drop_0 in Hh. rewrite drop_0 in Htr. cbn [app] in Hh.
  exists w'. repeat split; try tauto.
  rewrite Hh. apply Forall_forall. intros fc Hin.
  apply list_elem_of_In, filter_In in Hin as [_ Hv]. apply negb_true_iff in Hv. exact Hv.
Qed.

(** How the count of connected entries changes when one entry is replaced. *)
Lemma count_connected_insert (l : list fifo_client_handler) i x y :
  l !! i = Some y ->
  count_connected (<[i := x]> l) =
    count_connected l - (if is_fc_connected y then 1 else 0)
    + (if is_fc_connected x then 1 else 0).
Proof.
  intros Hi. pose proof (lookup_lt_Some _ _ _ Hi) as Hlt.
  rewrite insert_take_drop by exact Hlt.
  rewrite <- (take_drop_middle l i y Hi) at 3.
  unfold count_connected. rewrite !List.filter_app. cbn [List.filter].
  destruct (is_fc_connected x), (is_fc_connected y);
    rewrite !length_app; cbn [length]; lia.
Qed.

Lemma count_connected_delete (l : list fifo_client_handler) i y :
  l !! i = Some y ->
  count_connected (delete i l) = count_connected l - (if is_fc_connected y then 1 else 0).
Proof.
  intros Hi. rewrite delete_take_drop.
  rewrite <- (take_drop_middle l i y Hi) at 3.
  unfold count_connected. rewrite !List.filter_app. cbn [List.filter].
  destruct (is_fc_connected y); rewrite !length_app; cbn [length]; lia.
Qed.

Lemma count_connected_valid (l : list fifo_client_handler) :
  count_connected (List.filter (fun fc => negb (is_fc_invalid fc)) l) = count_connected l.
Proof.
  unfold count_connected. f_equal. f_equal.
  induction l as [|[hdl st] l IH]; [reflexivity|].
  destruct st; cbn; rewrite ?IH; reflexivity.
Qed.

(** X3.  A new entry is appended to the entries in use, listening on a pipe
    instance created in blocking mode; the first instance of the FIFO is
    created, the later ones are opened as further instances of it. *)
Theorem add_client_handler_appends w s1 npfsh s2 ph rest :
  (nhandlers (self w) < MAX_CLIENTS)%nat ->
  (nhandlers (self w) < length (fc_handler (self w)))%nat ->
  script w = A_nt s1 npfsh :: A_nt s2 ph :: rest ->
  NT_SUCCESS s1 = true -> NT_SUCCESS s2 = true -> ph <> NULL ->
  exists w', add_client_handler w = Done 0 w'
    /\ handlers (self w') = handlers (self w) ++ [{| h := ph; state := fc_listening |}]
    /\ nhandlers (self w') = S (nhandlers (self w))
    /\ table_in_bounds (self w')
    /\ nconnected (self w') = nconnected (self w)
    /\ (table_counted (self w) -> table_counted (self w'))
    /\ trace w' = trace w
         ++ [Ev_npfs_handle;
             Ev_NtCreateNamedPipeFile
               (if (nhandlers (self w) =? 0)%nat then FILE_CREATE else FILE_OPEN)
               FILE_PIPE_QUEUE_OPERATION]
    /\ script w' = rest /\ shared w' = shared w /\ errno w' = errno w.
Proof.
  intros Hmax Hlen Hs Hs1 Hs2 Hph.
  assert (Hfull : (nhandlers (self w) =? MAX_CLIENTS)%nat = false)
    by (apply Nat.eqb_neq; lia).
  apply Z.eqb_neq in Hph.
  apply returns_value. unfold add_client_handler, create_pipe_instance, npfs_handle.
  cbv zeta. run.
  unfold handlers, table_in_bounds. cbn. rewrite length_insert, <- app_assoc.
  assert (Happ : take (S (nhandlers (self w)))
                   (<[nhandlers (self w) := {| h := ph; state := fc_listening |}]>
                      (fc_handler (self w)))
                 = take (nhandlers (self w)) (fc_handler (self w))
                   ++ [{| h := ph; state := fc_listening |}]).
  { rewrite take_insert_lt by lia.
    rewrite (take_S_r _ _ (fc_at (self w) (nhandlers (self w)))).
    - rewrite insert_app_r_alt by (rewrite length_take; lia).
      rewrite length_take, Nat.min_l, Nat.sub_diag by lia. reflexivity.
    - unfold fc_at.
      destruct (fc_handler (self w) !! nhandlers (self w)) eqn:E; [reflexivity|].
      apply lookup_ge_None in E. lia. }
  split; [reflexivity|]. repeat split; try lia; try exact Happ.
  unfold table_counted, handlers. cbn. intros ->. rewrite Happ.
  unfold count_connected. rewrite List.filter_app, length_app. cbn. lia.
Qed.


(** X4.  [nconnected] stays the number of connected entries through what the
    listener thread does to the table: dropping the invalid entries,
    deleting an entry that is not connected, and recording a connection
    on an entry that was not connected. *)
Theorem table_counted_listener w :
  table_in_bounds (self w) ->
  table_counted (self w) ->
  (exists w', delete_invalid_clients (nhandlers (self w)) 0 w = Done tt w'
     /\ table_counted (self w') /\ table_in_bounds (self w'))
  /\ (forall i, (i < nhandlers (self w))%nat ->
        is_fc_connected (fc_at (self w) i) = false ->
        (exists w', delete_client_handler i w = Done tt w'
           /\ table_counted (self w') /\ table_in_bounds (self w'))
        /\ (exists w', record_connection i w = Done tt w'
              /\ table_counted (self w') /\ table_in_bounds (self w')
              /\ handlers (self w') =
                   <[i := {| h := h (fc_at (self w) i); state := fc_connected |}]>
                     (handlers (self w))
              /\ nconnected (self w') = nconnected (self w) + 1)).
Proof.
  intros Hb Hc. split.
  - destruct (delete_invalid_clients_from (nhandlers (self w)) 0 w ltac:(lia) Hb)
      as (w' & Hrun & Hh & Hb' & Hn & _).
    rewrite take_0, drop_0 in Hh. cbn [app] in Hh.
    exists w'. split; [exact Hrun|]. split; [|exact Hb'].
    unfold table_counted in *. rewrite Hn, Hh, count_connected_valid. exact Hc.
  - intros i Hi Hnc. pose proof (handlers_lookup _ i Hi Hb) as Hlk. split.
    + destruct (delete_client_handler_at i w Hi Hb)
        as (w' & Hrun & Hh & Hnh & Hlen & Hn & _).
      exists w'. split; [exact Hrun|]. unfold table_counted, table_in_bounds in *.
      rewrite Hn, Hh, (count_connected_delete _ _ _ Hlk), Hnc. split; lia.
    + apply returns_value. unfold record_connection, set_pipe_non_blocking. run.
      split; [reflexivity|].
      unfold table_counted, table_in_bounds, handlers, set_fc_state in *. cbn.
      rewrite length_insert, take_insert_lt by lia.
      rewrite (count_connected_insert _ _ _ _ Hlk), Hnc. cbn.
      repeat split; lia.
Qed.

(** ** Reading: the count of connected writers *)

Lemma mark_invalid_ok f i :
  table_ok f -> (i < nhandlers f)%nat -> is_fc_connected (fc_at f i) = true ->
  table_ok (set_nconnected (nconnected (set_fc_state i fc_invalid f) - 1)
              (set_fc_state i fc_invalid f)).
Proof.
  intros [Hb Hc] Hi Hconn. pose proof (handlers_lookup f i Hi Hb) as Hlk.
  unfold table_ok, table_counted, table_in_bounds, handlers, set_fc_state in *. cbn.
  rewrite length_insert, take_insert_lt by lia.
  rewrite (count_connected_insert _ _ _ _ Hlk), Hconn. cbn. split; lia.
Qed.

Lemma tables_ok_asked w a rest e :
  tables_ok w -> script w = a :: rest -> tables_ok (with_script rest (logged e w)).
Proof.
  intros [Hf Hs] Heq. split; [exact Hf|]. cbn. rewrite Heq in Hs.
  eapply Forall_cons_1, Hs.
Qed.

(** Polling marks a client that has gone away invalid and takes it off the
    count, so the count stays the number of connected entries. *)
Lemma poll_clients_counted left : forall i in_ptr len w,
  (i + left = nhandlers (self w))%nat ->
  tables_ok w ->
  after (poll_clients left i in_ptr len) w
    (fun _ w' => tables_ok w' /\ nhandlers (self w') = nhandlers (self w)) (fun _ => False).
Proof.
  induction left as [|left IH]; intros i in_ptr len w Hn Hok; cbn [poll_clients].
  - split; [exact Hok|reflexivity].
  - apply after_bind, after_get_self.
    destruct (is_fc_connected (fc_at (self w) i)) eqn:Hc; [|apply IH; [lia|exact Hok]].
    unfold NtReadFile. apply after_bind, after_transfer_within, after_ask_io.
    intros st ios inf rest Hs _.
    pose proof (tables_ok_asked w _ rest
                  (Ev_NtReadFile (get_fc_handle (self w) i) in_ptr (to_ULONG len)) Hok Hs)
      as Hok1.
    set (w1 := with_script rest _) in *.
    assert (Hn1 : (S i + left = nhandlers (self w1))%nat) by (cbn; lia).
    assert (Hrec : forall w2, tables_ok w2 -> nhandlers (self w2) = nhandlers (self w) ->
              after (poll_clients left (S i) in_ptr len) w2
                (fun _ w' => tables_ok w' /\ nhandlers (self w') = nhandlers (self w))
                (fun _ => False)).
    { intros w2 Hok2 Hn2. eapply after_mono; [apply (IH (S i) in_ptr len w2); [lia|exact Hok2]| |auto].
      cbn beta. intros _ w' [H1 H2]. split; [exact H1|congruence]. }
    cbn beta iota.
    destruct ((st =? STATUS_SUCCESS) || (st =? STATUS_BUFFER_OVERFLOW)).
    { destruct (0 <? inf).
      - unfold fifo_client_unlock. repeat after_step. split; [exact Hok1|reflexivity].
      - apply Hrec; [exact Hok1|reflexivity]. }
    destruct (st =? STATUS_PIPE_EMPTY); [apply Hrec; [exact Hok1|reflexivity]|].
    destruct (st =? STATUS_PIPE_BROKEN).
    + do 2 (apply after_bind, after_upd_self).
      apply Hrec; [|reflexivity].
      split; [|exact (proj2 Hok1)].
      apply (mark_invalid_ok (self w) i); [exact (proj1 Hok)|lia|exact Hc].
    + unfold __seterrno_from_nt_status, fifo_client_unlock. repeat after_step.
      split; [|reflexivity]. split; [|exact (proj2 Hok1)].
      apply (mark_invalid_ok (self w) i); [exact (proj1 Hok)|lia|exact Hc].
Qed.

Section KeepsTables.
Context {A : Type}.

Lemma kt_ret (a : A) : keeps_tables (mret a).
Proof. intros w H. exact H. Qed.

Lemma kt_bind {B} (m : M B) (k : B -> M A) :
  keeps_tables m -> (forall b, keeps_tables (k b)) -> keeps_tables (m ≫= k).
Proof.
  intros Hm Hk w H. apply after_bind.
  eapply after_mono; [apply Hm, H| |auto].
  intros b w' H'. apply Hk, H'.
Qed.

Lemma kt_stuck : keeps_tables (stuck : M A).
Proof. intros w H. exact I. Qed.

Lemma kt_exit : keeps_tables (static_cancel_self : M A).
Proof. intros w H. exact H. Qed.

End KeepsTables.

Lemma kt_get_self : keeps_tables get_self.
Proof. intros w H. exact H. Qed.
Lemma kt_get_shared : keeps_tables get_shared.
Proof. intros w H. exact H. Qed.
Lemma kt_put_shared s : keeps_tables (put_shared s).
Proof. intros w H. exact H. Qed.
Lemma kt_set_errno e : keeps_tables (set_errno e).
Proof. intros w H. exact H. Qed.
Lemma kt_remaining : keeps_tables remaining.
Proof. intros w H. exact H. Qed.
Lemma kt_tell e : keeps_tables (tell e).
Proof. intros w H. exact H. Qed.
Lemma kt_ask e : keeps_tables (ask e).
Proof.
  intros w H. apply after_ask. intros a rest Hs. eapply tables_ok_asked; eassumption.
Qed.

Create HintDb tables discriminated.
#[local] Hint Resolve kt_get_self kt_get_shared kt_put_shared kt_set_errno kt_remaining
  kt_tell kt_ask : tables.

(** The structural proof that a call keeps the table counted. *)
Ltac tables :=
  repeat lazymatch goal with
  | |- keeps_tables (mret _) => apply kt_ret
  | |- keeps_tables (_ ≫= _) => apply kt_bind; [|intros ?]
  | |- keeps_tables stuck => apply kt_stuck
  | |- keeps_tables static_cancel_self => apply kt_exit
  | |- keeps_tables (if ?b then _ else _) => destruct b
  | |- keeps_tables (match ?x with _ => _ end) => destruct x
  | |- keeps_tables _ => solve [auto with tables]
  end.

Lemma kt_ask_bool e : keeps_tables (ask_bool e).
Proof. unfold ask_bool. tables. Qed.
Lemma kt_ask_dword e : keeps_tables (ask_dword e).
Proof. unfold ask_dword. tables. Qed.
#[local] Hint Resolve kt_ask_bool kt_ask_dword : tables.
Lemma kt_owner_lock : keeps_tables owner_lock.
Proof. unfold owner_lock. tables. Qed.
Lemma kt_owner_unlock : keeps_tables owner_unlock.
Proof. unfold owner_unlock. tables. Qed.
Lemma kt_get_owner : keeps_tables get_owner.
Proof. unfold get_owner. tables. Qed.
Lemma kt_fifo_client_unlock : keeps_tables fifo_client_unlock.
Proof. unfold fifo_client_unlock. tables. Qed.
Lemma kt_is_nonblocking : keeps_tables is_nonblocking.
Proof. unfold is_nonblocking. tables. Qed.
Lemma kt_isclosed : keeps_tables isclosed.
Proof. unfold isclosed. tables. Qed.
Lemma kt_raw_read_errout : keeps_tables raw_read_errout.
Proof. unfold raw_read_errout. tables. Qed.

(** The table the reading thread finds when it takes the table lock is
    the one the listener thread left, which is counted. *)
Lemma kt_fifo_client_lock : keeps_tables fifo_client_lock.
Proof.
  intros w Hok. unfold fifo_client_lock. apply after_bind, after_ask.
  intros a rest Hs.
  pose proof (tables_ok_asked w a rest (Ev_lock fifo_client_lock_id) Hok Hs) as Hok1.
  destruct Hok as [_ Hall]. rewrite Hs in Hall. apply Forall_cons in Hall as [Ha _].
  destruct a as [| | | | | | | | |[t|]]; try exact I; [|exact Hok1].
  apply after_upd_self. split; [|exact (proj2 Hok1)].
  destruct t as [n l c]. exact Ha.
Qed.
#[local] Hint Resolve kt_owner_lock kt_owner_unlock kt_get_owner
  kt_fifo_client_lock kt_fifo_client_unlock kt_is_nonblocking kt_isclosed
  kt_raw_read_errout : tables.

Lemma kt_hit_eof : keeps_tables hit_eof.
Proof. unfold hit_eof, hit_eof_round. tables. Qed.

Lemma kt_poll_clients w in_ptr len :
  tables_ok w ->
  after (poll_clients (nhandlers (self w)) 0 in_ptr len) w (fun _ w' => tables_ok w')
    tables_ok.
Proof.
  intros Hok.
  eapply after_mono; [apply (poll_clients_counted _ 0 in_ptr len w); [lia|exact Hok]| |];
    cbn beta; tauto.
Qed.
#[local] Hint Resolve kt_hit_eof : tables.

Lemma kt_raw_read_loop fuel : forall in_ptr len, keeps_tables (raw_read_loop fuel in_ptr len).
Proof.
  induction fuel as [|fuel IH]; intros in_ptr len; cbn [raw_read_loop]; [tables|].
  apply kt_bind; [tables|]. intros eof. destruct eof; [tables|].
  apply kt_bind; [tables|]. intros _.
  intros w Hok. apply after_bind, after_get_self. apply after_bind.
  eapply after_mono; [apply kt_poll_clients, Hok| |auto].
  cbn beta. intros r w1 Hok1. revert w1 Hok1.
  lazymatch goal with
  | |- forall w1, tables_ok w1 -> after ?m w1 _ _ => change (keeps_tables m)
  end.
  tables.
Qed.

(** X5.  A read keeps [nconnected] the number of connected entries of the
    table, whatever it reads and however it ends, when the tables the
    listener thread leaves behind are counted. *)
Theorem raw_read_keeps_count in_ptr len w :
  tables_ok w ->
  after (raw_read in_ptr len) w (fun _ w' => tables_ok w') tables_ok.
Proof.
  revert w. change (keeps_tables (raw_read in_ptr len)).
  pose proof kt_raw_read_loop. unfold raw_read. tables.
Qed.

(** ** Reading: which client is read *)

Lemma to_ULONG_nonneg z : 0 <= to_ULONG z.
Proof. unfold to_ULONG. apply Z.mod_pos_bound. lia. Qed.

(** Polling passes over the entries that are not connected and over the
    connected ones that have no data, and leaves the table as it is. *)
Lemma poll_clients_skip in_ptr len k : forall left i w polled rest,
  (k <= left)%nat ->
  (i + left = nhandlers (self w))%nat ->
  table_in_bounds (self w) ->
  script w = polled ++ rest ->
  forallb no_data_answer polled = true ->
  length polled = length (connected_from (self w) i k) ->
  poll_clients left i in_ptr len w
  = poll_clients (left - k) (i + k) in_ptr len
      (moved_on w rest (polls in_ptr len (connected_from (self w) i k))).
Proof.
  induction k as [|k IH]; intros left i w polled rest Hk Hn Hb Hs Hnd Hlen.
  - unfold connected_from in *. rewrite take_0 in *. cbn in Hlen.
    destruct polled; [|discriminate]. cbn in Hs.
    rewrite Nat.sub_0_r, Nat.add_0_r. f_equal.
    destruct w as [f sh e sc tr]. unfold moved_on, polls. cbn in *.
    rewrite app_nil_r. congruence.
  - destruct left as [|left]; [lia|].
    pose proof (handlers_lookup (self w) i ltac:(lia) Hb) as Hi.
    unfold connected_from in *. rewrite (drop_S _ _ _ Hi) in *.
    cbn [take List.filter] in *. cbn [poll_clients].
    unfold mbind at 1, M_bind, bind, get_self.
    replace (i + S k)%nat with (S i + k)%nat by lia. cbn [Nat.sub].
    destruct (is_fc_connected (fc_at (self w) i)) eqn:Hc.
    + destruct polled as [|a polled]; [discriminate|].
      cbn in Hnd. apply andb_true_iff in Hnd as [Ha Hnd].
      destruct a as [| | | | |st ios inf| | | |]; try discriminate.
      cbn in Ha. apply andb_true_iff in Ha as [Hinf Hst].
      apply Z.eqb_eq in Hinf. subst inf.
      pose proof (to_ULONG_nonneg len) as Hlen0. apply Z.leb_le in Hlen0.
      set (w1 := with_script (polled ++ rest)
                   (logged (Ev_NtReadFile (get_fc_handle (self w) i) in_ptr (to_ULONG len)) w)).
      assert (Hrec : poll_clients left (S i) in_ptr len w1
                     = poll_clients (left - k) (S i + k) in_ptr len
                         (moved_on w rest
                            (polls in_ptr len
                               (fc_at (self w) i
                                :: List.filter is_fc_connected
                                     (take k (drop (S i) (handlers (self w)))))))).
      { rewrite (IH left (S i) w1 polled rest ltac:(lia) ltac:(cbn; lia) Hb eq_refl Hnd
                   ltac:(cbn in Hlen |- *; lia)).
        f_equal. unfold moved_on, polls, w1. cbn. rewrite <- app_assoc. reflexivity. }
      unfold NtReadFile, transfer_within, ask_io.
      unfold mbind, M_bind, bind, ask, mret, M_ret, ret. rewrite Hs. cbn [app].
      cbn -[poll_clients Z.eqb Z.ltb Z.leb]. rewrite Hlen0. cbn -[poll_clients Z.eqb Z.ltb].
      fold w1.
      destruct (st =? STATUS_SUCCESS) eqn:E1; [cbn -[poll_clients]; exact Hrec|].
      destruct (st =? STATUS_BUFFER_OVERFLOW) eqn:E2; [cbn -[poll_clients]; exact Hrec|].
      rewrite ?E1, ?E2, ?orb_false_r in Hst. rewrite Hst. cbn -[poll_clients]. exact Hrec.
    + apply (IH left (S i) w polled rest); try assumption; lia.
Qed.

Lemma returns_poll_none in_ptr len w polled rest (Q : poll_result -> world -> Prop) :
  table_in_bounds (self w) ->
  script w = polled ++ rest ->
  forallb no_data_answer polled = true ->
  length polled = length (connected_from (self w) 0 (nhandlers (self w))) ->
  Q poll_none
    (moved_on w rest (polls in_ptr len (connected_from (self w) 0 (nhandlers (self w))))) ->
  returns (poll_clients (nhandlers (self w)) 0 in_ptr len) w Q.
Proof.
  intros Hb Hs Hnd Hlen HQ. unfold returns.
  rewrite (poll_clients_skip in_ptr len (nhandlers (self w)) _ 0 w polled rest);
    try assumption; try lia.
  rewrite Nat.sub_diag. exact HQ.
Qed.

Lemma returns_poll_data in_ptr len j w polled st ios n rest
    (Q : poll_result -> world -> Prop) :
  table_in_bounds (self w) ->
  (j < nhandlers (self w))%nat ->
  is_fc_connected (fc_at (self w) j) = true ->
  script w = polled ++ A_io st ios n :: rest ->
  forallb no_data_answer polled = true ->
  length polled = length (connected_from (self w) 0 j) ->
  (st =? STATUS_SUCCESS) || (st =? STATUS_BUFFER_OVERFLOW) = true ->
  0 < n <= to_ULONG len ->
  Q (poll_data n)
    (moved_on w rest
       (polls in_ptr len (connected_from (self w) 0 j)
        ++ [Ev_NtReadFile (h (fc_at (self w) j)) in_ptr (to_ULONG len);
            Ev_unlock fifo_client_lock_id])) ->
  returns (poll_clients (nhandlers (self w)) 0 in_ptr len) w Q.
Proof.
  intros Hb Hj Hc Hs Hnd Hlen Hst [Hn0 Hn1] HQ. unfold returns.
  rewrite (poll_clients_skip in_ptr len j _ 0 w polled (A_io st ios n :: rest));
    try assumption; try lia.
  destruct (nhandlers (self w) - j)%nat as [|left] eqn:Hleft; [lia|].
  cbn [Nat.add].
  apply Z.ltb_lt in Hn0 as Hn0'. apply Z.leb_le in Hn1 as Hn1'.
  assert (H0 : (0 <=? n) = true) by (apply Z.leb_le; lia).
  lazymatch goal with
  | |- match ?m ?w0 with _ => _ end => change (returns m w0 Q)
  end.
  unfold moved_on. run.
  unfold moved_on in HQ. unfold get_fc_handle, logged, with_script, with_trace. cbn.
  rewrite <- !app_assoc. exact HQ.
Qed.

Lemma set_table_table_of f : set_table (table_of f) f = f.
Proof. destruct f; reflexivity. Qed.

(** Running a read up to the polling of the clients. *)
Ltac run_to_poll :=
  repeat (lazymatch goal with
          | |- returns (poll_clients _ _ _ _) _ _ => fail
          | |- returns (raw_read_loop (S _) _ _) _ _ => run_step
          | |- returns (raw_read_loop ?n _ _) _ _ =>
              let n' := eval cbn in n in progress change n with n'
          | |- _ => run_step
          end; tidy).

(** X6.  A read by the owner in non-blocking mode, with a writer connected and
    no data in any pipe, polls each connected client once, in the order
    of the table, and fails with EAGAIN; the table is left as it is. *)
Theorem raw_read_would_block in_ptr len w polled rest :
  len <> 0 ->
  fr_id_eqb (_owner (shared w)) (me (self w)) = true ->
  has_flag (openflags (self w)) O_NONBLOCK = true ->
  nconnected (self w) <> 0 ->
  table_in_bounds (self w) ->
  script w = A_owner_locked None :: A_client_locked None :: A_client_locked None
             :: polled ++ rest ->
  forallb no_data_answer polled = true ->
  length polled = length (connected_from (self w) 0 (nhandlers (self w))) ->
  exists w', raw_read in_ptr len w = Done (to_size_t (-1)) w'
    /\ errno w' = EAGAIN
    /\ self w' = self w /\ shared w' = shared w /\ script w' = rest
    /\ trace w' = trace w
         ++ [Ev_lock owner_lock_id; Ev_unlock owner_lock_id;
             Ev_lock fifo_client_lock_id; Ev_unlock fifo_client_lock_id;
             Ev_lock fifo_client_lock_id]
         ++ polls in_ptr len (connected_from (self w) 0 (nhandlers (self w)))
         ++ [Ev_unlock fifo_client_lock_id].
Proof.
  intros Hlen Ho Hnb Hnc Hb Hs Hnd Hpl.
  apply Z.eqb_neq in Hlen, Hnc.
  apply returns_value. unfold raw_read. run_to_poll.
  eapply returns_poll_none; [exact Hb|reflexivity|exact Hnd|exact Hpl|].
  unfold moved_on. run.
  cbn. destruct w as [f [o n] e sc tr]. cbn in *.
  rewrite <- !app_assoc, !set_table_table_of. repeat split.
Qed.

(** X7.  A read by the owner returns the bytes of the first connected client
    that has some: the connected clients before it in the table are
    polled and have none, the clients after it are not polled, and the
    table and [errno] are left as they are. *)
Theorem raw_read_first_data in_ptr len j w polled st ios n rest :
  len <> 0 ->
  fr_id_eqb (_owner (shared w)) (me (self w)) = true ->
  nconnected (self w) <> 0 ->
  table_in_bounds (self w) ->
  (j < nhandlers (self w))%nat ->
  is_fc_connected (fc_at (self w) j) = true ->
  script w = A_owner_locked None :: A_client_locked None :: A_client_locked None
             :: polled ++ A_io st ios n :: rest ->
  forallb no_data_answer polled = true ->
  length polled = length (connected_from (self w) 0 j) ->
  (st =? STATUS_SUCCESS) || (st =? STATUS_BUFFER_OVERFLOW) = true ->
  0 < n <= to_ULONG len ->
  exists w', raw_read in_ptr len w = Done n w'
    /\ errno w' = errno w
    /\ self w' = self w /\ shared w' = shared w /\ script w' = rest
    /\ trace w' = trace w
         ++ [Ev_lock owner_lock_id; Ev_unlock owner_lock_id;
             Ev_lock fifo_client_lock_id; Ev_unlock fifo_client_lock_id;
             Ev_lock fifo_client_lock_id]
         ++ polls in_ptr len (connected_from (self w) 0 j)
         ++ [Ev_NtReadFile (h (fc_at (self w) j)) in_ptr (to_ULONG len);
             Ev_unlock fifo_client_lock_id].
Proof.
  intros Hlen Ho Hnc Hb Hj Hc Hs Hnd Hpl Hst Hn.
  apply Z.eqb_neq in Hlen, Hnc.
  apply returns_value. unfold raw_read. run_to_poll.
  eapply (returns_poll_data in_ptr len j);
    [exact Hb|exact Hj|exact Hc|reflexivity|exact Hnd|exact Hpl|exact Hst|exact Hn|].
  unfold moved_on. run.
  cbn. destruct w as [f [o n0] e sc tr]. cbn in *.
  rewrite <- !app_assoc, !set_table_table_of. repeat split.
Qed.

Lemma connected_from_client_gone f j k :
  connected_from (client_gone j f) (S j) k = connected_from f (S j) k.
Proof.
  unfold connected_from, client_gone, handlers, set_fc_state. cbn.
  destruct (decide (j < nhandlers f)%nat) as [Hlt|Hge].
  - rewrite take_insert_lt, drop_insert_lt by lia. reflexivity.
  - rewrite take_insert_ge by lia. reflexivity.
Qed.

Lemma fc_at_client_gone f j :
  (j < length (fc_handler f))%nat -> is_fc_invalid (fc_at (client_gone j f) j) = true.
Proof.
  intros Hj. unfold fc_at, client_gone, set_fc_state. cbn.
  rewrite list_lookup_insert_eq by exact Hj. reflexivity.
Qed.

(** Polling when the client in the entry [j] has gone away: the entry is
    marked invalid and taken off the count, and polling goes on with the
    entries after it. *)
Lemma returns_poll_gone in_ptr len j w polled ios inf polled' rest
    (Q : poll_result -> world -> Prop) :
  table_in_bounds (self w) ->
  (j < nhandlers (self w))%nat ->
  is_fc_connected (fc_at (self w) j) = true ->
  script w = polled ++ A_io STATUS_PIPE_BROKEN ios inf :: polled' ++ rest ->
  forallb no_data_answer polled = true ->
  length polled = length (connected_from (self w) 0 j) ->
  0 <= inf <= to_ULONG len ->
  forallb no_data_answer polled' = true ->
  length polled' = length (connected_from (self w) (S j) (nhandlers (self w) - S j)) ->
  Q poll_none
    {| self := client_gone j (self w); shared := shared w; errno := errno w;
       script := rest;
       trace := trace w
         ++ polls in_ptr len (connected_from (self w) 0 j)
         ++ [Ev_NtReadFile (h (fc_at (self w) j)) in_ptr (to_ULONG len)]
         ++ polls in_ptr len
              (connected_from (self w) (S j) (nhandlers (self w) - S j)) |} ->
  returns (poll_clients (nhandlers (self w)) 0 in_ptr len) w Q.
Proof.
  intros Hb Hj Hc Hs Hnd Hlen [Hi0 Hi1] Hnd' Hlen' HQ. unfold returns.
  rewrite (poll_clients_skip in_ptr len j _ 0 w polled
             (A_io STATUS_PIPE_BROKEN ios inf :: polled' ++ rest));
    try assumption; try lia.
  destruct (nhandlers (self w) - j)%nat as [|left] eqn:Hleft; [lia|].
  cbn [Nat.add].
  apply Z.leb_le in Hi0 as Hi0'. apply Z.leb_le in Hi1 as Hi1'.
  lazymatch goal with
  | |- match ?m ?w0 with _ => _ end => change (returns m w0 Q)
  end.
  unfold moved_on. cbn [poll_clients]. run_to_poll.
  unfold returns.
  lazymatch goal with
  | |- match poll_clients _ _ _ _ ?w1 with _ => _ end =>
      rewrite (poll_clients_skip in_ptr len left left (S j) w1 polled' rest)
  end.
  - rewrite Nat.sub_diag. cbn [poll_clients]. unfold mret, M_ret, ret.
    unfold moved_on. cbn [self shared errno script trace with_self with_script logged
                          with_trace].
    change (set_nconnected _ (set_fc_state j fc_invalid (self w)))
      with (client_gone j (self w)).
    rewrite connected_from_client_gone.
    replace (nhandlers (self w) - S j)%nat with left in HQ by lia.
    unfold get_fc_handle. rewrite <- !app_assoc. exact HQ.
  - lia.
  - cbn. lia.
  - unfold table_in_bounds, set_fc_state in *. cbn. rewrite length_insert. exact Hb.
  - reflexivity.
  - exact Hnd'.
  - cbn [self with_self with_script logged with_trace].
    change (set_nconnected _ (set_fc_state j fc_invalid (self w)))
      with (client_gone j (self w)).
    rewrite connected_from_client_gone.
    rewrite Hlen'. do 2 f_equal. lia.
Qed.

(** X8.  When the last connected writer has gone away, a blocking read by the
    owner finds the pipe broken, marks the entry invalid, sleeps, and
    returns end of file: zero bytes and no error. *)
Theorem raw_read_eof_after_disconnect in_ptr len j w polled ios inf polled' waitret rest :
  len <> 0 ->
  fr_id_eqb (_owner (shared w)) (me (self w)) = true ->
  has_flag (openflags (self w)) O_NONBLOCK = false ->
  nconnected (self w) = 1 ->
  table_in_bounds (self w) ->
  (j < nhandlers (self w))%nat ->
  is_fc_connected (fc_at (self w) j) = true ->
  script w = A_owner_locked None :: A_client_locked None :: A_client_locked None
             :: polled ++ A_io STATUS_PIPE_BROKEN ios inf :: polled'
             ++ A_dword waitret :: A_bool false
             :: A_client_locked None :: A_client_locked None :: rest ->
  forallb no_data_answer polled = true ->
  length polled = length (connected_from (self w) 0 j) ->
  0 <= inf <= to_ULONG len ->
  forallb no_data_answer polled' = true ->
  length polled' = length (connected_from (self w) (S j) (nhandlers (self w) - S j)) ->
  waitret <> WAIT_CANCELED -> waitret <> WAIT_SIGNALED ->
  exists w', raw_read in_ptr len w = Done 0 w'
    /\ errno w' = errno w
    /\ self w' = client_gone j (self w)
    /\ nconnected (self w') = 0
    /\ is_fc_invalid (fc_at (self w') j) = true
    /\ shared w' = shared w /\ script w' = rest
    /\ trace w' = trace w
         ++ [Ev_lock owner_lock_id; Ev_unlock owner_lock_id;
             Ev_lock fifo_client_lock_id; Ev_unlock fifo_client_lock_id;
             Ev_lock fifo_client_lock_id]
         ++ polls in_ptr len (connected_from (self w) 0 j)
         ++ [Ev_NtReadFile (h (fc_at (self w) j)) in_ptr (to_ULONG len)]
         ++ polls in_ptr len (connected_from (self w) (S j) (nhandlers (self w) - S j))
         ++ [Ev_unlock fifo_client_lock_id; Ev_cygwait NULL 0; Ev_isclosed; Ev_Sleep 1;
             Ev_lock fifo_client_lock_id; Ev_unlock fifo_client_lock_id; Ev_Sleep 1;
             Ev_lock fifo_client_lock_id; Ev_unlock fifo_client_lock_id].
Proof.
  intros Hlen Ho Hnb Hnc Hb Hj Hc Hs Hnd Hpl Hinf Hnd' Hpl' Hw1 Hw2.
  apply Z.eqb_neq in Hlen, Hw1, Hw2.
  assert (Hnc' : (nconnected (self w) =? 0) = false) by (rewrite Hnc; reflexivity).
  assert (Hz : (nconnected (self w) - 1 =? 0) = true) by (rewrite Hnc; reflexivity).
  apply returns_value. unfold raw_read. run_to_poll.
  eapply (returns_poll_gone in_ptr len j);
    [exact Hb|exact Hj|exact Hc|reflexivity|exact Hnd|exact Hpl|exact Hinf|exact Hnd'
    |exact Hpl'|].
  run_to_poll.
  cbn. destruct w as [f [o n0] e sc tr]. cbn in *.
  rewrite <- !app_assoc, !set_table_table_of. cbn. rewrite Hnc.
  repeat split. apply fc_at_client_gone. unfold table_in_bounds in Hb. lia.
Qed.

(** ** Writing: what is returned *)

Lemma raw_write_chunk_within evt chunk len0 L w :
  len0 <= SSIZE_MAX ->
  write_within len0 L -> wl_nbytes L < wl_len L ->
  after (raw_write_chunk evt chunk L) w (fun L' _ => write_within len0 L') (fun _ => False).
Proof.
  intros Hmax (Hn & Hb & Hl & Hr) Hlt.
  unfold raw_write_chunk, NtWriteFile, isclosed, __seterrno, __seterrno_from_nt_status,
    get_handle.
  assert (Hl0 : wl_len L = len0) by lia.
  assert (Hlen1 : write_len1 chunk L <= wl_len L - wl_nbytes L).
  { unfold write_len1. unfold SSIZE_MAX in *.
    rewrite (to_size_t_small (wl_len L - wl_nbytes L)) by (unfold SSIZE_MAX; lia).
    destruct (Z.ltb_spec chunk (wl_len L - wl_nbytes L)); [lia|].
    unfold to_ULONG. apply Z.mod_le; lia. }
  set (len1 := write_len1 chunk L) in *. clearbody len1.
  unfold SSIZE_MAX in *.
  repeat (after_step; cbn beta iota);
    unfold write_within; cbn [wl_ptr wl_len wl_nbytes wl_ret wl_status fst snd] in *;
    rewrite ?Hr; zbool;
    rewrite ?to_size_t_small, ?to_ssize_t_small by (unfold SSIZE_MAX; lia);
    repeat case_cmp; lia.
Qed.

Lemma raw_write_loop_within evt chunk len0 fuel : forall L w,
  len0 <= SSIZE_MAX ->
  write_within len0 L ->
  after (raw_write_loop fuel evt chunk L) w (fun L' _ => write_within len0 L')
    (fun _ => False).
Proof.
  induction fuel as [|fuel IH]; intros L w Hmax HL; cbn [raw_write_loop];
    destruct (Z.ltb_spec (wl_nbytes L) (wl_len L)); try exact HL; try exact I.
  apply after_bind. eapply after_mono; [apply raw_write_chunk_within; eassumption| |auto].
  intros L' w' HL'. apply IH; assumption.
Qed.

(** X9.  A write never reports more than it was asked to write: it returns -1
    or a count between 1 and [len], and in non-blocking mode a count of
    at most [max_atomic_write]. *)
Theorem raw_write_within_request ptr len w :
  0 < len <= SSIZE_MAX ->
  after (raw_write ptr len) w
    (fun r _ =>
       r = -1
       \/ (0 < r <= len
           /\ (has_flag (openflags (self w)) O_NONBLOCK = true ->
               r <= max_atomic_write (self w))))
    (fun _ => True).
Proof.
  intros Hlen. unfold raw_write. rewrite (proj2 (Z.eqb_neq len 0)) by lia.
  unfold raw_write_transfer, is_nonblocking, raw_write_chunking.
  apply after_bind, after_bind, after_get_self. apply after_bind, after_bind, after_get_self.
  apply after_ret.
  set (nb := has_flag (openflags (self w)) O_NONBLOCK).
  set (m := max_atomic_write (self w)).
  assert (Hfin : forall evt len0 L w1,
            len0 <= len -> (nb = true -> len0 <= m) ->
            write_within len0 L ->
            after (raw_write_return evt L) w1
              (fun r _ => r = -1 \/ (0 < r <= len /\ (nb = true -> r <= m)))
              (fun _ => True)).
  { intros evt len0 L w1 Hl0 Hnb (Hn & Hb & _ & Hr).
    unfold raw_write_return. repeat (after_step; cbn beta iota); try exact I;
      rewrite Hr; destruct (Z.ltb_spec 0 (wl_nbytes L)); auto; right; split; try lia;
      intros Hnb'; specialize (Hnb Hnb'); lia. }
  assert (Hstart : forall p l, write_within l (raw_write_start p l)).
  { intros p l. unfold write_within, raw_write_start. cbn. repeat split; auto; lia. }
  assert (Hloop : forall fuel evt chunk len0 w1,
            len0 <= len -> (nb = true -> len0 <= m) ->
            after (raw_write_loop fuel evt chunk (raw_write_start ptr len0)) w1
              (fun L w2 =>
                 after (mret (Some (evt, L))) w2
                   (fun t w3 =>
                      after (match t with
                             | Some (evt, L) => raw_write_return evt L
                             | None => mret (-1)
                             end) w3
                        (fun r _ => r = -1 \/ (0 < r <= len /\ (nb = true -> r <= m)))
                        (fun _ => True))
                   (fun _ => True))
              (fun _ => True)).
  { intros fuel evt chunk len0 w1 Hl0 Hnb.
    eapply after_mono;
      [apply (raw_write_loop_within evt chunk len0); [lia|apply Hstart]| |intros ? []].
    cbn beta. intros L w2 HL. apply after_ret. apply (Hfin evt len0); assumption. }
  destruct (Z.leb_spec len m) as [Hle|Hgt]; [|destruct nb eqn:Hnb]; cbn beta iota.
  all: repeat (after_step; cbn beta iota); try exact I; auto.
  all: try (apply Hloop; [lia|intros ?; lia || discriminate]).
  all: try (unfold __seterrno; repeat (after_step; cbn beta iota); auto).
Qed.

Lemma success_not_thread_status st :
  NT_SUCCESS st = true ->
  (st =? STATUS_THREAD_SIGNALED) = false /\ (st =? STATUS_THREAD_CANCELED) = false.
Proof.
  unfold NT_SUCCESS. intros H. apply Z.leb_le in H.
  split; apply Z.eqb_neq; intros ->; vm_compute in H; apply H; reflexivity.
Qed.

Lemma returns_raw_write_loop_stop fuel evt chunk L w (Q : write_locals -> world -> Prop) :
  wl_len L <= wl_nbytes L -> Q L w -> returns (raw_write_loop fuel evt chunk L) w Q.
Proof. intros H HQ. unfold returns. rewrite raw_write_loop_stop by exact H. exact HQ. Qed.

(** Running a write; the loop is left to the lemmas once its rounds are
    not counted by a numeral. *)
Ltac run_write :=
  repeat (lazymatch goal with
          | |- returns (raw_write_loop (S _) _ _ _) _ _ => run_step
          | |- returns (raw_write_loop _ _ _ _) _ _ => fail
          | |- _ => run_step
          end; tidy).

Lemma raw_write_chunking_nonblocking f len :
  raw_write_chunking f true len
  = (to_ULONG (Z.min len (max_atomic_write f)), Z.min len (max_atomic_write f)).
Proof.
  unfold raw_write_chunking. destruct (Z.leb_spec len (max_atomic_write f)).
  - rewrite Z.min_l by lia. reflexivity.
  - rewrite Z.min_r by lia. reflexivity.
Qed.

Lemma write_len1_first ptr l :
  0 <= l <= SSIZE_MAX -> write_len1 (to_ULONG l) (raw_write_start ptr l) = to_ULONG l.
Proof.
  intros H. unfold write_len1, raw_write_start. cbn. rewrite Z.sub_0_r.
  rewrite to_size_t_small by exact H. destruct (_ <? _); reflexivity.
Qed.

(** X10.  A write in non-blocking mode that finds no room in the pipe (the
    platform reports success with zero bytes) fails with EAGAIN after
    that one call, which asks for the whole request or for
    [max_atomic_write] bytes of it: nothing is written and no wait event
    is created. *)
Theorem raw_write_would_block ptr len w st ios rest :
  0 < len <= SSIZE_MAX ->
  0 < max_atomic_write (self w) ->
  has_flag (openflags (self w)) O_NONBLOCK = true ->
  NT_SUCCESS st = true ->
  script w = A_io st ios 0 :: A_bool false :: rest ->
  exists w', raw_write ptr len w = Done (-1) w'
    /\ errno w' = EAGAIN
    /\ self w' = self w /\ shared w' = shared w /\ script w' = rest
    /\ trace w' = trace w
         ++ [Ev_NtWriteFile (io_handle (self w)) NULL ptr
               (to_ULONG (Z.min len (max_atomic_write (self w))));
             Ev_isclosed].
Proof.
  intros Hlen Hm Hnb Hst Hs.
  pose proof (raw_write_chunking_nonblocking (self w) len) as Hch.
  set (len' := Z.min len (max_atomic_write (self w))) in *.
  set (chunk := to_ULONG len') in *.
  assert (Hlen' : 0 < len' <= SSIZE_MAX) by (unfold len'; lia).
  pose proof (write_len1_first ptr len' ltac:(lia)) as Hl1. fold chunk in Hl1.
  assert (Hchunk : 0 <= chunk) by apply to_ULONG_nonneg.
  pose proof (write_len1_nonneg chunk (raw_write_start ptr len') Hchunk) as H1.
  apply Z.leb_le in H1.
  assert (Hl0 : (len =? 0) = false) by (apply Z.eqb_neq; lia).
  assert (Hlt : (0 <? len') = true) by (apply Z.ltb_lt; lia).
  destruct (success_not_thread_status st Hst) as [Hsig Hcan].
  clearbody chunk len'.
  apply returns_value. unfold raw_write, raw_write_transfer. run.
  rewrite Hnb, Hch. cbv beta iota. cbn [negb]. run_write.
  apply returns_raw_write_loop_stop;
    [cbn [wl_len wl_nbytes raw_write_start]; change (to_size_t (0 + 0)) with 0;
     rewrite Z.eqb_refl; lia|].
  run_write.
  cbn. rewrite <- ?app_assoc, Hl1. repeat split.
Qed.

(** X11.  In any round of the write loop of a blocking write, a signal that
    arrives while the chunk is pending ends the loop without another
    call.  The write then returns what it had written before, and fails
    with EINTR only when that is nothing. *)
Theorem raw_write_interrupted evt chunk fuel L w ios inf rest :
  0 <= wl_nbytes L < wl_len L ->
  wl_len L <= SSIZE_MAX ->
  0 <= chunk ->
  evt <> NULL ->
  wl_ret L = (if 0 <? wl_nbytes L then wl_nbytes L else -1) ->
  0 <= inf <= write_len1 chunk L ->
  script w = A_io STATUS_PENDING ios inf :: A_dword WAIT_SIGNALED :: rest ->
  exists L' w', raw_write_loop (S fuel) evt chunk L w = Done L' w'
    /\ errno w' = errno w
    /\ trace w' = trace w
         ++ [Ev_NtWriteFile (io_handle (self w)) evt (wl_ptr L) (write_len1 chunk L);
             Ev_cygwait evt INFINITE]
    /\ script w' = rest
    /\ wl_nbytes L' = wl_nbytes L
    /\ exists w'',
         raw_write_return evt L' w'
         = Done (if 0 <? wl_nbytes L then wl_nbytes L else -1) w''
         /\ errno w'' = (if 0 <? wl_nbytes L then errno w else EINTR)
         /\ trace w'' = trace w' ++ [Ev_NtClose evt].
Proof.
  intros Hlt Hmax Hchunk Hevt Hret [Hi0 Hi1] Hs.
  apply Z.eqb_neq in Hevt. apply Z.leb_le in Hi0, Hi1.
  pose proof (proj2 (Z.ltb_lt _ _) (proj2 Hlt)) as Hlt'.
  apply returns_done. run_write.
  apply returns_raw_write_loop_stop; [cbn; lia|].
  cbn [wl_nbytes wl_ret wl_status]. cbn. rewrite <- ?app_assoc.
  repeat split.
  apply returns_value. unfold raw_write_return. cbn [wl_nbytes wl_ret wl_status].
  rewrite Hret.
  destruct (Z.ltb_spec 0 (wl_nbytes L)) as [Hpos|Hzero].
  - rewrite to_ssize_t_small by lia.
    assert (Hneg : (wl_nbytes L <? 0) = false) by (apply Z.ltb_ge; lia).
    run_write. cbn. rewrite <- !app_assoc. repeat split.
  - run_write. cbn. rewrite <- !app_assoc. repeat split.
Qed.

(** ** Writing: chunks that are transferred in full *)

Lemma returns_eq {A} (m : M A) w a0 w0 :
  returns m w (fun a w' => a = a0 /\ w' = w0) -> m w = Done a0 w0.
Proof. unfold returns. destruct (m w); [intros [-> ->]; reflexivity|tauto|tauto]. Qed.

Lemma raw_write_chunk_full evt chunk L w n rest :
  0 <= wl_nbytes L -> wl_len L <= SSIZE_MAX ->
  0 < n -> n = write_len1 chunk L -> n <= wl_len L - wl_nbytes L ->
  script w = A_io STATUS_SUCCESS STATUS_SUCCESS n :: A_bool false :: rest ->
  raw_write_chunk evt chunk L w
  = Done {| wl_ptr := wl_ptr L + chunk; wl_len := wl_len L;
            wl_nbytes := wl_nbytes L + n; wl_ret := wl_nbytes L + n;
            wl_status := STATUS_SUCCESS |}
      (moved_on w rest
         [Ev_NtWriteFile (io_handle (self w)) evt (wl_ptr L) n; Ev_isclosed]).
Proof.
  intros Hn Hmax Hpos Hl1 Hle Hs.
  assert (H0 : (0 <=? n) = true) by (apply Z.leb_le; lia).
  assert (H1 : (n <=? write_len1 chunk L) = true) by (apply Z.leb_le; lia).
  assert (H2 : (n =? 0) = false) by (apply Z.eqb_neq; lia).
  apply returns_eq. unfold raw_write_chunk. cbv zeta.
  run. rewrite ?andb_false_r. run.
  rewrite to_size_t_small by lia.
  rewrite (proj2 (Z.ltb_lt 0 (wl_nbytes L + n))) by lia.
  rewrite to_ssize_t_small by lia. rewrite H2, <- Hl1.
  split; [reflexivity|]. unfold moved_on, logged, with_script, with_trace. cbn.
  rewrite <- app_assoc. reflexivity.
Qed.

Lemma write_len1_full chunk L :
  0 < chunk < 2 ^ 32 -> 0 <= wl_nbytes L -> wl_len L <= SSIZE_MAX ->
  chunk <= wl_len L - wl_nbytes L ->
  write_len1 chunk L = chunk.
Proof.
  intros Hc Hn Hmax Hle. unfold write_len1. cbv zeta.
  rewrite to_size_t_small by lia.
  destruct (Z.ltb_spec chunk (wl_len L - wl_nbytes L)); [reflexivity|].
  replace (wl_len L - wl_nbytes L) with chunk by lia.
  unfold to_ULONG. apply Z.mod_small. lia.
Qed.

Lemma moved_on_nil w : moved_on w (script w) [] = w.
Proof. destruct w. unfold moved_on. cbn. rewrite app_nil_r. reflexivity. Qed.

Lemma moved_on_twice w r1 e1 r2 e2 :
  moved_on (moved_on w r1 e1) r2 e2 = moved_on w r2 (e1 ++ e2).
Proof. unfold moved_on. cbn. rewrite app_assoc. reflexivity. Qed.

Lemma after_full_chunks_S chunk k L :
  after_full_chunks chunk k
    {| wl_ptr := wl_ptr L + chunk; wl_len := wl_len L;
       wl_nbytes := wl_nbytes L + chunk; wl_ret := wl_nbytes L + chunk;
       wl_status := STATUS_SUCCESS |}
  = after_full_chunks chunk (S k) L.
Proof.
  destruct k as [|k]; unfold after_full_chunks; cbn [wl_ptr wl_len wl_nbytes];
    f_equal; lia.
Qed.

(** The loop over [k] chunks that are each transferred in full at once:
    every chunk is taken [chunk] bytes after the one before. *)
Lemma raw_write_loop_full evt chunk : forall k fuel L w rest,
  0 < chunk < 2 ^ 32 ->
  0 <= wl_nbytes L -> wl_len L <= SSIZE_MAX ->
  Z.of_nat k * chunk <= wl_len L - wl_nbytes L ->
  script w = full_chunk_answers chunk k ++ rest ->
  raw_write_loop (k + fuel) evt chunk L w
  = raw_write_loop fuel evt chunk (after_full_chunks chunk k L)
      (moved_on w rest (full_chunk_calls (io_handle (self w)) evt (wl_ptr L) chunk k)).
Proof.
  induction k as [|k IH]; intros fuel L w rest Hc Hn Hmax Hle Hs.
  - cbn in *. rewrite <- Hs, moved_on_nil. reflexivity.
  - cbn [Nat.add raw_write_loop].
    rewrite (proj2 (Z.ltb_lt (wl_nbytes L) (wl_len L))) by lia.
    pose proof (write_len1_full chunk L Hc Hn Hmax ltac:(lia)) as Hl1.
    unfold mbind, M_bind, bind.
    rewrite (raw_write_chunk_full evt chunk L w chunk (full_chunk_answers chunk k ++ rest))
      by (auto; lia).
    rewrite (IH fuel _ _ rest); cbn [wl_ptr wl_len wl_nbytes]; try lia; try reflexivity.
    rewrite after_full_chunks_S, moved_on_twice. reflexivity.
Qed.

Lemma full_chunk_answers_length chunk k :
  length (full_chunk_answers chunk k) = (2 * k)%nat.
Proof. induction k as [|k IH]; cbn [full_chunk_answers length]; lia. Qed.

Lemma raw_write_chunking_blocking f len :
  raw_write_chunking f false len = (to_ULONG (Z.min len (max_atomic_write f)), len).
Proof.
  unfold raw_write_chunking. destruct (Z.leb_spec len (max_atomic_write f)).
  - rewrite Z.min_l by lia. reflexivity.
  - rewrite Z.min_r by lia. reflexivity.
Qed.

Ltac run_to_write_loop :=
  repeat (lazymatch goal with
          | |- returns (raw_write_loop _ _ _ _) _ _ => fail
          | |- _ => run_step
          end; tidy).

(** X12.  A blocking write whose chunks are each transferred in full at once
    writes the whole buffer: [k] chunks of the chunk size, each taken
    where the one before ended, then the [r] bytes that are left, and it
    returns [len] and leaves [errno] alone. *)
Theorem raw_write_in_full ptr len w evt k r rest :
  let chunk := to_ULONG (Z.min len (max_atomic_write (self w))) in
  0 < len <= SSIZE_MAX ->
  has_flag (openflags (self w)) O_NONBLOCK = false ->
  0 < chunk ->
  evt <> NULL ->
  len = Z.of_nat k * chunk + r -> 0 <= r < chunk ->
  script w = A_handle evt :: full_chunk_answers chunk k
             ++ (if r =? 0 then [] else [A_io STATUS_SUCCESS STATUS_SUCCESS r; A_bool false])
             ++ rest ->
  exists w', raw_write ptr len w = Done len w'
    /\ errno w' = errno w /\ self w' = self w /\ shared w' = shared w
    /\ script w' = rest
    /\ trace w' = trace w
         ++ [Ev_CreateEvent false None]
         ++ full_chunk_calls (io_handle (self w)) evt ptr chunk k
         ++ (if r =? 0 then []
             else [Ev_NtWriteFile (io_handle (self w)) evt (ptr + Z.of_nat k * chunk) r;
                   Ev_isclosed])
         ++ [Ev_NtClose evt].
Proof.
  intros chunk Hlen Hnb Hchunk Hevt Hsplit Hr Hs.
  assert (Hc32 : chunk < 2 ^ 32) by (apply Z.mod_pos_bound; lia).
  assert (Hl0 : (len =? 0) = false) by (apply Z.eqb_neq; lia).
  apply Z.eqb_neq in Hevt.
  set (tail := (if r =? 0 then [] else [A_io STATUS_SUCCESS STATUS_SUCCESS r; A_bool false])
               ++ rest) in *.
  apply returns_value. unfold raw_write, raw_write_transfer. run.
  rewrite Hnb, raw_write_chunking_blocking. fold chunk. cbv beta iota. cbn [negb].
  run_to_write_loop.
  lazymatch goal with
  | |- returns (raw_write_loop ?n _ _ _) ?w1 ?Q =>
      replace n with (k + (S (k + length tail)))%nat
        by (cbn; rewrite length_app, full_chunk_answers_length; lia);
      unfold returns;
      rewrite (raw_write_loop_full evt chunk k _ _ w1 tail);
      [change (returns (raw_write_loop (S (k + length tail)) evt chunk
                          (after_full_chunks chunk k (raw_write_start ptr len)))
                 (moved_on w1 tail
                    (full_chunk_calls (io_handle (self w1)) evt
                       (wl_ptr (raw_write_start ptr len)) chunk k)) Q)
      | lia | cbn; lia | cbn; lia | cbn; nia | reflexivity]
  end.
  set (Lk := after_full_chunks chunk k (raw_write_start ptr len)).
  assert (HLk : wl_ptr Lk = ptr + Z.of_nat k * chunk /\ wl_len Lk = len
                /\ wl_nbytes Lk = Z.of_nat k * chunk /\ wl_status Lk = STATUS_SUCCESS
                /\ wl_ret Lk = (if 0 <? Z.of_nat k * chunk then Z.of_nat k * chunk else -1)).
  { unfold Lk. destruct k as [|k0]; cbn [after_full_chunks raw_write_start wl_ptr wl_len
                                          wl_nbytes wl_status wl_ret].
    - repeat split; lia.
    - rewrite (proj2 (Z.ltb_lt 0 (Z.of_nat (S k0) * chunk))) by nia.
      repeat split; lia. }
  destruct HLk as (Hptr & Hwlen & Hnbytes & Hstatus & Hret).
  clearbody Lk.
  assert (Hfinish : forall L w1 (Q : Z -> world -> Prop),
            wl_status L = STATUS_SUCCESS -> wl_ret L = len ->
            Q len (logged (Ev_NtClose evt) w1) ->
            returns (raw_write_return evt L) w1 Q).
  { intros L w1 Q HS HR HQ. unfold raw_write_return. rewrite HS, HR, Hevt. cbn [negb].
    run. exact HQ. }
  unfold tail in *. clear tail.
  destruct (Z.eqb_spec r 0) as [Hr0|Hr0].
  - apply returns_raw_write_loop_stop; [lia|].
    run_step. run_step. apply Hfinish; [exact Hstatus|rewrite Hret|].
    + assert (0 < Z.of_nat k * chunk) by lia.
      rewrite (proj2 (Z.ltb_lt _ _) H). lia.
    + unfold moved_on. cbn. rewrite <- !app_assoc. repeat split.
  - assert (Hl1 : r = write_len1 chunk Lk).
    { unfold write_len1. cbv zeta. rewrite Hwlen, Hnbytes.
      rewrite to_size_t_small by (unfold SSIZE_MAX in *; lia).
      replace (len - Z.of_nat k * chunk) with r by lia.
      rewrite (proj2 (Z.ltb_ge chunk r)) by lia.
      unfold to_ULONG. symmetry. apply Z.mod_small. lia. }
    cbn [raw_write_loop]. rewrite (proj2 (Z.ltb_lt (wl_nbytes Lk) (wl_len Lk))) by lia.
    apply returns_bind. unfold returns at 1.
    rewrite (raw_write_chunk_full evt chunk Lk _ r rest);
      [|lia|lia|lia|exact Hl1|lia|reflexivity].
    apply returns_raw_write_loop_stop; [cbn; lia|].
    run_step. run_step. apply Hfinish; [reflexivity|cbn; lia|].
    unfold moved_on. cbn. rewrite Hptr, <- !app_assoc. repeat split.
Qed.

(** ** Opening *)

(** X13.  An open whose access mode is none of O_RDONLY, O_WRONLY and O_RDWR
    fails with EINVAL before anything is created. *)
Theorem open_bad_access_mode flags w :
  has_flag flags O_PATH = false ->
  Z.land flags O_ACCMODE = O_ACCMODE ->
  exists w', open flags w = Done 0 w'
    /\ errno w' = EINVAL
    /\ self w' = self w /\ shared w' = shared w /\ script w' = script w
    /\ trace w' = trace w
         ++ (if io_handle (self w) =? NULL then [] else [Ev_NtClose (io_handle (self w))]).
Proof.
  intros Hp Hacc. apply returns_value. unfold open. rewrite Hp. cbv zeta. rewrite Hacc.
  destruct (io_handle (self w) =? NULL) eqn:Hio; run;
    cbn; rewrite ?app_nil_r; repeat split.
Qed.

(** X14.  An open for writing in non-blocking mode while no reader has the FIFO
    open ([read_ready] is not signalled) does not wait: it fails with
    ENXIO and closes the two events it has created. *)
Theorem open_writer_no_reader flags w rr wr rest :
  has_flag flags O_PATH = false ->
  Z.land flags O_ACCMODE = O_WRONLY ->
  has_flag flags O_NONBLOCK = true ->
  rr <> NULL -> wr <> NULL -> rr <> wr ->
  reader (self w) = false ->
  script w = A_handle rr :: A_handle wr :: A_dword WAIT_TIMEOUT :: rest ->
  exists w', open flags w = Done 0 w'
    /\ errno w' = ENXIO
    /\ shared w' = shared w /\ script w' = rest
    /\ io_handle (self w') = io_handle (self w)
    /\ trace w' = trace w
         ++ [Ev_CreateEvent true (Some r_event); Ev_CreateEvent true (Some w_event);
             Ev_cygwait rr 0; Ev_NtClose wr; Ev_NtClose rr]
         ++ (if io_handle (self w) =? NULL then [] else [Ev_NtClose (io_handle (self w))]).
Proof.
  intros Hp Hacc Hnb Hrr Hwr Hne Hrd Hs.
  apply Z.eqb_neq in Hrr, Hwr, Hne.
  apply returns_value. unfold open. rewrite Hp. cbv zeta. rewrite Hacc.
  destruct (io_handle (self w) =? NULL) eqn:Hio; run_open.
  all: cbn; rewrite <- ?app_assoc; repeat split.
  all: rewrite Z.eqb_refl, Hnb; reflexivity.
Qed.

Ltac run_to_open_writer :=
  repeat (lazymatch goal with
          | |- returns (open_writer _ _) _ _ => fail
          | _ => run_step
          end; tidy).

Lemma busy_not_success st : STATUS_PIPE_NO_INSTANCE_AVAILABLE st = true -> NT_SUCCESS st = false.
Proof.
  unfold STATUS_PIPE_NO_INSTANCE_AVAILABLE. intros H.
  apply orb_true_iff in H as [H|H]; [apply orb_true_iff in H as [H|H]|];
    apply Z.eqb_eq in H; subst st; reflexivity.
Qed.

Lemma set_io_handle_twice a b f : set_io_handle a (set_io_handle b f) = set_io_handle a f.
Proof. reflexivity. Qed.

Lemma set_io_handle_same f : set_io_handle (io_handle f) f = f.
Proof. destruct f; reflexivity. Qed.

Lemma last_cons_default {A} (l : list A) a d : List.last (a :: l) d = List.last l a.
Proof.
  revert a d. induction l as [|b l IH]; intros a d; [reflexivity|].
  change (List.last (b :: l) d = List.last (b :: l) a).
  rewrite (IH b d), (IH b a). reflexivity.
Qed.

Lemma busy_answers_length npfsh busy :
  length (busy_answers npfsh busy) = (3 * length busy)%nat.
Proof. induction busy as [|[st ph] busy IH]; cbn; [reflexivity|]. rewrite IH. lia. Qed.

(** The world of a writer after the busy attempts [busy]. *)
Lemma returns_open_writer_busy flags npfsh busy :
  forall fuel w rest' (Q : Z -> world -> Prop),
  (length busy < fuel)%nat ->
  Forall (fun a => STATUS_PIPE_NO_INSTANCE_AVAILABLE a.1 = true) busy ->
  script w = busy_answers npfsh busy ++ rest' ->
  returns (open_writer (fuel - length busy) flags)
    {| self := set_io_handle (List.last (map snd busy) (io_handle (self w))) (self w);
       shared := shared w; errno := errno w; script := rest';
       trace := trace w
         ++ busy_attempts (read_ready (self w)) (listening_evt (self w))
              (if has_flag (openflags (self w)) O_NONBLOCK then 0 else INFINITE)
              (length busy) |} Q ->
  returns (open_writer fuel flags) w Q.
Proof.
  induction busy as [|[st ph] busy IH]; intros fuel w rest' Q Hf Hb Hs HQ.
  - cbn in *. rewrite Nat.sub_0_r, set_io_handle_same, app_nil_r in HQ.
    destruct w; cbn in *. subst. exact HQ.
  - destruct fuel as [|fuel]; [cbn in Hf; lia|].
    apply Forall_cons in Hb as [Hst Hb]. cbn in Hst.
    pose proof (busy_not_success _ Hst) as Hns.
    cbn [busy_answers app] in Hs.
    assert (HW : (WAIT_OBJECT_0 =? WAIT_OBJECT_0) = true) by reflexivity.
    assert (HS : NT_SUCCESS STATUS_SUCCESS = true) by reflexivity.
    cbn [open_writer]. run_to_open_writer.
    eapply (IH fuel _ rest'); [cbn in Hf; lia|exact Hb|reflexivity|].
    cbn [length Nat.sub map snd] in HQ. rewrite last_cons_default in HQ.
    refine (eq_rect _ (fun w0 => returns _ w0 Q) HQ _ _).
    cbn [self shared errno script trace with_self with_shared with_errno with_script
         with_trace logged].
    f_equal.
    cbn [busy_attempts open_attempt app]. rewrite <- !app_assoc.
    rewrite Z.eqb_refl. reflexivity.
Qed.

(** X15.  A writer that finds every pipe instance busy sleeps for a millisecond
    and tries again, as often as it takes: after the busy attempts [busy]
    the first attempt that NtOpenFile grants connects it.  The pipe handle
    is put into non-blocking mode exactly when O_NONBLOCK was asked for,
    and [write_ready] is set. *)
Theorem open_writer_retries flags w rr wr npfsh busy st ph rest :
  has_flag flags O_PATH = false ->
  Z.land flags O_ACCMODE = O_WRONLY ->
  rr <> NULL -> wr <> NULL ->
  reader (self w) = false ->
  Forall (fun a => STATUS_PIPE_NO_INSTANCE_AVAILABLE a.1 = true) busy ->
  NT_SUCCESS st = true ->
  script w = A_handle rr :: A_handle wr
             :: busy_answers npfsh busy
             ++ A_dword WAIT_OBJECT_0 :: A_nt STATUS_SUCCESS npfsh :: A_nt st ph
             :: A_bool true :: rest ->
  exists w', open flags w = Done 1 w'
    /\ errno w' = errno w /\ shared w' = shared w /\ script w' = rest
    /\ io_handle (self w') = ph
    /\ writer (self w') = true
    /\ trace w' = trace w
         ++ [Ev_CreateEvent true (Some r_event); Ev_CreateEvent true (Some w_event)]
         ++ busy_attempts rr (listening_evt (self w))
              (if has_flag flags O_NONBLOCK then 0 else INFINITE) (length busy)
         ++ open_attempt rr (listening_evt (self w))
              (if has_flag flags O_NONBLOCK then 0 else INFINITE)
         ++ [Ev_NtSetInformationFile ph
               (if has_flag flags O_NONBLOCK then FILE_PIPE_COMPLETE_OPERATION
                else FILE_PIPE_QUEUE_OPERATION);
             Ev_SetEvent wr].
Proof.
  intros Hp Hacc Hrr Hwr Hrd Hb Hst Hs.
  apply Z.eqb_neq in Hrr, Hwr.
  assert (HW : (WAIT_OBJECT_0 =? WAIT_OBJECT_0) = true) by reflexivity.
  assert (HS : NT_SUCCESS STATUS_SUCCESS = true) by reflexivity.
  apply returns_value. unfold open. rewrite Hp. cbv zeta. rewrite Hacc.
  run_to_open_writer.
  eapply (returns_open_writer_busy flags npfsh busy); [| exact Hb | reflexivity |].
  { cbn. rewrite length_app, busy_answers_length. lia. }
  cbn [self shared errno script trace with_self with_shared with_errno with_script
       with_trace logged].
  match goal with |- returns (open_writer ?n _) _ _ =>
    replace n with (S (n - 1))
      by (cbn; rewrite length_app, busy_answers_length; cbn; lia) end.
  cbn [open_writer]. run_to_open_writer.
  cbn. rewrite <- ?app_assoc. rewrite Z.eqb_refl. repeat split.
Qed.

(** X16.  The first reader to open the FIFO (read-only) succeeds once a writer
    has signalled [write_ready]; in non-blocking mode it does not wait
    for one, the time-out on [write_ready] counting as success.  It sets
    [read_ready] first, records itself as <<(pid, this)>> and leaves the
    count of readers one higher than it last saw it. *)
Theorem open_first_reader flags w rr wr s1 sect s3 addr s4 le s5 ce s6 st pid seen waitret
    seen' rest :
  has_flag flags O_PATH = false ->
  Z.land flags O_ACCMODE = O_RDONLY ->
  duplexer (self w) = false ->
  rr <> NULL -> wr <> NULL ->
  s1 <> STATUS_OBJECT_NAME_COLLISION -> NT_SUCCESS s1 = true -> NT_SUCCESS s3 = true ->
  NT_SUCCESS s4 = true -> NT_SUCCESS s5 = true -> NT_SUCCESS s6 = true ->
  le <> NULL -> ce <> NULL -> st <> NULL ->
  default (_nreaders (shared w)) seen <= 0 ->
  waitret = WAIT_OBJECT_0 \/ waitret = WAIT_TIMEOUT ->
  script w =
    [A_handle rr; A_handle wr; A_bool true; A_nt s1 sect; A_nt s3 addr;
     A_nt s4 le; A_nt s5 ce; A_nt s6 st; A_dword pid;
     A_reader_locked seen; A_dword waitret; A_reader_locked seen'] ++ rest ->
  exists w', open flags w = Done 1 w'
    /\ errno w' = errno w
    /\ shared w' =
         {| _owner := _owner (shared w);
            _nreaders := default (default (_nreaders (shared w)) seen) seen' + 1 |}
    /\ script w' = rest
    /\ (reader (self w') = true /\ nohandle_ (self w') = true
        /\ openflags (self w') = flags
        /\ me (self w') = {| winpid := pid; fh := this (self w) |}
        /\ io_handle (self w') = io_handle (self w))
    /\ trace w' = trace w ++
         [Ev_CreateEvent true (Some r_event); Ev_CreateEvent true (Some w_event);
          Ev_SetEvent rr;
          Ev_NtCreateSection; Ev_NtMapViewOfSection;
          Ev_NtCreateEvent; Ev_NtCreateEvent; Ev_NtCreateEvent;
          Ev_GetCurrentProcessId; Ev_new_cygthread st;
          Ev_lock reader_lock_id; Ev_unlock reader_lock_id;
          Ev_cygwait wr (if has_flag flags O_NONBLOCK then 0 else INFINITE);
          Ev_lock reader_lock_id; Ev_unlock reader_lock_id].
Proof.
  intros Hpath Hacc Hdup Hrr Hwr Hs1 Hn1 Hn3 Hn4 Hn5 Hn6 Hle Hce Hst Hn Hwait Hs.
  apply Z.eqb_neq in Hrr, Hwr, Hle, Hce, Hst, Hs1. apply Z.ltb_ge in Hn.
  apply returns_value. unfold open. rewrite Hpath. cbv zeta. rewrite Hacc.
  destruct Hwait as [-> | ->].
  all: repeat (run_step; tidy).
  2: rewrite Z.eqb_refl; repeat (run_step; tidy).
  all: cbn -[Z.eqb]; rewrite ?Z.eqb_refl, ?orb_true_r; repeat split; try reflexivity.
  all: rewrite <- ?app_assoc; try reflexivity.
Qed.

(** ** The listener thread *)

(** Deleting entries changes the table only. *)
Lemma delete_client_handler_frame i w :
  exists w', delete_client_handler i w = Done tt w'
    /\ set_table (table_of (self w)) (self w') = self w.
Proof.
  apply returns_value with (r := tt). unfold delete_client_handler, fifo_client_handler_close.
  run. destruct (i <? Nat.pred (nhandlers (self w)))%nat; run;
    (split; [reflexivity|]); cbn; destruct (self w); reflexivity.
Qed.

Lemma delete_invalid_clients_frame rounds : forall i w w',
  delete_invalid_clients rounds i w = Done tt w' ->
  set_table (table_of (self w)) (self w') = self w.
Proof.
  induction rounds as [|rounds IH]; intros i w w' Hrun.
  - cbn in Hrun. injection Hrun as <-. apply set_table_table_of.
  - cbn [delete_invalid_clients] in Hrun.
    unfold mbind at 1, M_bind, bind, get_self in Hrun.
    destruct (is_fc_invalid (fc_at (self w) i)).
    + destruct (delete_client_handler_frame i w) as (w1 & Hrun1 & Hf1).
      unfold mbind, M_bind, bind in Hrun. rewrite Hrun1 in Hrun.
      apply IH in Hrun. rewrite <- Hf1. rewrite <- Hrun at 2.
      destruct (self w'); reflexivity.
    + apply IH in Hrun. exact Hrun.
Qed.

Lemma delete_invalid_clients_length rounds : forall i w w',
  (i + rounds = nhandlers (self w))%nat ->
  table_in_bounds (self w) ->
  delete_invalid_clients rounds i w = Done tt w' ->
  length (fc_handler (self w')) = length (fc_handler (self w)).
Proof.
  induction rounds as [|rounds IH]; intros i w w' Hn Hb Hrun.
  - cbn in Hrun. injection Hrun as <-. reflexivity.
  - cbn [delete_invalid_clients] in Hrun.
    unfold mbind at 1, M_bind, bind, get_self in Hrun.
    destruct (is_fc_invalid (fc_at (self w) i)).
    + destruct (delete_client_handler_at i w ltac:(lia) Hb)
        as (w1 & Hrun1 & Hh & Hnh & Hlen & _).
      unfold mbind, M_bind, bind in Hrun. rewrite Hrun1 in Hrun.
      apply IH in Hrun; [congruence|lia|]. unfold table_in_bounds in *. lia.
    + apply IH in Hrun; [exact Hrun|lia|exact Hb].
Qed.

Lemma take_insert_last {A} (l : list A) n x :
  (n < length l)%nat -> take (S n) (<[n := x]> l) = take n l ++ [x].
Proof.
  intros Hn. destruct (lookup_lt_is_Some_2 l n Hn) as [y Hy].
  rewrite take_insert_lt by lia. rewrite (take_S_r _ _ y Hy).
  rewrite insert_app_r_alt by (rewrite length_take; lia).
  rewrite length_take, Nat.min_l, Nat.sub_diag by lia. reflexivity.
Qed.

Lemma returns_delete_invalid_clients w (Q : unit -> world -> Prop) :
  table_in_bounds (self w) ->
  (forall w',
     handlers (self w') = List.filter (fun fc => negb (is_fc_invalid fc)) (handlers (self w)) ->
     table_in_bounds (self w') ->
     nconnected (self w') = nconnected (self w) ->
     length (fc_handler (self w')) = length (fc_handler (self w)) ->
     set_table (table_of (self w)) (self w') = self w ->
     trace w' = trace w
       ++ map (fun fc => Ev_NtClose (h fc)) (List.filter is_fc_invalid (handlers (self w))) ->
     script w' = script w -> shared w' = shared w -> errno w' = errno w ->
     Q tt w') ->
  returns (delete_invalid_clients (nhandlers (self w)) 0) w Q.
Proof.
  intros Hb HQ.
  destruct (delete_invalid_clients_from (nhandlers (self w)) 0 w ltac:(lia) Hb)
    as (w' & Hrun & Hh & Hb' & Hn & Htr & Hsc & Hsh & Herr).
  rewrite take_0, drop_0 in Hh. rewrite drop_0 in Htr. cbn [app] in Hh.
  unfold returns. rewrite Hrun.
  apply HQ; auto.
  - eapply (delete_invalid_clients_length _ 0); [|exact Hb|exact Hrun]. lia.
  - eapply delete_invalid_clients_frame, Hrun.
Qed.

Ltac run_to_purge :=
  repeat (lazymatch goal with
          | |- returns (delete_invalid_clients _ _) _ _ => fail
          | _ => run_step
          end; tidy).

(** X17.  A round of the listener thread of the owner in which a writer
    connects: the invalid entries are dropped, a new pipe instance is
    appended to the table and listened on, and when the connection is made
    (at once, or after a wait on the pending request) the new entry
    becomes a connected one, [write_ready] is set, the instance is put
    into non-blocking mode and the count of connected entries goes up by
    one.  The thread goes on to its next round. *)
Theorem thread_round_accepts conn_evt w seen s1 npfsh s2 ph st ios inf waited rest :
  let valid := List.filter (fun fc => negb (is_fc_invalid fc)) (handlers (self w)) in
  let cur_owner := default (_owner (shared w)) seen in
  fr_id_nonempty cur_owner = true ->
  fr_id_eqb cur_owner (me (self w)) = true ->
  table_in_bounds (self w) ->
  (length valid < MAX_CLIENTS)%nat ->
  (MAX_CLIENTS <= length (fc_handler (self w)))%nat ->
  NT_SUCCESS s1 = true -> NT_SUCCESS s2 = true -> ph <> NULL ->
  (st = STATUS_PENDING /\ waited = [A_dword WAIT_OBJECT_0]
   /\ (ios = STATUS_SUCCESS \/ ios = STATUS_PIPE_CONNECTED))
  \/ ((st = STATUS_SUCCESS \/ st = STATUS_PIPE_CONNECTED) /\ waited = []) ->
  script w = A_owner_locked seen :: A_client_locked None
             :: A_nt s1 npfsh :: A_nt s2 ph :: A_io st ios inf
             :: waited ++ A_client_locked None :: rest ->
  exists w', thread_round conn_evt w = Done loop_continue w'
    /\ handlers (self w') = valid ++ [{| h := ph; state := fc_connected |}]
    /\ nconnected (self w') = nconnected (self w) + 1
    /\ table_in_bounds (self w')
    /\ (table_counted (self w) -> table_counted (self w'))
    /\ shared w' = {| _owner := cur_owner; _nreaders := _nreaders (shared w) |}
    /\ errno w' = errno w /\ script w' = rest
    /\ trace w' = trace w
         ++ [Ev_lock owner_lock_id; Ev_unlock owner_lock_id; Ev_lock fifo_client_lock_id]
         ++ map (fun fc => Ev_NtClose (h fc)) (List.filter is_fc_invalid (handlers (self w)))
         ++ [Ev_npfs_handle;
             Ev_NtCreateNamedPipeFile
               (if (length valid =? 0)%nat then FILE_CREATE else FILE_OPEN)
               FILE_PIPE_QUEUE_OPERATION;
             Ev_unlock fifo_client_lock_id;
             Ev_SetEvent (listening_evt (self w));
             Ev_NtFsControlFile_LISTEN ph conn_evt]
         ++ (if st =? STATUS_PENDING
             then [Ev_WaitForMultipleObjects conn_evt (cancel_evt (self w))] else [])
         ++ [Ev_lock fifo_client_lock_id;
             Ev_SetEvent (write_ready (self w));
             Ev_NtSetInformationFile ph FILE_PIPE_COMPLETE_OPERATION;
             Ev_ResetEvent conn_evt;
             Ev_unlock fifo_client_lock_id;
             Ev_ResetEvent (listening_evt (self w))].
Proof.
  intros valid cur_owner Hme Hown Hb Hmax Hlen Hs1 Hs2 Hph Hconn Hs.
  apply Z.eqb_neq in Hph. subst cur_owner.
  apply returns_value. unfold thread_round.
  run_to_purge.
  apply returns_delete_invalid_clients.
  { cbn. rewrite set_table_table_of. exact Hb. }
  cbn [self shared errno script trace with_self with_shared with_errno with_script
       with_trace logged default].
  rewrite set_table_table_of.
  intros w1 Hh1 Hb1 Hn1 Hlen1 Hf1 Htr1 Hsc1 Hsh1 Herr1.
  fold valid in Hh1.
  assert (Hnh1 : nhandlers (self w1) = length valid)
    by (rewrite <- Hh1; symmetry; apply handlers_length, Hb1).
  assert (Hfull : (nhandlers (self w1) =? MAX_CLIENTS)%nat = false)
    by (apply Nat.eqb_neq; lia).
  pose proof (f_equal listening_evt Hf1) as Hle. cbn in Hle.
  pose proof (f_equal cancel_evt Hf1) as Hce. cbn in Hce.
  pose proof (f_equal write_ready Hf1) as Hwr. cbn in Hwr.
  clear Hf1.
  assert (HP : (STATUS_PENDING =? STATUS_PENDING) = true) by reflexivity.
  assert (HW : (WAIT_OBJECT_0 =? WAIT_OBJECT_0) = true) by reflexivity.
  unfold add_client_handler, create_pipe_instance, npfs_handle. cbv zeta.
  destruct Hconn as [(-> & -> & [-> | ->]) | ([-> | ->] & ->)];
    cbn [app] in Hsc1; repeat (run_step; tidy).
  all: split; [reflexivity|].
  all: cbn [self shared errno script trace with_self with_shared with_errno with_script
            with_trace logged default].
  all: rewrite ?set_table_table_of.
  all: unfold handlers, table_in_bounds, table_counted, set_fc_state, get_fc_handle, fc_at.
  all: cbn -[Z.eqb Nat.eqb take]. 
  all: rewrite ?Nat.sub_0_r.
  all: unfold table_in_bounds, handlers in Hb1, Hh1.
  all: rewrite !list_lookup_insert_eq by lia; cbn [default h].
  all: rewrite !list_insert_insert_eq, ?length_insert.
  all: rewrite !take_insert_last, Hh1 by lia.
  all: rewrite Htr1, Hnh1, ?Hle, ?Hce, ?Hwr, <- ?app_assoc; cbn [app].
  all: repeat split; try lia; try assumption; try reflexivity.
  all: intros Hc; unfold handlers; cbn -[take].
  all: rewrite <- Hnh1, take_insert_last, Hh1 by lia.
  all: pose proof (count_connected_valid (handlers (self w))) as Hv; fold valid in Hv.
  all: unfold count_connected in *; rewrite List.filter_app, length_app; cbn.
  all: unfold handlers in *; lia.
Qed.

(** X18.  The listener thread of an endpoint that is not the owner does no
    listening: it takes and releases the owner lock once, waits for its
    cancel event, closes its connect event and ends.  The table of client
    handlers is not touched and no pipe instance is created. *)
Theorem thread_func_not_owner w s conn_evt seen rest :
  let cur_owner := default (_owner (shared w)) seen in
  NT_SUCCESS s = true -> conn_evt <> NULL ->
  fr_id_nonempty cur_owner = true ->
  fr_id_eqb cur_owner (me (self w)) = false ->
  script w = A_nt s conn_evt :: A_owner_locked seen :: rest ->
  exists w', thread_func w = Done 0 w'
    /\ self w' = self w
    /\ shared w' = {| _owner := cur_owner; _nreaders := _nreaders (shared w) |}
    /\ errno w' = errno w /\ script w' = rest
    /\ trace w' = trace w
         ++ [Ev_NtCreateEvent; Ev_lock owner_lock_id; Ev_unlock owner_lock_id;
             Ev_WaitForSingleObject (cancel_evt (self w));
             Ev_NtClose conn_evt; Ev_auto_release].
Proof.
  intros cur_owner Hs Hc Hne Hneq Hscript. subst cur_owner.
  apply Z.eqb_neq in Hc.
  apply returns_value. unfold thread_func.
  repeat (run_step; tidy).
  cbn. rewrite <- !app_assoc. repeat split.
Qed.

Lemma returns_delete_last w (Q : unit -> world -> Prop) :
  (0 < nhandlers (self w))%nat ->
  Q tt (with_self (set_nhandlers (Nat.pred (nhandlers (self w))) (self w))
          (logged (Ev_NtClose (h (fc_at (self w) (nhandlers (self w) - 1)))) w)) ->
  returns (delete_client_handler (nhandlers (self w) - 1)) w Q.
Proof.
  intros Hpos HQ.
  assert (Hlast : (nhandlers (self w) - 1 <? Nat.pred (nhandlers (self w)))%nat = false)
    by (apply Nat.ltb_ge; lia).
  unfold delete_client_handler, fifo_client_handler_close.
  do 6 run_step. cbn [self with_self logged]. cbv zeta.
  rewrite Hlast. run_step. exact HQ.
Qed.

Ltac run_to_delete :=
  repeat (lazymatch goal with
          | |- returns (delete_client_handler _) _ _ => fail
          | _ => run_step
          end; tidy).

(** X19.  When the listener thread is cancelled while its listen request is
    pending, it connects to the FIFO itself to force the request to
    complete.  If that connection is made and the request completes with
    it, the client so connected is a bogus one: the listening entry is
    removed from the table again and both ends are closed, so that the
    table is as it was before the listen, and the thread stops. *)
Theorem thread_listen_cancelled conn_evt w ios inf s3 npfsh s4 ph rest :
  let i := (nhandlers (self w) - 1)%nat in
  (0 < nhandlers (self w))%nat ->
  table_in_bounds (self w) ->
  NT_SUCCESS s3 = true -> NT_SUCCESS s4 = true -> ph <> NULL ->
  NT_SUCCESS ios = true \/ ios = STATUS_PIPE_CONNECTED ->
  script w = A_io STATUS_PENDING ios inf :: A_dword (WAIT_OBJECT_0 + 1)
             :: A_client_locked None :: A_nt s3 npfsh :: A_nt s4 ph :: rest ->
  exists w', thread_listen conn_evt i w = Done loop_canceled w'
    /\ handlers (self w') = take i (handlers (self w))
    /\ nhandlers (self w') = i
    /\ nconnected (self w') = nconnected (self w)
    /\ shared w' = shared w /\ errno w' = errno w /\ script w' = rest
    /\ trace w' = trace w
         ++ [Ev_SetEvent (listening_evt (self w));
             Ev_NtFsControlFile_LISTEN (h (fc_at (self w) i)) conn_evt;
             Ev_WaitForMultipleObjects conn_evt (cancel_evt (self w));
             Ev_lock fifo_client_lock_id;
             Ev_npfs_handle; Ev_NtOpenFile;
             Ev_NtClose (h (fc_at (self w) i));
             Ev_NtClose ph;
             Ev_unlock fifo_client_lock_id;
             Ev_ResetEvent (listening_evt (self w))].
Proof.
  intros i Hpos Hb Hs3 Hs4 Hph Hios Hs.
  apply Z.eqb_neq in Hph.
  subst i.
  assert (HP : (STATUS_PENDING =? STATUS_PENDING) = true) by reflexivity.
  assert (Hok : NT_SUCCESS ios || (ios =? STATUS_PIPE_CONNECTED) = true).
  { destruct Hios as [-> | ->]; [reflexivity|]. apply orb_true_r. }
  apply returns_value. unfold thread_listen, open_pipe, npfs_handle.
  run_to_delete.
  apply returns_delete_last; [cbn; exact Hpos|].
  repeat (run_step; tidy).
  split; [reflexivity|].
  cbn [self shared errno script trace with_self with_shared with_errno with_script
       with_trace logged default].
  rewrite ?set_table_table_of. unfold handlers. cbn -[take Nat.sub].
  rewrite <- !app_assoc. cbn [app].
  unfold table_in_bounds in Hb.
  repeat split; try lia.
  rewrite take_take. f_equal. lia.
Qed.

Lemma returns_ask_pipe_info e s avail st rest Q w :
  script w = A_pipe_info s avail st :: rest ->
  Q (s, avail, st) (with_script rest (logged e w)) ->
  returns (ask_pipe_info e) w Q.
Proof. intros Hs H. apply returns_bind. eapply returns_ask; [exact Hs|exact H]. Qed.

Ltac run_to_pipe_info :=
  repeat (lazymatch goal with
          | |- returns (ask_pipe_info _) _ _ => fail
          | _ => run_step
          end; tidy).

(** X20.  When the listener thread is cancelled while its listen request is
    pending and its own attempt to connect is refused, it asks the pipe
    instance for its state: if a writer has connected in the meantime (the
    instance is connected, or has input), that connection is recorded
    before the thread stops, so the writer is not lost. *)
Theorem thread_listen_late_writer conn_evt w ios inf s3 npfsh s4 ph s5 avail pst rest :
  let i := (nhandlers (self w) - 1)%nat in
  (0 < nhandlers (self w))%nat ->
  table_in_bounds (self w) ->
  is_fc_connected (fc_at (self w) i) = false ->
  NT_SUCCESS s3 = true -> NT_SUCCESS s4 = false ->
  NT_SUCCESS s5 = true ->
  0 < avail \/ pst = FILE_PIPE_CONNECTED_STATE \/ pst = FILE_PIPE_INPUT_AVAILABLE_STATE ->
  script w = A_io STATUS_PENDING ios inf :: A_dword (WAIT_OBJECT_0 + 1)
             :: A_client_locked None :: A_nt s3 npfsh :: A_nt s4 ph
             :: A_pipe_info s5 avail pst :: rest ->
  exists w', thread_listen conn_evt i w = Done loop_canceled w'
    /\ handlers (self w') =
         <[i := {| h := h (fc_at (self w) i); state := fc_connected |}]> (handlers (self w))
    /\ nhandlers (self w') = nhandlers (self w)
    /\ nconnected (self w') = nconnected (self w) + 1
    /\ (table_counted (self w) -> table_counted (self w'))
    /\ shared w' = shared w /\ errno w' = errno w /\ script w' = rest
    /\ trace w' = trace w
         ++ [Ev_SetEvent (listening_evt (self w));
             Ev_NtFsControlFile_LISTEN (h (fc_at (self w) i)) conn_evt;
             Ev_WaitForMultipleObjects conn_evt (cancel_evt (self w));
             Ev_lock fifo_client_lock_id;
             Ev_npfs_handle; Ev_NtOpenFile;
             Ev_NtQueryInformationFile (h (fc_at (self w) i));
             Ev_SetEvent (write_ready (self w));
             Ev_NtSetInformationFile (h (fc_at (self w) i)) FILE_PIPE_COMPLETE_OPERATION]
         ++ (if ph =? NULL then [] else [Ev_NtClose ph])
         ++ [Ev_unlock fifo_client_lock_id;
             Ev_ResetEvent (listening_evt (self w))].
Proof.
  intros i Hpos Hb Hnc Hs3 Hs4 Hs5 Hst Hs.
  assert (HP : (STATUS_PENDING =? STATUS_PENDING) = true) by reflexivity.
  assert (Hi : (i < nhandlers (self w))%nat) by (unfold i; lia).
  pose proof (handlers_lookup _ i Hi Hb) as Hlk.
  apply returns_value. unfold thread_listen, open_pipe, npfs_handle, pipe_state.
  run_to_pipe_info.
  eapply returns_ask_pipe_info; [script_eq|]. tidy.
  destruct (ph =? NULL) eqn:Hph.
  all: destruct (0 <? avail) eqn:Hav;
    [|destruct Hst as [Hst|[-> | ->]]; [apply Z.ltb_ge in Hav; lia| |]].
  all: repeat (run_step; tidy).
  all: split; [reflexivity|].
  all: cbn [self shared errno script trace with_self with_shared with_errno with_script
            with_trace logged default].
  all: rewrite ?set_table_table_of.
  all: unfold handlers, table_counted, set_fc_state, get_fc_handle in *.
  all: cbn -[take Nat.sub]; fold i.
  all: unfold table_in_bounds in Hb.
  all: rewrite take_insert_lt by lia.
  all: rewrite <- ?app_assoc; cbn [app].
  all: repeat split.
  all: intros Hc; unfold handlers in *; cbn -[take Nat.sub]; fold i.
  all: rewrite take_insert_lt by lia.
  all: rewrite (count_connected_insert _ _ _ _ Hlk), Hnc; cbn; lia.
Qed.

(** ** End of file, closing, shared memory *)

(** X21.  [hit_eof] samples the count of connected writers under the table
    lock.  A count that is not zero means no end of file at once; a count
    of zero is sampled again after a sleep of one millisecond, and end of
    file is reported only when it is zero again, so that a writer that
    connects within the delay averts it. *)
Theorem hit_eof_two_samples w t1 t2 rest :
  let table1 := default (table_of (self w)) t1 in
  let table2 := default table1 t2 in
  script w = A_client_locked t1 :: A_client_locked t2 :: rest ->
  exists w', hit_eof w = Done ((t_nconnected table1 =? 0) && (t_nconnected table2 =? 0)) w'
    /\ script w' = (if t_nconnected table1 =? 0 then rest else A_client_locked t2 :: rest)
    /\ trace w' = trace w
         ++ [Ev_lock fifo_client_lock_id; Ev_unlock fifo_client_lock_id]
         ++ (if t_nconnected table1 =? 0
             then [Ev_Sleep 1; Ev_lock fifo_client_lock_id; Ev_unlock fifo_client_lock_id]
             else []).
Proof.
  intros table1 table2 Hs. subst table1 table2.
  destruct (t_nconnected (default (table_of (self w)) t1) =? 0) eqn:H1.
  - apply Z.eqb_eq in H1.
    destruct (hit_eof_first_sample_zero w t1 t2 rest Hs H1) as (w' & Hrun & Htr & Hsc & _).
    exists w'. cbn [andb]. auto.
  - apply Z.eqb_neq in H1.
    destruct (hit_eof_first_sample_nonzero w t1 _ Hs H1) as (w' & Hrun & Htr & Hsc).
    exists w'. cbn [andb]. rewrite app_nil_r. auto.
Qed.

(** The loop of [close] over the table closes the handle of every entry
    in use, in order, and changes nothing. *)
Lemma close_client_handlers_all left : forall i w,
  (i + left = nhandlers (self w))%nat ->
  table_in_bounds (self w) ->
  close_client_handlers left i w =
    Done tt (moved_on w (script w)
               (map (fun fc => Ev_NtClose (h fc)) (drop i (handlers (self w))))).
Proof.
  induction left as [|left IH]; intros i w Hn Hb.
  - pose proof (handlers_length _ Hb) as Hlen.
    rewrite drop_ge by lia. cbn. rewrite moved_on_nil. reflexivity.
  - pose proof (handlers_lookup (self w) i ltac:(lia) Hb) as Hi.
    rewrite (drop_S _ _ _ Hi). cbn [map close_client_handlers].
    unfold mbind, M_bind, bind, get_self, fifo_client_handler_close, tell.
    rewrite (IH (S i) (logged _ w)) by (cbn; auto; lia).
    f_equal. unfold moved_on, logged, with_trace. cbn. rewrite <- app_assoc. reflexivity.
Qed.

Lemma returns_close_client_handlers w (Q : unit -> world -> Prop) :
  table_in_bounds (self w) ->
  Q tt (moved_on w (script w) (map (fun fc => Ev_NtClose (h fc)) (handlers (self w)))) ->
  returns (close_client_handlers (nhandlers (self w)) 0) w Q.
Proof.
  intros Hb HQ. unfold returns.
  rewrite (close_client_handlers_all _ 0 w) by (auto; lia).
  rewrite drop_0. exact HQ.
Qed.

Ltac run_to_close_handlers :=
  repeat (lazymatch goal with
          | |- returns (close_client_handlers _ _) _ _ => fail
          | _ => run_step
          end; tidy).

(** X22.  Closing a reader that was opened in full: the listener thread is
    cancelled and waited for, the handle of every client handler in use is
    closed, the count of readers goes down by one, and [read_ready] is
    reset exactly when that leaves no reader.  The owner record is
    cleared exactly when this reader is the owner.  The view of the
    shared memory and the handles of the section, of the thread, of the
    cancel event and of the two ready events are released; the
    listening event is not among the handles closed. *)
Theorem close_reader w tseen nseen oseen r rest :
  let table := default (table_of (self w)) tseen in
  let n := default (_nreaders (shared w)) nseen - 1 in
  let o := default (_owner (shared w)) oseen in
  let f := self w in
  reader f = true ->
  cancel_evt f <> NULL -> sync_thr f <> NULL ->
  read_ready f <> NULL -> write_ready f <> NULL ->
  shmem f <> 0 -> shmem_handle f <> NULL ->
  (t_nhandlers table <= length (t_fc_handler table))%nat ->
  script w = A_client_locked tseen :: A_reader_locked nseen :: A_owner_locked oseen
             :: A_int r :: rest ->
  exists w', close w = Done r w'
    /\ shared w' = {| _owner := if fr_id_eqb o (me f) then null_fr_id else o;
                      _nreaders := n |}
    /\ errno w' = errno w /\ script w' = rest
    /\ trace w' = trace w
         ++ [Ev_SetEvent (cancel_evt f); Ev_WaitForSingleObject (sync_thr f);
             Ev_NtClose (sync_thr f); Ev_NtClose (cancel_evt f);
             Ev_lock fifo_client_lock_id]
         ++ map (fun fc => Ev_NtClose (h fc)) (take (t_nhandlers table) (t_fc_handler table))
         ++ [Ev_unlock fifo_client_lock_id; Ev_lock reader_lock_id]
         ++ (if n =? 0 then [Ev_ResetEvent (read_ready f)] else [])
         ++ [Ev_unlock reader_lock_id;
             Ev_lock owner_lock_id; Ev_unlock owner_lock_id;
             Ev_NtUnmapViewOfSection (shmem f); Ev_NtClose (shmem_handle f);
             Ev_NtClose (read_ready f); Ev_NtClose (write_ready f);
             Ev_fhandler_base_close].
Proof.
  intros table n o f Hrd Hce Hst Hrr Hwr Hsm Hsh Hb Hs.
  subst table n o f.
  apply Z.eqb_neq in Hce, Hst, Hrr, Hwr, Hsm, Hsh.
  apply returns_value. unfold close, cancel_reader_thread.
  run_to_close_handlers.
  apply returns_close_client_handlers.
  { unfold table_in_bounds. destruct tseen; cbn in *; exact Hb. }
  unfold moved_on.
  cbn [self shared errno script trace with_self with_shared with_errno with_script
       with_trace logged].
  destruct (default (_nreaders (shared w)) nseen - 1 =? 0) eqn:Hn,
    (fr_id_eqb (default (_owner (shared w)) oseen) (me (self w))) eqn:Ho.
  all: repeat (run_step; tidy).
  all: cbn; rewrite ?Hn, ?Ho; rewrite <- ?app_assoc; repeat split.
  all: destruct tseen; reflexivity.
Qed.

(** X23.  [create_shmem] opens the section that exists when creating it
    collides with it.  When the view cannot be mapped it closes the
    section handle it has just obtained, sets [errno] from the status and
    leaves the endpoint as it was; otherwise the endpoint holds the
    section handle and the address of the view. *)
Theorem create_shmem_maps_or_releases w s1 x s2 sect s3 addr rest :
  let collided := s1 =? STATUS_OBJECT_NAME_COLLISION in
  let status := if collided then s2 else s1 in
  let hdl := if collided then sect else x in
  NT_SUCCESS status = true ->
  script w = A_nt s1 x :: (if collided then [A_nt s2 sect] else []) ++ A_nt s3 addr :: rest ->
  exists w', create_shmem w = Done (if NT_SUCCESS s3 then 0 else -1) w'
    /\ self w' = (if NT_SUCCESS s3 then set_shmem addr (set_shmem_handle hdl (self w))
                  else self w)
    /\ errno w' = (if NT_SUCCESS s3 then errno w else geterrno_from_nt_status s3)
    /\ shared w' = shared w /\ script w' = rest
    /\ trace w' = trace w
         ++ [Ev_NtCreateSection] ++ (if collided then [Ev_NtOpenSection] else [])
         ++ [Ev_NtMapViewOfSection] ++ (if NT_SUCCESS s3 then [] else [Ev_NtClose hdl]).
Proof.
  intros collided status hdl Hst Hs. subst collided status hdl.
  apply returns_value. unfold create_shmem.
  destruct (s1 =? STATUS_OBJECT_NAME_COLLISION) eqn:Hc, (NT_SUCCESS s3) eqn:H3;
    cbn [app] in Hs; repeat (run_step; tidy).
  all: cbn; rewrite <- ?app_assoc; repeat split.
Qed.

(** * The write loop, chunk by chunk *)





(** ** Chunks that are taken, then one that is not *)







End Fifo.

(** * The statements on the scenarios *)

(** ** Reading *)

(** C3, on a reader that does not own the FIFO: a read of one byte. *)
Lemma raw_read_not_owner_witness :
  exists w', raw_read errno_io 1000 1 (world_of sample_reader reader_b 1 [A_owner_locked None])
             = Done (to_size_t (-1)) w'
    /\ errno w' = ENOTSUP
    /\ trace w' = [Ev_lock owner_lock_id; Ev_unlock owner_lock_id]
    /\ self w' = sample_reader
    /\ script w' = [].
Proof.
  apply (raw_read_not_owner errno_io 1000 1
           (world_of sample_reader reader_b 1 [A_owner_locked None]) None []);
    [lia | reflexivity | reflexivity].
Defined.

(** C3 fails for a read of length zero: the reader does not own the FIFO,
    and the read succeeds with zero bytes and leaves errno alone. *)
Lemma zero_length_read_by_non_owner :
  fr_id_eqb (_owner (shared (world_of sample_reader reader_b 1 [])))
            (me (self (world_of sample_reader reader_b 1 []))) = false
  /\ raw_read errno_io 1000 0 (world_of sample_reader reader_b 1 [])
     = Done 0 (world_of sample_reader reader_b 1 [])
  /\ errno (world_of sample_reader reader_b 1 []) <> ENOTSUP.
Proof. split; [reflexivity|split; [reflexivity|discriminate]]. Qed.

(** C2, on the owning reader with no writer connected: both samples of
    the count are zero and the read is at end of file. *)
Lemma raw_read_eof_when_no_writer_witness :
  exists w', raw_read errno_io 1000 10
               (world_of sample_reader reader_a 1
                  [A_owner_locked None; A_client_locked None; A_client_locked None])
             = Done 0 w'
    /\ errno w' = 0
    /\ trace w' = [Ev_lock owner_lock_id; Ev_unlock owner_lock_id;
                   Ev_lock fifo_client_lock_id; Ev_unlock fifo_client_lock_id;
                   Ev_Sleep 1;
                   Ev_lock fifo_client_lock_id; Ev_unlock fifo_client_lock_id]
    /\ script w' = [].
Proof.
  apply (proj2 (raw_read_eof_when_no_writer errno_io 1000 10
                  (world_of sample_reader reader_a 1
                     [A_owner_locked None; A_client_locked None; A_client_locked None])
                  None None [] eq_refl eq_refl) None);
    [lia | reflexivity | reflexivity].
Defined.

(** ** The table of pipe instances *)

(** C6, with room for two pipe instances and two writers connected: the
    round of the listener thread that wants one more instance ends the
    thread with EMFILE, and the table is as it was. *)
Lemma add_client_handler_at_capacity_witness :
  (forall w1, nhandlers (self w1) = 2%nat ->
     add_client_handler 2 errno_io w1 = Done (-1) (with_errno EMFILE w1))
  /\ exists w', thread_loop 2 errno_io 1 NULL
                  (world_of full_reader reader_a 1 [A_owner_locked None; A_client_locked None])
                = Done 0 w'
       /\ errno w' = EMFILE
       /\ table_of (self w') = table_of full_reader
       /\ script w' = []
       /\ trace w' = [Ev_lock owner_lock_id; Ev_unlock owner_lock_id;
                      Ev_lock fifo_client_lock_id; Ev_unlock fifo_client_lock_id;
                      Ev_auto_release].
Proof.
  apply (add_client_handler_at_capacity 2 errno_io NULL 0
           (world_of full_reader reader_a 1 [A_owner_locked None; A_client_locked None])
           None None []);
    [reflexivity | reflexivity | reflexivity | reflexivity |].
  intros [|[|j]] Hj; [reflexivity | reflexivity | lia].
Defined.

(** C7 fails on an endpoint in blocking mode: the pipe instance of the
    connection is put in non-blocking mode all the same, where the mode of
    the endpoint would be FILE_PIPE_QUEUE_OPERATION. *)
Lemma record_connection_blocking_endpoint :
  is_nonblocking (world_of listening_reader reader_a 1 [])
    = Done false (world_of listening_reader reader_a 1 [])
  /\ (exists w', record_connection 0 (world_of listening_reader reader_a 1 []) = Done tt w'
        /\ trace w' = [Ev_SetEvent 12; Ev_NtSetInformationFile 21 FILE_PIPE_COMPLETE_OPERATION])
  /\ (exists w', set_pipe_non_blocking 21 false (world_of listening_reader reader_a 1 [])
                 = Done tt w'
        /\ trace w' = [Ev_NtSetInformationFile 21 FILE_PIPE_QUEUE_OPERATION])
  /\ FILE_PIPE_COMPLETE_OPERATION <> FILE_PIPE_QUEUE_OPERATION.
Proof.
  split; [reflexivity|]. split; [eexists; split; reflexivity|].
  split; [eexists; split; reflexivity|discriminate].
Qed.

(** ** Writing *)


(** A write of ten bytes at address 1000 on the writer in blocking mode:
    the wait event is handle 9. *)

(** C5, where the first chunk finds the pipe broken: EPIPE and SIGPIPE,
    and the write returns -1. *)
Lemma raw_write_peer_closed_witness :
  exists L' w',
    raw_write_loop errno_io errno_io 1 9 10 (raw_write_start 1000 10)
      (world_of sample_writer null_fr_id 0
         [A_io STATUS_PIPE_BROKEN STATUS_PIPE_BROKEN 0; A_bool false])
    = Done L' w'
    /\ errno w' = EPIPE
    /\ trace w' = [Ev_NtWriteFile 5 9 1000 10; Ev_isclosed; Ev_raise SIGPIPE]
    /\ script w' = []
    /\ wl_nbytes L' = 0
    /\ wl_ret L' = -1
    /\ exists w'', raw_write_return 9 L' w' = Done (wl_ret L') w'' /\ errno w'' = EPIPE.
Proof.
  apply (raw_write_peer_closed errno_io errno_io 9 10 0 (raw_write_start 1000 10)
           (world_of sample_writer null_fr_id 0
              [A_io STATUS_PIPE_BROKEN STATUS_PIPE_BROKEN 0; A_bool false])
           STATUS_PIPE_BROKEN STATUS_PIPE_BROKEN false []);
    [simpl; lia | lia | reflexivity | discriminate | reflexivity].
Defined.

(** C5 fails when the descriptor was closed during the call, by a signal
    handler: the platform reports the pipe broken, and the write ends
    with EBADF and raises no signal. *)
Lemma raw_write_closed_descriptor :
  STATUS_PIPE_IS_CLOSED STATUS_PIPE_BROKEN = true
  /\ exists w',
       raw_write errno_io errno_io 1000 10
         (world_of sample_writer null_fr_id 0
            [A_handle 9; A_io STATUS_PIPE_BROKEN STATUS_PIPE_BROKEN 0; A_bool true])
       = Done (-1) w'
       /\ errno w' = EBADF
       /\ trace w' = [Ev_CreateEvent false None; Ev_NtWriteFile 5 9 1000 10; Ev_isclosed;
                      Ev_NtClose 9].
Proof. split; [reflexivity|]. eexists. split; [vm_compute; reflexivity|]. split; reflexivity. Qed.


(** ** The owner record *)

(** C9, on a reader whose listener thread takes the owner lock after
    [reader_b] has written its identity into the empty record: the round
    leaves the record to [reader_b] and waits to be cancelled. *)
Lemma owner_record_protocol_witness :
  exists w',
    thread_round 2 errno_io NULL
      (world_of sample_reader null_fr_id 1 [A_owner_locked (Some reader_b)])
    = Done loop_canceled w'
    /\ trace w' = [Ev_lock owner_lock_id; Ev_unlock owner_lock_id; Ev_WaitForSingleObject 14]
    /\ _owner (shared w') = reader_b.
Proof.
  eexists. split; [reflexivity|]. split; [reflexivity|].
  pose proof (owner_record_protocol 2 errno_io errno_io
                (world_of sample_reader null_fr_id 1 [A_owner_locked (Some reader_b)]))
    as (Hround & _ & Hother & _).
  apply Hother; [exact (Hround NULL)|reflexivity|reflexivity].
Defined.

(** An empty record is claimed by the reader whose listener thread finds
    it so, and cleared again when that reader is closed. *)
Lemma owner_record_claimed_and_cleared :
  (exists w',
     thread_round 2 errno_io NULL (world_of sample_reader null_fr_id 1 [A_owner_locked None])
     = Done loop_continue w'
     /\ _owner (shared w') = reader_a)
  /\ (exists w',
        close (world_of sample_reader reader_a 1
                 [A_client_locked None; A_reader_locked None; A_owner_locked None; A_int 0])
        = Done 0 w'
        /\ _owner (shared w') = null_fr_id
        /\ _nreaders (shared w') = 0).
Proof. split; eexists; (split; [vm_compute; reflexivity|]); repeat split. Qed.

(** ** Opening *)

(** X24, while the reader [reader_a] is open and owns the FIFO: an open
    for reading of a second endpoint of process 200.  The shared segment
    is left as [reader_a] reads it in the scenario of the read at end of
    file above. *)
Lemma open_second_reader_witness :
  exists w',
    open errno_io errno_io O_RDONLY
      (world_of fresh_endpoint reader_a 1
         [A_handle 11; A_handle 12; A_bool true;
          A_nt STATUS_OBJECT_NAME_COLLISION NULL; A_nt STATUS_SUCCESS 16;
          A_nt STATUS_SUCCESS 17;
          A_nt STATUS_SUCCESS 13; A_nt STATUS_SUCCESS 14; A_nt STATUS_SUCCESS 15;
          A_dword 200; A_reader_locked None; A_reader_locked None])
    = Done 0 w'
    /\ errno w' = ENOTSUP
    /\ shared w' = {| _owner := reader_a; _nreaders := 1 |}
    /\ script w' = []
    /\ trace w' =
         [Ev_CreateEvent true (Some r_event); Ev_CreateEvent true (Some w_event);
          Ev_SetEvent 11;
          Ev_NtCreateSection; Ev_NtOpenSection; Ev_NtMapViewOfSection;
          Ev_NtCreateEvent; Ev_NtCreateEvent; Ev_NtCreateEvent;
          Ev_GetCurrentProcessId; Ev_new_cygthread 15;
          Ev_lock reader_lock_id; Ev_unlock reader_lock_id;
          Ev_SetEvent 14; Ev_WaitForSingleObject 15; Ev_NtClose 15;
          Ev_lock reader_lock_id; Ev_unlock reader_lock_id;
          Ev_NtClose 15; Ev_NtClose 14; Ev_NtClose 13;
          Ev_NtUnmapViewOfSection 17; Ev_NtClose 16;
          Ev_NtClose 12; Ev_NtClose 11].
Proof.
  apply (open_second_reader errno_io errno_io O_RDONLY
           (world_of fresh_endpoint reader_a 1
              [A_handle 11; A_handle 12; A_bool true;
               A_nt STATUS_OBJECT_NAME_COLLISION NULL; A_nt STATUS_SUCCESS 16;
               A_nt STATUS_SUCCESS 17;
               A_nt STATUS_SUCCESS 13; A_nt STATUS_SUCCESS 14; A_nt STATUS_SUCCESS 15;
               A_dword 200; A_reader_locked None; A_reader_locked None])
           11 12 NULL STATUS_SUCCESS 16 STATUS_SUCCESS 17 STATUS_SUCCESS 13
           STATUS_SUCCESS 14 STATUS_SUCCESS 15 200 None None []);
    first [reflexivity | discriminate | (left; reflexivity) | lia].
Defined.

(** C1 fails when the second endpoint is opened before the listener
    thread of the first reader [reader_a] has claimed the owner record:
    the count of readers is 1 and the record is empty.  The [open] of the
    second endpoint starts its listener thread and then fails with
    ENOTSUP, as it should, without ever taking the owner lock.  In
    between, the first round of that thread finds the record empty and
    writes [reader_b] into it; nothing on the way out of [open] clears it
    again, as [close] would.  From then on the listener thread of
    [reader_a] waits to be cancelled and accepts no writer, and a read
    by [reader_a] fails with ENOTSUP: the first reader is open and of no
    use. *)
Lemma second_reader_claims_owner_record :
  (exists w1,
     open errno_io errno_io O_RDONLY
       (world_of fresh_endpoint null_fr_id 1
          [A_handle 11; A_handle 12; A_bool true;
           A_nt STATUS_OBJECT_NAME_COLLISION NULL; A_nt STATUS_SUCCESS 16;
           A_nt STATUS_SUCCESS 17;
           A_nt STATUS_SUCCESS 13; A_nt STATUS_SUCCESS 14; A_nt STATUS_SUCCESS 15;
           A_dword 200; A_reader_locked None; A_reader_locked None])
     = Done 0 w1
     /\ errno w1 = ENOTSUP
     /\ self w1 = second_reader
     /\ In (Ev_new_cygthread 15) (trace w1)
     /\ ~ In (Ev_lock owner_lock_id) (trace w1))
  /\ (exists w2,
        thread_round 4 errno_io 50 (world_of second_reader null_fr_id 1 [A_owner_locked None])
        = Done loop_continue w2
        /\ shared w2 = {| _owner := reader_b; _nreaders := 1 |})
  /\ (exists w3,
        thread_round 4 errno_io 50 (world_of sample_reader reader_b 1 [A_owner_locked None])
        = Done loop_canceled w3
        /\ shared w3 = {| _owner := reader_b; _nreaders := 1 |}
        /\ trace w3 = [Ev_lock owner_lock_id; Ev_unlock owner_lock_id;
                       Ev_WaitForSingleObject 14])
  /\ (exists w4,
        raw_read errno_io 1000 10 (world_of sample_reader reader_b 1 [A_owner_locked None])
        = Done (to_size_t (-1)) w4
        /\ errno w4 = ENOTSUP
        /\ trace w4 = [Ev_lock owner_lock_id; Ev_unlock owner_lock_id]).
Proof.
  split; [|split; [|split]]; eexists; (split; [vm_compute; reflexivity|]); repeat split.
  - cbn. tauto.
  - cbn. intros H. repeat destruct H as [H|H]; try discriminate H. exact H.
Qed.

(** * The further properties on the scenarios *)

(** ** The table of client handlers *)

(** X1.  Deleting the first of the three entries of the busy reader. *)
Lemma delete_client_handler_removes_witness :
  exists w', delete_client_handler 0 (world_of busy_reader reader_a 1 []) = Done tt w'
    /\ handlers (self w') =
         [ {| h := 22; state := fc_invalid |}; {| h := 23; state := fc_connected |} ]
    /\ nhandlers (self w') = 2%nat
    /\ (forall k, (k < 2)%nat ->
          fc_at (self w') k = fc_at busy_reader (if (k <? 0)%nat then k else S k))
    /\ table_in_bounds (self w')
    /\ nconnected (self w') = 2
    /\ trace w' = [Ev_NtClose 21]
    /\ script w' = [] /\ shared w' = {| _owner := reader_a; _nreaders := 1 |}
    /\ errno w' = 0.
Proof.
  apply (delete_client_handler_removes 0 (world_of busy_reader reader_a 1 []));
    [vm_compute; lia | vm_compute; lia].
Defined.

(** X2.  Dropping the invalid entries of the busy reader: the writer that has
    gone is dropped and its handle closed, the two connected ones stay. *)
Lemma delete_invalid_clients_filters_witness :
  exists w', delete_invalid_clients 3 0 (world_of busy_reader reader_a 1 []) = Done tt w'
    /\ handlers (self w') =
         [ {| h := 21; state := fc_connected |}; {| h := 23; state := fc_connected |} ]
    /\ Forall (fun fc => is_fc_invalid fc = false) (handlers (self w'))
    /\ table_in_bounds (self w')
    /\ nconnected (self w') = 2
    /\ trace w' = [Ev_NtClose 22]
    /\ script w' = [] /\ shared w' = {| _owner := reader_a; _nreaders := 1 |}
    /\ errno w' = 0.
Proof.
  apply (delete_invalid_clients_filters (world_of busy_reader reader_a 1 []));
    vm_compute; lia.
Defined.

(** X3.  A fourth pipe instance for the busy reader, whose table has room for four. *)
Lemma add_client_handler_appends_witness :
  exists w', add_client_handler 4 errno_io
               (world_of busy_reader reader_a 1
                  [A_nt STATUS_SUCCESS 30; A_nt STATUS_SUCCESS 24]) = Done 0 w'
    /\ handlers (self w') =
         [ {| h := 21; state := fc_connected |}; {| h := 22; state := fc_invalid |};
           {| h := 23; state := fc_connected |}; {| h := 24; state := fc_listening |} ]
    /\ nhandlers (self w') = 4%nat
    /\ table_in_bounds (self w')
    /\ nconnected (self w') = 2
    /\ (table_counted busy_reader -> table_counted (self w'))
    /\ trace w' = [Ev_npfs_handle; Ev_NtCreateNamedPipeFile FILE_OPEN FILE_PIPE_QUEUE_OPERATION]
    /\ script w' = [] /\ shared w' = {| _owner := reader_a; _nreaders := 1 |}
    /\ errno w' = 0.
Proof.
  apply (add_client_handler_appends 4 errno_io
           (world_of busy_reader reader_a 1 [A_nt STATUS_SUCCESS 30; A_nt STATUS_SUCCESS 24])
           STATUS_SUCCESS 30 STATUS_SUCCESS 24 []);
    [vm_compute; lia | vm_compute; lia | reflexivity | reflexivity | reflexivity
    | vm_compute; lia].
Defined.

(** X4.  The count of the busy reader through the three operations of the
    listener thread, the entry being the one of the writer that has gone. *)
Lemma table_counted_listener_witness :
  (exists w', delete_invalid_clients 3 0 (world_of busy_reader reader_a 1 []) = Done tt w'
     /\ table_counted (self w') /\ table_in_bounds (self w'))
  /\ (exists w', delete_client_handler 1 (world_of busy_reader reader_a 1 []) = Done tt w'
        /\ table_counted (self w') /\ table_in_bounds (self w'))
  /\ (exists w', record_connection 1 (world_of busy_reader reader_a 1 []) = Done tt w'
        /\ table_counted (self w') /\ table_in_bounds (self w')
        /\ handlers (self w') =
             [ {| h := 21; state := fc_connected |}; {| h := 22; state := fc_connected |};
               {| h := 23; state := fc_connected |} ]
        /\ nconnected (self w') = 3).
Proof.
  assert (Hb : table_in_bounds (self (world_of busy_reader reader_a 1 [])))
    by (vm_compute; lia).
  assert (Hc : table_counted (self (world_of busy_reader reader_a 1 [])))
    by reflexivity.
  split; [|split].
  - apply (proj1 (table_counted_listener (world_of busy_reader reader_a 1 []) Hb Hc)).
  - apply (proj1 (proj2 (table_counted_listener (world_of busy_reader reader_a 1 []) Hb Hc)
                    1%nat ltac:(vm_compute; lia) eq_refl)).
  - apply (proj2 (proj2 (table_counted_listener (world_of busy_reader reader_a 1 []) Hb Hc)
                    1%nat ltac:(vm_compute; lia) eq_refl)).
Defined.

(** ** Reading *)

(** X5.  The count of the reader with one writer, through a read that finds
    the writer gone and ends at end of file. *)
Lemma raw_read_keeps_count_witness :
  after (raw_read errno_io 1000 10)
    (world_of one_writer_reader reader_a 1
       [A_owner_locked None; A_client_locked None; A_client_locked None;
        A_io STATUS_PIPE_BROKEN 0 0; A_dword WAIT_TIMEOUT; A_bool false;
        A_client_locked None; A_client_locked None])
    (fun _ w' => tables_ok w') tables_ok.
Proof.
  apply (raw_read_keeps_count errno_io errno_io 1000 10
           (world_of one_writer_reader reader_a 1
              [A_owner_locked None; A_client_locked None; A_client_locked None;
               A_io STATUS_PIPE_BROKEN 0 0; A_dword WAIT_TIMEOUT; A_bool false;
               A_client_locked None; A_client_locked None])).
  split; [split; [vm_compute; lia | reflexivity] | repeat constructor].
Defined.

(** X6.  A non-blocking read by the owner whose one writer has written nothing. *)
Lemma raw_read_would_block_witness :
  exists w', raw_read errno_io 1000 10
               (world_of (nonblocking one_writer_reader) reader_a 1
                  [A_owner_locked None; A_client_locked None; A_client_locked None;
                   A_io STATUS_PIPE_EMPTY 0 0]) = Done (to_size_t (-1)) w'
    /\ errno w' = EAGAIN
    /\ self w' = nonblocking one_writer_reader
    /\ shared w' = {| _owner := reader_a; _nreaders := 1 |} /\ script w' = []
    /\ trace w' = [Ev_lock owner_lock_id; Ev_unlock owner_lock_id;
                   Ev_lock fifo_client_lock_id; Ev_unlock fifo_client_lock_id;
                   Ev_lock fifo_client_lock_id;
                   Ev_NtReadFile 21 1000 10;
                   Ev_unlock fifo_client_lock_id].
Proof.
  apply (raw_read_would_block errno_io 1000 10
           (world_of (nonblocking one_writer_reader) reader_a 1
              [A_owner_locked None; A_client_locked None; A_client_locked None;
               A_io STATUS_PIPE_EMPTY 0 0])
           [A_io STATUS_PIPE_EMPTY 0 0] []);
    [lia | reflexivity | reflexivity | vm_compute; lia | vm_compute; lia
    | reflexivity | reflexivity | reflexivity].
Defined.

(** X7.  A read by the owner with two writers: the first has written nothing,
    the second five bytes. *)
Lemma raw_read_first_data_witness :
  exists w', raw_read errno_io 1000 10
               (world_of full_reader reader_a 1
                  [A_owner_locked None; A_client_locked None; A_client_locked None;
                   A_io STATUS_PIPE_EMPTY 0 0; A_io STATUS_SUCCESS 0 5]) = Done 5 w'
    /\ errno w' = 0
    /\ self w' = full_reader
    /\ shared w' = {| _owner := reader_a; _nreaders := 1 |} /\ script w' = []
    /\ trace w' = [Ev_lock owner_lock_id; Ev_unlock owner_lock_id;
                   Ev_lock fifo_client_lock_id; Ev_unlock fifo_client_lock_id;
                   Ev_lock fifo_client_lock_id;
                   Ev_NtReadFile 21 1000 10;
                   Ev_NtReadFile 22 1000 10;
                   Ev_unlock fifo_client_lock_id].
Proof.
  apply (raw_read_first_data errno_io 1000 10 1
           (world_of full_reader reader_a 1
              [A_owner_locked None; A_client_locked None; A_client_locked None;
               A_io STATUS_PIPE_EMPTY 0 0; A_io STATUS_SUCCESS 0 5])
           [A_io STATUS_PIPE_EMPTY 0 0] STATUS_SUCCESS 0 5 []);
    [lia | reflexivity | vm_compute; lia | vm_compute; lia | vm_compute; lia
    | reflexivity | reflexivity | reflexivity | reflexivity | reflexivity
    | vm_compute; split; [reflexivity | discriminate]].
Defined.

(** X8.  A blocking read by the owner whose one writer has closed its end. *)
Lemma raw_read_eof_after_disconnect_witness :
  exists w', raw_read errno_io 1000 10
               (world_of one_writer_reader reader_a 1
                  [A_owner_locked None; A_client_locked None; A_client_locked None;
                   A_io STATUS_PIPE_BROKEN 0 0; A_dword WAIT_TIMEOUT; A_bool false;
                   A_client_locked None; A_client_locked None]) = Done 0 w'
    /\ errno w' = 0
    /\ self w' = client_gone 0 one_writer_reader
    /\ nconnected (self w') = 0
    /\ is_fc_invalid (fc_at (self w') 0) = true
    /\ shared w' = {| _owner := reader_a; _nreaders := 1 |} /\ script w' = []
    /\ trace w' = [Ev_lock owner_lock_id; Ev_unlock owner_lock_id;
                   Ev_lock fifo_client_lock_id; Ev_unlock fifo_client_lock_id;
                   Ev_lock fifo_client_lock_id;
                   Ev_NtReadFile 21 1000 10;
                   Ev_unlock fifo_client_lock_id; Ev_cygwait NULL 0; Ev_isclosed; Ev_Sleep 1;
                   Ev_lock fifo_client_lock_id; Ev_unlock fifo_client_lock_id; Ev_Sleep 1;
                   Ev_lock fifo_client_lock_id; Ev_unlock fifo_client_lock_id].
Proof.
  apply (raw_read_eof_after_disconnect errno_io 1000 10 0
           (world_of one_writer_reader reader_a 1
              [A_owner_locked None; A_client_locked None; A_client_locked None;
               A_io STATUS_PIPE_BROKEN 0 0; A_dword WAIT_TIMEOUT; A_bool false;
               A_client_locked None; A_client_locked None])
           [] 0 0 [] WAIT_TIMEOUT []);
    [lia | reflexivity | reflexivity | reflexivity | vm_compute; lia | vm_compute; lia
    | reflexivity | reflexivity | reflexivity | reflexivity | vm_compute; split; discriminate
    | reflexivity | reflexivity | vm_compute; lia | vm_compute; lia].
Defined.

(** ** Writing *)

(** X9.  A blocking write of ten bytes that the pipe takes at once. *)
Lemma raw_write_within_request_witness :
  after (raw_write errno_io errno_io 2000 10)
    (world_of sample_writer reader_a 1
       [A_handle 40; A_io STATUS_SUCCESS 0 10; A_bool false])
    (fun r _ =>
       r = -1
       \/ (0 < r <= 10
           /\ (has_flag (openflags sample_writer) O_NONBLOCK = true ->
               r <= max_atomic_write sample_writer)))
    (fun _ => True).
Proof.
  apply (raw_write_within_request errno_io errno_io 2000 10
           (world_of sample_writer reader_a 1
              [A_handle 40; A_io STATUS_SUCCESS 0 10; A_bool false])).
  vm_compute. split; [reflexivity | discriminate].
Defined.

(** X10.  A non-blocking write of ten bytes into a pipe that is full. *)
Lemma raw_write_would_block_witness :
  exists w', raw_write errno_io errno_io 2000 10
               (world_of (nonblocking sample_writer) reader_a 1
                  [A_io STATUS_SUCCESS 0 0; A_bool false]) = Done (-1) w'
    /\ errno w' = EAGAIN
    /\ self w' = nonblocking sample_writer
    /\ shared w' = {| _owner := reader_a; _nreaders := 1 |} /\ script w' = []
    /\ trace w' = [Ev_NtWriteFile 5 NULL 2000 10; Ev_isclosed].
Proof.
  apply (raw_write_would_block errno_io errno_io 2000 10
           (world_of (nonblocking sample_writer) reader_a 1
              [A_io STATUS_SUCCESS 0 0; A_bool false])
           STATUS_SUCCESS 0 []);
    [vm_compute; split; [reflexivity | discriminate] | reflexivity | reflexivity
    | reflexivity | reflexivity].
Defined.

(** X11.  A blocking write of ten bytes that a signal interrupts before any
    byte is written. *)
Lemma raw_write_interrupted_witness :
  exists L' w',
    raw_write_loop errno_io errno_io 1 40 10
      {| wl_ptr := 2000; wl_len := 10; wl_nbytes := 0; wl_ret := -1;
         wl_status := STATUS_SUCCESS |}
      (world_of sample_writer reader_a 1 [A_io STATUS_PENDING 0 0; A_dword WAIT_SIGNALED])
    = Done L' w'
    /\ errno w' = 0
    /\ trace w' = [Ev_NtWriteFile 5 40 2000 10; Ev_cygwait 40 INFINITE]
    /\ script w' = []
    /\ wl_nbytes L' = 0
    /\ exists w'',
         raw_write_return 40 L' w' = Done (-1) w''
         /\ errno w'' = EINTR
         /\ trace w'' = trace w' ++ [Ev_NtClose 40].
Proof.
  apply (raw_write_interrupted errno_io errno_io 40 10 0
           {| wl_ptr := 2000; wl_len := 10; wl_nbytes := 0; wl_ret := -1;
              wl_status := STATUS_SUCCESS |}
           (world_of sample_writer reader_a 1
              [A_io STATUS_PENDING 0 0; A_dword WAIT_SIGNALED])
           0 0 []);
    [vm_compute; split; [discriminate | reflexivity] | vm_compute; discriminate | lia
    | vm_compute; lia | reflexivity | vm_compute; split; discriminate | reflexivity].
Defined.

(** X12.  A blocking write of 25 bytes into a pipe that takes ten at a time:
    two chunks of ten bytes and one of five. *)
Lemma raw_write_in_full_witness :
  exists w', raw_write errno_io errno_io 2000 25
               (world_of narrow_writer reader_a 1
                  [A_handle 40;
                   A_io STATUS_SUCCESS STATUS_SUCCESS 10; A_bool false;
                   A_io STATUS_SUCCESS STATUS_SUCCESS 10; A_bool false;
                   A_io STATUS_SUCCESS STATUS_SUCCESS 5; A_bool false]) = Done 25 w'
    /\ errno w' = 0 /\ self w' = narrow_writer
    /\ shared w' = {| _owner := reader_a; _nreaders := 1 |}
    /\ script w' = []
    /\ trace w' = [Ev_CreateEvent false None;
                   Ev_NtWriteFile 5 40 2000 10; Ev_isclosed;
                   Ev_NtWriteFile 5 40 2010 10; Ev_isclosed;
                   Ev_NtWriteFile 5 40 2020 5; Ev_isclosed;
                   Ev_NtClose 40].
Proof.
  apply (raw_write_in_full errno_io errno_io 2000 25
           (world_of narrow_writer reader_a 1
              [A_handle 40;
               A_io STATUS_SUCCESS STATUS_SUCCESS 10; A_bool false;
               A_io STATUS_SUCCESS STATUS_SUCCESS 10; A_bool false;
               A_io STATUS_SUCCESS STATUS_SUCCESS 5; A_bool false])
           40 2%nat 5 []);
    [vm_compute; split; [reflexivity | discriminate] | reflexivity | reflexivity
    | vm_compute; lia | reflexivity | vm_compute; split; [discriminate | reflexivity]
    | reflexivity].
Defined.

(** ** Opening *)

(** X13.  An open with the access mode 3. *)
Lemma open_bad_access_mode_witness :
  exists w', open errno_io errno_io O_ACCMODE (world_of fresh_endpoint null_fr_id 0 [])
             = Done 0 w'
    /\ errno w' = EINVAL
    /\ self w' = fresh_endpoint
    /\ shared w' = {| _owner := null_fr_id; _nreaders := 0 |} /\ script w' = []
    /\ trace w' = [].
Proof.
  apply (open_bad_access_mode errno_io errno_io O_ACCMODE
           (world_of fresh_endpoint null_fr_id 0 []));
    reflexivity.
Defined.

(** X14.  A non-blocking open for writing of a FIFO that no reader has open. *)
Lemma open_writer_no_reader_witness :
  exists w', open errno_io errno_io (Z.lor O_WRONLY O_NONBLOCK)
               (world_of fresh_endpoint null_fr_id 0
                  [A_handle 11; A_handle 12; A_dword WAIT_TIMEOUT]) = Done 0 w'
    /\ errno w' = ENXIO
    /\ shared w' = {| _owner := null_fr_id; _nreaders := 0 |} /\ script w' = []
    /\ io_handle (self w') = NULL
    /\ trace w' = [Ev_CreateEvent true (Some r_event); Ev_CreateEvent true (Some w_event);
                   Ev_cygwait 11 0; Ev_NtClose 12; Ev_NtClose 11].
Proof.
  apply (open_writer_no_reader errno_io errno_io (Z.lor O_WRONLY O_NONBLOCK)
           (world_of fresh_endpoint null_fr_id 0
              [A_handle 11; A_handle 12; A_dword WAIT_TIMEOUT])
           11 12 []);
    [reflexivity | reflexivity | reflexivity | vm_compute; lia | vm_compute; lia | lia
    | reflexivity | reflexivity].
Defined.

(** X15.  A blocking open for writing that finds the pipe busy twice. *)
Lemma open_writer_retries_witness :
  exists w', open errno_io errno_io O_WRONLY
               (world_of fresh_endpoint reader_a 1
                  [A_handle 11; A_handle 12;
                   A_dword WAIT_OBJECT_0; A_nt STATUS_SUCCESS 30; A_nt STATUS_PIPE_BUSY NULL;
                   A_dword WAIT_OBJECT_0; A_nt STATUS_SUCCESS 30; A_nt STATUS_PIPE_BUSY NULL;
                   A_dword WAIT_OBJECT_0; A_nt STATUS_SUCCESS 30; A_nt STATUS_SUCCESS 5;
                   A_bool true]) = Done 1 w'
    /\ errno w' = 0
    /\ shared w' = {| _owner := reader_a; _nreaders := 1 |} /\ script w' = []
    /\ io_handle (self w') = 5
    /\ writer (self w') = true
    /\ trace w' = [Ev_CreateEvent true (Some r_event); Ev_CreateEvent true (Some w_event);
                   Ev_cygwait 11 INFINITE; Ev_WaitForSingleObject NULL;
                   Ev_npfs_handle; Ev_NtOpenFile; Ev_Sleep 1;
                   Ev_cygwait 11 INFINITE; Ev_WaitForSingleObject NULL;
                   Ev_npfs_handle; Ev_NtOpenFile; Ev_Sleep 1;
                   Ev_cygwait 11 INFINITE; Ev_WaitForSingleObject NULL;
                   Ev_npfs_handle; Ev_NtOpenFile;
                   Ev_NtSetInformationFile 5 FILE_PIPE_QUEUE_OPERATION;
                   Ev_SetEvent 12].
Proof.
  apply (open_writer_retries errno_io errno_io O_WRONLY
           (world_of fresh_endpoint reader_a 1
              [A_handle 11; A_handle 12;
               A_dword WAIT_OBJECT_0; A_nt STATUS_SUCCESS 30; A_nt STATUS_PIPE_BUSY NULL;
               A_dword WAIT_OBJECT_0; A_nt STATUS_SUCCESS 30; A_nt STATUS_PIPE_BUSY NULL;
               A_dword WAIT_OBJECT_0; A_nt STATUS_SUCCESS 30; A_nt STATUS_SUCCESS 5;
               A_bool true])
           11 12 30 [(STATUS_PIPE_BUSY, NULL); (STATUS_PIPE_BUSY, NULL)] STATUS_SUCCESS 5 []);
    [reflexivity | reflexivity | vm_compute; lia | vm_compute; lia | reflexivity
    | repeat constructor | reflexivity | reflexivity].
Defined.

(** X16.  A non-blocking open for reading of a FIFO that nobody has open. *)
Lemma open_first_reader_witness :
  exists w', open errno_io errno_io (Z.lor O_RDONLY O_NONBLOCK)
               (world_of fresh_endpoint null_fr_id 0
                  [A_handle 11; A_handle 12; A_bool true;
                   A_nt STATUS_SUCCESS 16; A_nt STATUS_SUCCESS 17;
                   A_nt STATUS_SUCCESS 13; A_nt STATUS_SUCCESS 14; A_nt STATUS_SUCCESS 15;
                   A_dword 100; A_reader_locked None; A_dword WAIT_TIMEOUT;
                   A_reader_locked None]) = Done 1 w'
    /\ errno w' = 0
    /\ shared w' = {| _owner := null_fr_id; _nreaders := 1 |}
    /\ script w' = []
    /\ (reader (self w') = true /\ nohandle_ (self w') = true
        /\ openflags (self w') = Z.lor O_RDONLY O_NONBLOCK
        /\ me (self w') = {| winpid := 100; fh := 2 |}
        /\ io_handle (self w') = NULL)
    /\ trace w' = [Ev_CreateEvent true (Some r_event); Ev_CreateEvent true (Some w_event);
                   Ev_SetEvent 11;
                   Ev_NtCreateSection; Ev_NtMapViewOfSection;
                   Ev_NtCreateEvent; Ev_NtCreateEvent; Ev_NtCreateEvent;
                   Ev_GetCurrentProcessId; Ev_new_cygthread 15;
                   Ev_lock reader_lock_id; Ev_unlock reader_lock_id;
                   Ev_cygwait 12 0;
                   Ev_lock reader_lock_id; Ev_unlock reader_lock_id].
Proof.
  apply (open_first_reader errno_io errno_io (Z.lor O_RDONLY O_NONBLOCK)
           (world_of fresh_endpoint null_fr_id 0
              [A_handle 11; A_handle 12; A_bool true;
               A_nt STATUS_SUCCESS 16; A_nt STATUS_SUCCESS 17;
               A_nt STATUS_SUCCESS 13; A_nt STATUS_SUCCESS 14; A_nt STATUS_SUCCESS 15;
               A_dword 100; A_reader_locked None; A_dword WAIT_TIMEOUT;
               A_reader_locked None])
           11 12 STATUS_SUCCESS 16 STATUS_SUCCESS 17 STATUS_SUCCESS 13 STATUS_SUCCESS 14
           STATUS_SUCCESS 15 100 None WAIT_TIMEOUT None []);
    [reflexivity | reflexivity | reflexivity | vm_compute; lia | vm_compute; lia
    | vm_compute; lia | reflexivity | reflexivity | reflexivity | reflexivity | reflexivity
    | vm_compute; lia | vm_compute; lia | vm_compute; lia | vm_compute; discriminate
    | right; reflexivity | reflexivity].
Defined.

(** ** The listener thread *)

(** X17.  A round of the listener thread of the busy reader, the owner, with
    room for four pipe instances: a writer connects to the new one. *)
Lemma thread_round_accepts_witness :
  exists w', thread_round 4 errno_io 50
               (world_of busy_reader reader_a 1
                  [A_owner_locked None; A_client_locked None;
                   A_nt STATUS_SUCCESS 30; A_nt STATUS_SUCCESS 24;
                   A_io STATUS_PENDING STATUS_SUCCESS 0; A_dword WAIT_OBJECT_0;
                   A_client_locked None]) = Done loop_continue w'
    /\ handlers (self w') =
         [ {| h := 21; state := fc_connected |}; {| h := 23; state := fc_connected |};
           {| h := 24; state := fc_connected |} ]
    /\ nconnected (self w') = 3
    /\ table_in_bounds (self w')
    /\ (table_counted busy_reader -> table_counted (self w'))
    /\ shared w' = {| _owner := reader_a; _nreaders := 1 |}
    /\ errno w' = 0 /\ script w' = []
    /\ trace w' = [Ev_lock owner_lock_id; Ev_unlock owner_lock_id;
                   Ev_lock fifo_client_lock_id;
                   Ev_NtClose 22;
                   Ev_npfs_handle;
                   Ev_NtCreateNamedPipeFile FILE_OPEN FILE_PIPE_QUEUE_OPERATION;
                   Ev_unlock fifo_client_lock_id;
                   Ev_SetEvent 13;
                   Ev_NtFsControlFile_LISTEN 24 50;
                   Ev_WaitForMultipleObjects 50 14;
                   Ev_lock fifo_client_lock_id;
                   Ev_SetEvent 12;
                   Ev_NtSetInformationFile 24 FILE_PIPE_COMPLETE_OPERATION;
                   Ev_ResetEvent 50;
                   Ev_unlock fifo_client_lock_id;
                   Ev_ResetEvent 13].
Proof.
  apply (thread_round_accepts 4 errno_io 50
           (world_of busy_reader reader_a 1
              [A_owner_locked None; A_client_locked None;
               A_nt STATUS_SUCCESS 30; A_nt STATUS_SUCCESS 24;
               A_io STATUS_PENDING STATUS_SUCCESS 0; A_dword WAIT_OBJECT_0;
               A_client_locked None])
           None STATUS_SUCCESS 30 STATUS_SUCCESS 24 STATUS_PENDING STATUS_SUCCESS 0
           [A_dword WAIT_OBJECT_0] []);
    [reflexivity | reflexivity | vm_compute; lia | vm_compute; lia | vm_compute; lia
    | reflexivity | reflexivity | vm_compute; lia
    | left; split; [reflexivity | split; [reflexivity | left; reflexivity]]
    | reflexivity].
Defined.

(** X18.  The listener thread of a reader that finds the other reader the owner. *)
Lemma thread_func_not_owner_witness :
  exists w', thread_func 4 errno_io
               (world_of sample_reader reader_b 2
                  [A_nt STATUS_SUCCESS 50; A_owner_locked None]) = Done 0 w'
    /\ self w' = sample_reader
    /\ shared w' = {| _owner := reader_b; _nreaders := 2 |}
    /\ errno w' = 0 /\ script w' = []
    /\ trace w' = [Ev_NtCreateEvent; Ev_lock owner_lock_id; Ev_unlock owner_lock_id;
                   Ev_WaitForSingleObject 14;
                   Ev_NtClose 50; Ev_auto_release].
Proof.
  apply (thread_func_not_owner 4 errno_io
           (world_of sample_reader reader_b 2 [A_nt STATUS_SUCCESS 50; A_owner_locked None])
           STATUS_SUCCESS 50 None []);
    [reflexivity | vm_compute; lia | reflexivity | reflexivity | reflexivity].
Defined.

(** X19.  The listening reader is cancelled while it waits for a writer, and
    its own connection to the pipe is the one that completes the listen. *)
Lemma thread_listen_cancelled_witness :
  exists w', thread_listen errno_io 50 0
               (world_of listening_reader reader_a 1
                  [A_io STATUS_PENDING STATUS_SUCCESS 0; A_dword (WAIT_OBJECT_0 + 1);
                   A_client_locked None; A_nt STATUS_SUCCESS 30; A_nt STATUS_SUCCESS 60])
             = Done loop_canceled w'
    /\ handlers (self w') = []
    /\ nhandlers (self w') = 0%nat
    /\ nconnected (self w') = 0
    /\ shared w' = {| _owner := reader_a; _nreaders := 1 |}
    /\ errno w' = 0 /\ script w' = []
    /\ trace w' = [Ev_SetEvent 13;
                   Ev_NtFsControlFile_LISTEN 21 50;
                   Ev_WaitForMultipleObjects 50 14;
                   Ev_lock fifo_client_lock_id;
                   Ev_npfs_handle; Ev_NtOpenFile;
                   Ev_NtClose 21;
                   Ev_NtClose 60;
                   Ev_unlock fifo_client_lock_id;
                   Ev_ResetEvent 13].
Proof.
  apply (thread_listen_cancelled errno_io 50
           (world_of listening_reader reader_a 1
              [A_io STATUS_PENDING STATUS_SUCCESS 0; A_dword (WAIT_OBJECT_0 + 1);
               A_client_locked None; A_nt STATUS_SUCCESS 30; A_nt STATUS_SUCCESS 60])
           STATUS_SUCCESS 0 STATUS_SUCCESS 30 STATUS_SUCCESS 60 []);
    [vm_compute; lia | vm_compute; lia | reflexivity | reflexivity | vm_compute; lia
    | left; reflexivity | reflexivity].
Defined.

(** X20.  The listening reader is cancelled just as a writer connects: its own
    connection is refused, and the pipe instance reports the writer. *)
Lemma thread_listen_late_writer_witness :
  exists w', thread_listen errno_io 50 0
               (world_of listening_reader reader_a 1
                  [A_io STATUS_PENDING STATUS_PENDING 0; A_dword (WAIT_OBJECT_0 + 1);
                   A_client_locked None; A_nt STATUS_SUCCESS 30; A_nt STATUS_PIPE_BUSY NULL;
                   A_pipe_info STATUS_SUCCESS 0 FILE_PIPE_CONNECTED_STATE])
             = Done loop_canceled w'
    /\ handlers (self w') = [ {| h := 21; state := fc_connected |} ]
    /\ nhandlers (self w') = 1%nat
    /\ nconnected (self w') = 1
    /\ (table_counted listening_reader -> table_counted (self w'))
    /\ shared w' = {| _owner := reader_a; _nreaders := 1 |}
    /\ errno w' = 0 /\ script w' = []
    /\ trace w' = [Ev_SetEvent 13;
                   Ev_NtFsControlFile_LISTEN 21 50;
                   Ev_WaitForMultipleObjects 50 14;
                   Ev_lock fifo_client_lock_id;
                   Ev_npfs_handle; Ev_NtOpenFile;
                   Ev_NtQueryInformationFile 21;
                   Ev_SetEvent 12;
                   Ev_NtSetInformationFile 21 FILE_PIPE_COMPLETE_OPERATION;
                   Ev_unlock fifo_client_lock_id;
                   Ev_ResetEvent 13].
Proof.
  apply (thread_listen_late_writer errno_io 50
           (world_of listening_reader reader_a 1
              [A_io STATUS_PENDING STATUS_PENDING 0; A_dword (WAIT_OBJECT_0 + 1);
               A_client_locked None; A_nt STATUS_SUCCESS 30; A_nt STATUS_PIPE_BUSY NULL;
               A_pipe_info STATUS_SUCCESS 0 FILE_PIPE_CONNECTED_STATE])
           STATUS_PENDING 0 STATUS_SUCCESS 30 STATUS_PIPE_BUSY NULL STATUS_SUCCESS 0
           FILE_PIPE_CONNECTED_STATE []);
    [vm_compute; lia | vm_compute; lia | reflexivity | reflexivity | reflexivity
    | reflexivity | right; left; reflexivity | reflexivity].
Defined.

(** ** End of file, closing, shared memory *)

(** X21.  A reader with no writer, to which one connects during the delay. *)
Lemma hit_eof_two_samples_witness :
  exists w', hit_eof (world_of sample_reader reader_a 1
                        [A_client_locked None;
                         A_client_locked
                           (Some {| t_nhandlers := 1;
                                    t_fc_handler := [ {| h := 21; state := fc_connected |} ];
                                    t_nconnected := 1 |})]) = Done false w'
    /\ script w' = []
    /\ trace w' = [Ev_lock fifo_client_lock_id; Ev_unlock fifo_client_lock_id;
                   Ev_Sleep 1; Ev_lock fifo_client_lock_id; Ev_unlock fifo_client_lock_id].
Proof.
  apply (hit_eof_two_samples
           (world_of sample_reader reader_a 1
              [A_client_locked None;
               A_client_locked
                 (Some {| t_nhandlers := 1;
                          t_fc_handler := [ {| h := 21; state := fc_connected |} ];
                          t_nconnected := 1 |})])
           None
           (Some {| t_nhandlers := 1;
                    t_fc_handler := [ {| h := 21; state := fc_connected |} ];
                    t_nconnected := 1 |})
           []);
    reflexivity.
Defined.

(** X22.  The only reader, the owner, with two connected writers, is closed. *)
Lemma close_reader_witness :
  exists w', close (world_of full_reader reader_a 1
                      [A_client_locked None; A_reader_locked None; A_owner_locked None;
                       A_int 0]) = Done 0 w'
    /\ shared w' = {| _owner := null_fr_id; _nreaders := 0 |}
    /\ errno w' = 0 /\ script w' = []
    /\ trace w' = [Ev_SetEvent 14; Ev_WaitForSingleObject 15;
                   Ev_NtClose 15; Ev_NtClose 14;
                   Ev_lock fifo_client_lock_id;
                   Ev_NtClose 21; Ev_NtClose 22;
                   Ev_unlock fifo_client_lock_id; Ev_lock reader_lock_id;
                   Ev_ResetEvent 11;
                   Ev_unlock reader_lock_id;
                   Ev_lock owner_lock_id; Ev_unlock owner_lock_id;
                   Ev_NtUnmapViewOfSection 17; Ev_NtClose 16;
                   Ev_NtClose 11; Ev_NtClose 12;
                   Ev_fhandler_base_close].
Proof.
  apply (close_reader
           (world_of full_reader reader_a 1
              [A_client_locked None; A_reader_locked None; A_owner_locked None; A_int 0])
           None None None 0 []);
    [reflexivity | vm_compute; lia | vm_compute; lia | vm_compute; lia | vm_compute; lia
    | vm_compute; lia | vm_compute; lia | vm_compute; lia | reflexivity].
Defined.

(** X23.  The section exists already and its view cannot be mapped. *)
Lemma create_shmem_maps_or_releases_witness :
  exists w', create_shmem errno_io
               (world_of fresh_endpoint reader_a 1
                  [A_nt STATUS_OBJECT_NAME_COLLISION NULL; A_nt STATUS_SUCCESS 16;
                   A_nt STATUS_PIPE_BROKEN 0]) = Done (-1) w'
    /\ self w' = fresh_endpoint
    /\ errno w' = EIO
    /\ shared w' = {| _owner := reader_a; _nreaders := 1 |} /\ script w' = []
    /\ trace w' = [Ev_NtCreateSection; Ev_NtOpenSection; Ev_NtMapViewOfSection;
                   Ev_NtClose 16].
Proof.
  apply (create_shmem_maps_or_releases errno_io
           (world_of fresh_endpoint reader_a 1
              [A_nt STATUS_OBJECT_NAME_COLLISION NULL; A_nt STATUS_SUCCESS 16;
               A_nt STATUS_PIPE_BROKEN 0])
           STATUS_OBJECT_NAME_COLLISION NULL STATUS_SUCCESS 16 STATUS_PIPE_BROKEN 0 []);
    reflexivity.
Defined.
